(** * VRAM estimator for Stable Diffusion v1.5 (app/main.py)

    A shallow embedding of [f_estimate], [bytes_to_gb] and the request
    handler [estimate_vram_endpoint], with Python's numbers as the program
    has them: unbounded integers ([Z]) and IEEE-754 binary64 floats, the
    latter through the executable specification [SpecFloat] of the standard
    library ([prec = 53], [emax = 1024]).  Python exceptions are an error
    result. *)

From Stdlib Require Import ZArith Bool String List Lia.
From Stdlib Require Import Reals Lra.
From Stdlib Require Import Floats.SpecFloat.

Local Open Scope string_scope.
Local Open Scope Z_scope.

(** ** Exceptions and results *)

Inductive exn : Type :=
| OverflowError
| ZeroDivisionError
| ValueError.

Inductive result (A : Type) : Type :=
| Ok (a : A)
| Raise (e : exn).

Arguments Ok {A} a.
Arguments Raise {A} e.

Definition bind {A B : Type} (r : result A) (k : A -> result B) : result B :=
  match r with
  | Ok a => k a
  | Raise e => Raise e
  end.

Notation "x <- c ;; k" := (bind c (fun x => k))
  (at level 61, c at next level, right associativity).

(** ** Python numbers *)

Module Py.

(** binary64 *)
Definition prec : Z := 53.
Definition emax : Z := 1024.

(** A Python number is an [int] or a [float]. *)
Inductive num : Type :=
| Int (z : Z)
| Float (x : spec_float).

(** The integer [z] as an exact (not normalised) mantissa with exponent 0. *)
Definition exact_int (z : Z) : spec_float :=
  match z with
  | Z0 => S754_zero false
  | Zpos p => S754_finite false p 0
  | Zneg p => S754_finite true p 0
  end.

(** A dyadic literal [m * 2^e], rounded to nearest even (exact for the
    literals of this program). *)
Definition dyadic (m e : Z) : spec_float := binary_normalize prec emax m e false.

Definition overflow_check (x : spec_float) : result spec_float :=
  match x with
  | S754_infinity _ => Raise OverflowError
  | _ => Ok x
  end.

(** [float(z)] (PyLong_AsDouble): nearest double, ties to even;
    OverflowError when the integer is too large. *)
Definition float_of_int (z : Z) : result spec_float :=
  overflow_check (dyadic z 0).

(** [a / b] on two ints (long_true_divide): the correctly rounded quotient
    of the two integers. *)
Definition int_truediv (a b : Z) : result spec_float :=
  if b =? 0 then Raise ZeroDivisionError
  else overflow_check (SFdiv prec emax (exact_int a) (exact_int b)).

Definition to_float (a : num) : result spec_float :=
  match a with
  | Int z => float_of_int z
  | Float x => Ok x
  end.

Definition is_zero (x : spec_float) : bool :=
  match x with
  | S754_zero _ => true
  | _ => false
  end.

Definition add (a b : num) : result num :=
  match a, b with
  | Int x, Int y => Ok (Int (x + y))
  | _, _ => x <- to_float a ;; y <- to_float b ;; Ok (Float (SFadd prec emax x y))
  end.

Definition sub (a b : num) : result num :=
  match a, b with
  | Int x, Int y => Ok (Int (x - y))
  | _, _ => x <- to_float a ;; y <- to_float b ;; Ok (Float (SFsub prec emax x y))
  end.

Definition mul (a b : num) : result num :=
  match a, b with
  | Int x, Int y => Ok (Int (x * y))
  | _, _ => x <- to_float a ;; y <- to_float b ;; Ok (Float (SFmul prec emax x y))
  end.

Definition truediv (a b : num) : result num :=
  match a, b with
  | Int x, Int y => q <- int_truediv x y ;; Ok (Float q)
  | _, _ =>
      x <- to_float a ;; y <- to_float b ;;
      if is_zero y then Raise ZeroDivisionError
      else Ok (Float (SFdiv prec emax x y))
  end.

(** [int(x)]: truncation towards zero. *)
Definition int_of_float (x : spec_float) : result Z :=
  match x with
  | S754_zero _ => Ok 0
  | S754_infinity _ => Raise OverflowError
  | S754_nan => Raise ValueError
  | S754_finite s m e =>
      Ok (cond_Zopp s (if 0 <=? e then Z.shiftl (Zpos m) e
                       else Z.shiftr (Zpos m) (- e)))
  end.

Definition int (a : num) : result Z :=
  match a with
  | Int z => Ok z
  | Float x => int_of_float x
  end.

(** Python compares a float with an int exactly, with no conversion. *)
Definition compare_float_int (x : spec_float) (z : Z) : option comparison :=
  match x with
  | S754_nan => None
  | S754_infinity s => Some (if s then Lt else Gt)
  | S754_zero _ => Some (0 ?= z)
  | S754_finite s m e =>
      Some (if 0 <=? e then cond_Zopp s (Z.shiftl (Zpos m) e) ?= z
            else cond_Zopp s (Zpos m) ?= Z.shiftl z (- e))
  end.

Definition compare (a b : num) : option comparison :=
  match a, b with
  | Int x, Int y => Some (x ?= y)
  | Float x, Int z => compare_float_int x z
  | Int z, Float x => option_map CompOpp (compare_float_int x z)
  | Float x, Float y => SFcompare x y
  end.

Definition eq (a b : num) : bool :=
  match compare a b with Some Eq => true | _ => false end.

Definition ne (a b : num) : bool := negb (eq a b).

Definition lt (a b : num) : bool :=
  match compare a b with Some Lt => true | _ => false end.

Definition le (a b : num) : bool :=
  match compare a b with Some (Lt | Eq) => true | _ => false end.

(** Nearest integer to [n / d] ([0 <= n], [0 < d]), ties to even. *)
Definition div_nearest_even (n d : Z) : Z :=
  let q := n / d in
  let r := n mod d in
  match 2 * r ?= d with
  | Lt => q
  | Eq => if Z.even q then q else q + 1
  | Gt => q + 1
  end.

(** [|x| * 10^ndigits] rounded to the nearest integer, ties to even: the
    decimal digits that dtoa (mode 3) produces for a finite [x]. *)
Definition scaled_digits (ndigits : Z) (x : spec_float) : Z :=
  match x with
  | S754_finite _ m e =>
      if 0 <=? e then Z.shiftl (Zpos m * 10 ^ ndigits) e
      else div_nearest_even (Zpos m * 10 ^ ndigits) (2 ^ (- e))
  | _ => 0
  end.

(** [round(x, ndigits)] on a float, [0 <= ndigits] (float___round___impl,
    double_round): infinities and nans round to themselves; a finite [x]
    goes to its correctly rounded decimal with [ndigits] places, which
    strtod maps back to the nearest double. *)
Definition round_float (x : spec_float) (ndigits : Z) : result spec_float :=
  match x with
  | S754_finite s _ _ =>
      match scaled_digits ndigits x with
      | Zpos c =>
          overflow_check
            (SFdiv prec emax (S754_finite s c 0) (exact_int (10 ^ ndigits)))
      | _ => Ok (S754_zero s)
      end
  | _ => Ok x
  end.

Definition round (a : num) (ndigits : Z) : result num :=
  match a with
  | Int z => Ok (Int z)
  | Float x => r <- round_float x ndigits ;; Ok (Float r)
  end.

End Py.

Import Py.

(** ** main.py: constants *)

Definition C_WEIGHTS_BYTES : Z := 2132400000.
Definition C_OVERHEAD_BYTES : Z := 500000000.
Definition C_L_FACTOR : Z := 3072.
Definition K_ITER_BASE : Z := 20000.
(** 1.25 = 5 * 2^-2 *)
Definition K_ATTN_STANDARD_MULTIPLIER : spec_float := dyadic 5 (-2).

(** The literals [1.0] and [-1.0]. *)
Definition one : spec_float := dyadic 1 0.
Definition minus_one : spec_float := dyadic (-1) 0.

(** ** main.py: bytes_to_gb *)

Definition bytes_to_gb (b : num) : result num :=
  truediv b (Int (1024 ^ 3)).

(** ** main.py: f_estimate *)

(** The local variables of [f_estimate] when it reaches its last line. *)
Record locals : Type := {
  M_fixed : num;
  M_prompt : num;
  latent_h : num;
  latent_w : num;
  N_latent_pixels : num;
  M_latent_buffer : num;
  M_unet_intermediate : num;
  attn_multiplier : num;
  mode_str : string;
  M_unet_intermediate_adjusted : num;
  M_peak_activation : num;
  M_peak_bytes : num
}.

Definition multiple_of_8_message : string :=
  "Input dimensions must be multiples of 8.".

(** The body of [f_estimate] up to its last line: [None] is the early
    return of line 46. *)
Definition f_estimate_locals (h w prompt_length : Z) (use_optimized : bool)
  : result (option locals) :=
  M_fixed <- add (Int C_WEIGHTS_BYTES) (Int C_OVERHEAD_BYTES) ;;
  M_prompt <- mul (Int C_L_FACTOR) (Int prompt_length) ;;
  latent_h <- truediv (Int h) (Int 8) ;;
  latent_w <- truediv (Int w) (Int 8) ;;
  ih <- int latent_h ;;
  if ne latent_h (Int ih) then Ok None else
  iw <- int latent_w ;;
  if ne latent_w (Int iw) then Ok None else
  N_latent_pixels <- mul latent_h latent_w ;;
  N4 <- mul N_latent_pixels (Int 4) ;;
  M_latent_buffer <- mul N4 (Int 2) ;;
  M_unet_intermediate <- mul N_latent_pixels (Int K_ITER_BASE) ;;
  let attn_multiplier :=
    if use_optimized then Float one else Float K_ATTN_STANDARD_MULTIPLIER in
  let mode_str :=
    if use_optimized then "Optimized (Linear Scaling)"
    else "Standard (Quadratic Overhead)" in
  M_unet_intermediate_adjusted <- mul M_unet_intermediate attn_multiplier ;;
  M_peak_activation <- add M_unet_intermediate_adjusted M_latent_buffer ;;
  M_fixed_prompt <- add M_fixed M_prompt ;;
  M_peak_bytes <- add M_fixed_prompt M_peak_activation ;;
  Ok (Some {|
    M_fixed := M_fixed;
    M_prompt := M_prompt;
    latent_h := latent_h;
    latent_w := latent_w;
    N_latent_pixels := N_latent_pixels;
    M_latent_buffer := M_latent_buffer;
    M_unet_intermediate := M_unet_intermediate;
    attn_multiplier := attn_multiplier;
    mode_str := mode_str;
    M_unet_intermediate_adjusted := M_unet_intermediate_adjusted;
    M_peak_activation := M_peak_activation;
    M_peak_bytes := M_peak_bytes
  |}).

Definition f_estimate (h w prompt_length : Z) (use_optimized : bool)
  : result (num * string) :=
  l <- f_estimate_locals h w prompt_length use_optimized ;;
  match l with
  | None => Ok (Float minus_one, multiple_of_8_message)
  | Some l => gb <- bytes_to_gb (M_peak_bytes l) ;; Ok (gb, mode_str l)
  end.

(** ** main.py: the request and the handler *)

Record VramRequest : Type := {
  height : Z;
  width : Z;
  prompt_length : Z;
  optimization : bool
}.

(** The two shapes of the dictionary the handler returns. *)
Inductive response : Type :=
| ErrorResponse (error details : string)
| Breakdown (predicted_vram_gb : num) (attention_mode : string)
            (fixed_cost_gb : num) (spatial_cost_gb : num).

Definition InvalidDimensions : response :=
  ErrorResponse "Invalid dimensions"
                "Height and width must be positive integers.".

Definition InvalidPromptLength : response :=
  ErrorResponse "Invalid prompt length"
                "Prompt length must be between 1 and 77 tokens.".

Definition NonMultipleOf8 (mode : string) : response :=
  ErrorResponse mode
                "Please use dimensions divisible by 8 (e.g., 512, 768, 1024).".

Definition estimate_vram_endpoint (request : VramRequest) : result response :=
  if (height request <=? 0) || (width request <=? 0) then Ok InvalidDimensions
  else if (prompt_length request <? 1) || (77 <? prompt_length request)
  then Ok InvalidPromptLength
  else
    r <- f_estimate (height request) (width request)
                    (prompt_length request) (optimization request) ;;
    let '(result_gb, mode) := r in
    if lt result_gb (Int 0) then Ok (NonMultipleOf8 mode)
    else
      fixed_cost_gb <- bytes_to_gb (Int (C_WEIGHTS_BYTES + C_OVERHEAD_BYTES)) ;;
      predicted <- round result_gb 2 ;;
      fixed <- round fixed_cost_gb 2 ;;
      spatial_gb <- sub result_gb fixed_cost_gb ;;
      spatial <- round spatial_gb 2 ;;
      Ok (Breakdown predicted mode fixed spatial).

(** ** Exactly represented values

    [dg m] is the number of binary digits of a mantissa.  [repr x z k] says
    that the double [x] is exactly [z * 2^k] for the integer [z]: a zero, or a
    normal number in canonical form (53-digit mantissa). *)

Definition dg (p : positive) : Z := Zpos (digits2_pos p).

Definition repr (x : spec_float) (z k : Z) : Prop :=
  match x with
  | S754_zero _ => z = 0
  | S754_finite s m e =>
      dg m = 53 /\ -1074 <= e <= 971 /\ e <= k /\
      cond_Zopp s (Zpos m) = z * 2 ^ (k - e)
  | _ => False
  end.

(** ** Abbreviations used in the statements *)

(** The dictionary sent as the body of a request. *)
Definition request (h w p : Z) (o : bool) : VramRequest :=
  {| height := h; width := w; prompt_length := p; optimization := o |}.

(** The double that is exactly the integer [z] (for [|z| < 2^53]). *)
Definition float_int (z : Z) : num := Float (dyadic z 0).

(** The Python literal with two decimals [c / 100], such as [2.53]: the
    double nearest to the decimal. *)
Definition decimal2 (c : Z) : result num := truediv (Int c) (Int 100).

Definition attention_mode_of (use_optimized : bool) : string :=
  if use_optimized then "Optimized (Linear Scaling)"
  else "Standard (Quadratic Overhead)".

(** The byte count of the cost model, as an integer. *)
Definition total_bytes (a b prompt_length : Z) (use_optimized : bool) : Z :=
  C_WEIGHTS_BYTES + C_OVERHEAD_BYTES + C_L_FACTOR * prompt_length
  + a * b * (if use_optimized then 20008 else 25008).

(** The Python number [a] is a float that is exactly [z * 2^k]. *)
Definition exactly (a : num) (z k : Z) : Prop :=
  exists x, a = Float x /\ repr x z k.

(** A valid input of the specification: both dimensions positive multiples
    of 8 and a prompt length between 1 and 77. *)
Definition valid_dimension (d : Z) : Prop := 0 < d /\ d mod 8 = 0.

Definition valid_input (h w prompt_length : Z) : Prop :=
  valid_dimension h /\ valid_dimension w /\ 1 <= prompt_length <= 77.

(** The unrounded [fixed_cost_gb] of line 148. *)
Definition fixed_cost_gb : result num :=
  bytes_to_gb (Int (C_WEIGHTS_BYTES + C_OVERHEAD_BYTES)).

(** The hundredths shown by [round(x, 2)]: [round(x, 2)] is the double
    nearest to [hundredths x / 100]. *)
Definition hundredths (a : num) : Z :=
  match a with
  | Int z => 100 * z
  | Float x => cond_Zopp (match x with S754_finite s _ _ => s | _ => false end)
                         (scaled_digits 2 x)
  end.

(** [x] is [+inf] or a double in canonical form that is at least 1. *)
Definition at_least_one (x : spec_float) : Prop :=
  match x with
  | S754_infinity false => True
  | S754_finite false m e => dg m = 53 /\ -52 <= e <= 971
  | _ => False
  end.

(** ** Real values of doubles

    [val x] is the real value of a positive finite double; it is used to
    bound the rounding errors of the cost model. *)

Definition p2 (e : Z) : R := powerRZ 2 e.

Definition val (x : spec_float) : R :=
  match x with
  | S754_finite false m e => (IZR (Zpos m) * p2 e)%R
  | _ => 0%R
  end.

(** The unit roundoff of a 53-digit mantissa, [2^-52]. *)
Definition u52 : R := (/ 4503599627370496)%R.

Definition clamp (M : positive) (E : Z) : spec_float :=
  if E <=? 971 then S754_finite false M E else S754_infinity false.

Definition finite (x : spec_float) : Prop :=
  match x with
  | S754_finite _ _ _ => True
  | _ => False
  end.

(** [y] is [+inf], or both are finite and [c * x <= y]. *)
Definition gap (c : R) (x y : spec_float) : Prop :=
  y = S754_infinity false \/
  finite x /\ finite y /\ (c * val x <= val y)%R.

(** Strictly below, or both [+inf]. *)
Definition below (x y : spec_float) : Prop :=
  SFltb x y = true \/ x = S754_infinity false /\ y = S754_infinity false.

(** The byte count of line 62 as one expression on doubles. *)
Definition peak_bytes (xA lh lw : spec_float) (opt : bool) : spec_float :=
  SFadd prec emax xA
    (SFadd prec emax
       (SFmul prec emax
          (SFmul prec emax (SFmul prec emax lh lw) (dyadic 20000 0))
          (if opt then one else K_ATTN_STANDARD_MULTIPLIER))
       (SFmul prec emax
          (SFmul prec emax (SFmul prec emax lh lw) (dyadic 4 0))
          (dyadic 2 0))).

(** The location of a remainder [rem] of a division by [d]. *)
Definition loc_of_rem (rem d : Z) : location :=
  if rem =? 0 then loc_Exact else loc_Inexact (2 * rem ?= d).


(** * Facts about binary64 arithmetic *)


Ltac hide_pow :=
  repeat match goal with
         | |- context [2 ^ ?e] =>
             let v := fresh "pw" in set (v := 2 ^ e) in *; clearbody v
         end.

Lemma dg_pos p : 1 <= dg p.
Proof. unfold dg. lia. Qed.

Lemma dg_bounds p : 2 ^ (dg p - 1) <= Zpos p < 2 ^ dg p.
Proof.
  unfold dg. induction p as [p IH | p IH | ]; cbn [digits2_pos].
  - rewrite Pos2Z.inj_succ, (Pos2Z.inj_xI p).
    replace (Z.succ (Zpos (digits2_pos p)) - 1) with (Z.succ (Zpos (digits2_pos p) - 1)) by lia.
    rewrite !Z.pow_succ_r by lia.
    hide_pow; lia.
  - rewrite Pos2Z.inj_succ, (Pos2Z.inj_xO p).
    replace (Z.succ (Zpos (digits2_pos p)) - 1) with (Z.succ (Zpos (digits2_pos p) - 1)) by lia.
    rewrite !Z.pow_succ_r by lia.
    hide_pow; lia.
  - cbn. lia.
Qed.

Lemma dg_unique p d : 2 ^ (d - 1) <= Zpos p < 2 ^ d -> dg p = d.
Proof.
  intros [Hl Hu]. pose proof (dg_bounds p) as [Bl Bu]. pose proof (dg_pos p).
  destruct (Z.lt_trichotomy (dg p) d) as [Hlt | [Heq | Hgt]]; trivial; exfalso.
  - assert (2 ^ dg p <= 2 ^ (d - 1)) by (apply Z.pow_le_mono_r; lia). lia.
  - assert (0 <= d \/ d < 0) as [Hd | Hd] by lia.
    + assert (2 ^ d <= 2 ^ (dg p - 1)) by (apply Z.pow_le_mono_r; lia). lia.
    + rewrite (Z.pow_neg_r 2 d) in Hu by lia. lia.
Qed.

Lemma dg_le p d : Zpos p < 2 ^ d -> dg p <= d.
Proof.
  intros Hu. pose proof (dg_bounds p) as [Bl _]. pose proof (dg_pos p).
  destruct (Z_le_gt_dec (dg p) d) as [|Hgt]; trivial. exfalso.
  assert (0 <= d \/ d < 0) as [Hd | Hd] by lia.
  - assert (2 ^ d <= 2 ^ (dg p - 1)) by (apply Z.pow_le_mono_r; lia). lia.
  - rewrite (Z.pow_neg_r 2 d) in Hu by lia. lia.
Qed.

Lemma dg_shift p q j : 0 <= j -> Zpos q = Zpos p * 2 ^ j -> dg q = dg p + j.
Proof.
  intros Hj E. apply dg_unique. pose proof (dg_bounds p) as [Bl Bu]. pose proof (dg_pos p).
  rewrite E. replace (dg p + j - 1) with ((dg p - 1) + j) by lia.
  rewrite !Z.pow_add_r by lia.
  assert (0 < 2 ^ j) by (apply Z.pow_pos_nonneg; lia). nia.
Qed.

(* iteration *)
Lemma iter_pos_eq {A} (f : A -> A) n x : iter_pos f n x = Pos.iter f x n.
Proof.
  revert x. induction n as [n IH | n IH | ]; intros x; cbn.
  - rewrite !IH, !Pos.iter_swap. reflexivity.
  - rewrite !IH. reflexivity.
  - reflexivity.
Qed.

Lemma Zpos_iter_xO p n : Zpos (Pos.iter xO p n) = Zpos p * 2 ^ Zpos n.
Proof.
  induction n as [| n IH] using Pos.peano_ind.
  - cbn. lia.
  - rewrite Pos.iter_succ, Pos2Z.inj_xO, IH, Pos2Z.inj_succ, Z.pow_succ_r by lia. lia.
Qed.

Lemma shr_exact p n :
  iter_pos shr_1 n (Build_shr_record (Zpos (Pos.iter xO p n)) false false)
  = Build_shr_record (Zpos p) false false.
Proof.
  rewrite iter_pos_eq.
  induction n as [| n IH] using Pos.peano_ind.
  - reflexivity.
  - rewrite Pos.iter_succ_r, Pos.iter_succ. cbn [shr_1 orb]. exact IH.
Qed.


Lemma fexp_normal x : -1021 <= x -> fexp prec emax x = x - 53.
Proof. intros H. unfold fexp, emin, prec, emax. lia. Qed.

Lemma shr_fexp_exact m M n e :
  0 <= n -> Zpos m = Zpos M * 2 ^ n -> dg M = 53 -> -1074 <= e + n ->
  shr_fexp prec emax (Zpos m) e loc_Exact
  = (Build_shr_record (Zpos M) false false, e + n).
Proof.
  intros Hn Hm HM He.
  assert (Hd : dg m = 53 + n) by (rewrite (dg_shift M m n Hn Hm); lia).
  unfold shr_fexp. cbn [Zdigits2 shr_record_of_loc]. fold (dg m). rewrite Hd.
  rewrite fexp_normal by lia.
  replace (53 + n + e - 53 - e) with n by lia.
  destruct n as [| p | p]; try lia; cbn [shr].
  - rewrite Z.pow_0_r, Z.mul_1_r in Hm. injection Hm as ->. f_equal. lia.
  - rewrite <- Zpos_iter_xO in Hm. injection Hm as ->. rewrite shr_exact. reflexivity.
Qed.

Lemma bra_exact s m M n e :
  0 <= n -> Zpos m = Zpos M * 2 ^ n -> dg M = 53 ->
  -1074 <= e + n <= 971 ->
  binary_round_aux prec emax s (Zpos m) e loc_Exact = S754_finite s M (e + n).
Proof.
  intros Hn Hm HM He. unfold binary_round_aux.
  rewrite (shr_fexp_exact m M n e) by (trivial; lia).
  cbn [shr_m loc_of_shr_record round_nearest_even].
  rewrite (shr_fexp_exact M M 0 (e + n)) by (trivial; lia).
  cbn [shr_m]. rewrite Z.add_0_r.
  replace (e + n <=? emax - prec) with true; trivial.
  symmetry. apply Z.leb_le. unfold emax, prec. lia.
Qed.


Lemma pow2_pos n : 0 <= n -> 0 < 2 ^ n.
Proof. intros; apply Z.pow_pos_nonneg; lia. Qed.

Lemma pow2_split a b : 0 <= b <= a -> 2 ^ a = 2 ^ (a - b) * 2 ^ b.
Proof. intros H. rewrite <- Z.pow_add_r by lia. f_equal. lia. Qed.

(** A positive mantissa [m = c * 2^K] with [c < 2^53] and at least 53
    digits rounds to itself: the bits shifted out are zeros. *)
Lemma bra_dyadic s m c K e :
  0 <= K -> Zpos m = c * 2 ^ K -> 0 < c < 2 ^ 53 -> 53 <= dg m ->
  -1074 <= e + dg m - 53 -> e + K <= 971 ->
  exists M E,
    binary_round_aux prec emax s (Zpos m) e loc_Exact = S754_finite s M E /\
    dg M = 53 /\ -1074 <= E <= 971 /\ E <= e + K /\
    Zpos M = c * 2 ^ (e + K - E).
Proof.
  intros HK Hm Hc Hd Hlo Hhi.
  set (n := dg m - 53).
  assert (Hn : 0 <= n <= K).
  { split; [unfold n; lia|].
    assert (dg m <= 53 + K); [|unfold n; lia].
    apply dg_le. rewrite Hm, Z.pow_add_r by lia.
    pose proof (pow2_pos K HK). nia. }
  pose proof (pow2_pos (K - n) ltac:(lia)) as Hp.
  assert (HM : 0 < c * 2 ^ (K - n)) by nia.
  destruct (c * 2 ^ (K - n)) as [| M | M] eqn:EM; try lia.
  assert (Hm' : Zpos m = Zpos M * 2 ^ n).
  { rewrite Hm, <- EM, <- Z.mul_assoc, <- (pow2_split K n); lia. }
  assert (HdM : dg M = 53).
  { pose proof (dg_shift M m n ltac:(lia) Hm'). unfold n in *. lia. }
  exists M, (e + n). split; [|repeat split; try (unfold n; lia)].
  - apply bra_exact; trivial; unfold n; lia.
  - rewrite <- EM. do 2 f_equal. lia.
Qed.

Lemma shl_align_fst m e e' :
  e' <= e -> Zpos (fst (shl_align m e e')) = Zpos m * 2 ^ (e - e').
Proof.
  intros H. unfold shl_align.
  destruct (e' - e) as [| d | d] eqn:E; try lia; cbn [fst].
  - replace (e - e') with 0 by lia. lia.
  - rewrite Zpos_iter_xO. do 2 f_equal. lia.
Qed.

Lemma shl_align_snd m e e' :
  e' <= e -> snd (shl_align m e e') = e'.
Proof.
  intros H. unfold shl_align.
  destruct (e' - e) as [| d | d] eqn:E; try lia; cbn [snd]; lia.
Qed.

Lemma shl_align_id m e e' : e <= e' -> shl_align m e e' = (m, e).
Proof.
  intros H. unfold shl_align.
  destruct (e' - e) as [| d | d] eqn:E; try lia; reflexivity.
Qed.

(** [binary_round] of a dyadic [c * 2^j * 2^e] with [c < 2^53]. *)
Lemma binary_round_dyadic s p c j e :
  0 <= j -> Zpos p = c * 2 ^ j -> 0 < c < 2 ^ 53 ->
  -1074 <= e + dg p - 53 -> e + j <= 971 ->
  exists M E,
    binary_round prec emax s p e = S754_finite s M E /\
    dg M = 53 /\ -1074 <= E <= 971 /\ E <= e + j /\
    Zpos M = c * 2 ^ (e + j - E).
Proof.
  intros Hj Hp Hc Hlo Hhi. unfold binary_round. fold (dg p).
  rewrite fexp_normal by lia.
  destruct (Z_le_gt_dec 53 (dg p)) as [Hd | Hd].
  - rewrite shl_align_id by lia. apply bra_dyadic; trivial.
  - pose proof (shl_align_fst p e (dg p + e - 53) ltac:(lia)) as Hf.
    pose proof (shl_align_snd p e (dg p + e - 53) ltac:(lia)) as Hs.
    destruct (shl_align p e (dg p + e - 53)) as [mz ez]. cbn [fst snd] in *. subst ez.
    replace (e - (dg p + e - 53)) with (53 - dg p) in Hf by lia.
    assert (Hdz : dg mz = 53).
    { rewrite (dg_shift p mz (53 - dg p)); trivial; lia. }
    exists mz, (dg p + e - 53).
    pose proof (bra_exact s mz mz 0 (dg p + e - 53) ltac:(lia) ltac:(lia)
                  Hdz ltac:(lia)) as Hb.
    rewrite Z.add_0_r in Hb.
    split; [exact Hb|]. repeat split; trivial; try lia.
    assert (dg p <= 53 + j).
    { apply dg_le. rewrite Hp, Z.pow_add_r by lia. pose proof (pow2_pos j Hj). nia. }
    rewrite Hf, Hp, <- Z.mul_assoc, <- Z.pow_add_r by lia. do 2 f_equal. lia.
Qed.



Lemma cond_Zopp_abs s m z P :
  0 < P -> cond_Zopp s (Zpos m) = z * P -> Zpos m = Z.abs z * P /\ z <> 0 /\ s = (z <? 0).
Proof.
  intros HP H. destruct s; cbn [cond_Zopp] in H.
  - assert (z < 0) by nia. split; [nia|]. split; [lia|]. symmetry; apply Z.ltb_lt; lia.
  - assert (0 < z) by nia. split; [nia|]. split; [lia|]. symmetry; apply Z.ltb_ge; lia.
Qed.

Lemma repr_finite_inv s m e z k :
  repr (S754_finite s m e) z k ->
  dg m = 53 /\ -1074 <= e <= 971 /\ e <= k /\
  Zpos m = Z.abs z * 2 ^ (k - e) /\ z <> 0 /\ s = (z <? 0) /\ 0 < Z.abs z < 2 ^ 53
  /\ k - 52 <= e.
Proof.
  intros (Hd & He & Hk & Hv).
  pose proof (pow2_pos (k - e) ltac:(lia)) as HP.
  destruct (cond_Zopp_abs s m z _ HP Hv) as (Hm & Hz & Hs).
  pose proof (dg_bounds m) as [Bl Bu]. rewrite Hd in Bl, Bu.
  assert (H1 : 0 < Z.abs z) by lia.
  assert (H2 : Z.abs z < 2 ^ 53) by nia.
  assert (H3 : k - 52 <= e).
  { destruct (Z_le_gt_dec (k - 52) e) as [|Hgt]; trivial. exfalso.
    assert (2 ^ 53 <= 2 ^ (k - e)) by (apply Z.pow_le_mono_r; lia). nia. }
  repeat split; trivial; lia.
Qed.

Lemma repr_finite_intro s M E (c z k : Z) :
  dg M = 53 -> -1074 <= E <= 971 -> E <= k -> Zpos M = c * 2 ^ (k - E) ->
  c = Z.abs z -> s = (z <? 0) ->
  repr (S754_finite s M E) z k.
Proof.
  intros Hd HE Hk HM -> ->. cbn [repr]. repeat split; trivial; try lia.
  destruct (Z.ltb_spec z 0); cbn [cond_Zopp]; rewrite HM.
  - rewrite Z.abs_neq by lia. lia.
  - rewrite Z.abs_eq by lia. lia.
Qed.

Lemma repr_mul x y a b k1 k2 :
  repr x a k1 -> repr y b k2 -> Z.abs (a * b) < 2 ^ 53 ->
  -1000 <= k1 + k2 <= 900 ->
  repr (SFmul prec emax x y) (a * b) (k1 + k2).
Proof.
  intros Hx Hy Hab Hk.
  destruct x as [sx | sx | | sx mx ex]; try contradiction;
  destruct y as [sy | sy | | sy my ey]; try contradiction;
  cbn [SFmul repr] in *; subst; try lia.
  apply repr_finite_inv in Hx, Hy.
  destruct Hx as (Hdx & Hex & Hkx & Hmx & Hax & Hsx & Hcx & Hlx).
  destruct Hy as (Hdy & Hey & Hky & Hmy & Hby & Hsy & Hcy & Hly).
  set (K := (k1 - ex) + (k2 - ey)).
  assert (Hm : Zpos (mx * my) = Z.abs (a * b) * 2 ^ K).
  { rewrite Pos2Z.inj_mul, Hmx, Hmy, Z.abs_mul. unfold K.
    rewrite Z.pow_add_r by lia. ring. }
  assert (Hdm : 105 <= dg (mx * my)).
  { pose proof (dg_bounds mx) as [Blx _]. pose proof (dg_bounds my) as [Bly _].
    pose proof (dg_bounds (mx * my)) as [_ Bu].
    rewrite Hdx in Blx. rewrite Hdy in Bly. rewrite Pos2Z.inj_mul in Bu.
    destruct (Z_le_gt_dec 105 (dg (mx * my))) as [|Hgt]; trivial. exfalso.
    assert (2 ^ dg (mx * my) <= 2 ^ 104) by (apply Z.pow_le_mono_r; lia).
    change (2 ^ (53 - 1)) with 4503599627370496 in *.
    change (2 ^ 104) with (4503599627370496 * 4503599627370496) in *. nia. }
  assert (Hdm' : dg (mx * my) <= 53 + K).
  { apply dg_le. rewrite Hm, Z.pow_add_r by (unfold K; lia).
    pose proof (pow2_pos K ltac:(unfold K; lia)). nia. }
  destruct (bra_dyadic (xorb sx sy) (mx * my) (Z.abs (a * b)) K (ex + ey))
    as (M & E & HR & HdM & HE & HEK & HM);
    trivial; try (unfold K; lia).
  rewrite HR.
  apply (repr_finite_intro _ M E (Z.abs (a * b))); trivial; try (unfold K in *; lia).
  - rewrite HM. do 2 f_equal. unfold K. lia.
  - rewrite Hsx, Hsy.
    destruct (Z.ltb_spec a 0), (Z.ltb_spec b 0), (Z.ltb_spec (a * b) 0);
      cbn; trivial; nia.
Qed.


Lemma dg_ge p j : 0 <= j -> 2 ^ j <= Zpos p -> j + 1 <= dg p.
Proof.
  intros Hj H. pose proof (dg_bounds p) as [_ Bu]. pose proof (dg_pos p).
  destruct (Z_le_gt_dec (j + 1) (dg p)) as [|Hgt]; trivial. exfalso.
  assert (2 ^ dg p <= 2 ^ j) by (apply Z.pow_le_mono_r; lia). lia.
Qed.

Lemma cond_Zopp_mul s m P : cond_Zopp s (m * P) = cond_Zopp s m * P.
Proof. destruct s; cbn [cond_Zopp]; lia. Qed.

Lemma binary_normalize_dyadic S c j e :
  0 <= j -> S = c * 2 ^ j -> Z.abs c < 2 ^ 53 -> -1000 <= e + j <= 900 ->
  repr (binary_normalize prec emax S e false) c (e + j).
Proof.
  intros Hj HS Hc He. pose proof (pow2_pos j Hj) as HP.
  destruct S as [| p | p]; cbn [binary_normalize].
  - cbn [repr]. nia.
  - assert (0 < c) by nia.
    pose proof (dg_ge p j Hj ltac:(nia)).
    destruct (binary_round_dyadic false p c j e) as (M & E & HR & HdM & HE & HEK & HM);
      trivial; try lia.
    rewrite HR. apply (repr_finite_intro _ M E c); trivial; try lia.
  - assert (c < 0) by nia.
    pose proof (dg_ge p j Hj ltac:(nia)).
    destruct (binary_round_dyadic true p (- c) j e) as (M & E & HR & HdM & HE & HEK & HM);
      trivial; try lia.
    rewrite HR. apply (repr_finite_intro _ M E (- c)); trivial; try lia.
Qed.

Lemma repr_aligned s m e z k ez :
  repr (S754_finite s m e) z k -> ez <= e ->
  cond_Zopp s (Zpos (fst (shl_align m e ez))) = z * 2 ^ (k - ez).
Proof.
  intros (Hd & He & Hk & Hv) Hez.
  rewrite shl_align_fst, cond_Zopp_mul, Hv, <- Z.mul_assoc, <- Z.pow_add_r by lia.
  do 2 f_equal. lia.
Qed.

Lemma repr_exp_lower s m e z k : repr (S754_finite s m e) z k -> k - 52 <= e.
Proof. intros H. apply repr_finite_inv in H. lia. Qed.

Lemma repr_add x y a b k :
  repr x a k -> repr y b k -> Z.abs (a + b) < 2 ^ 53 -> -900 <= k <= 900 ->
  repr (SFadd prec emax x y) (a + b) k.
Proof.
  intros Hx Hy Hab Hk.
  destruct x as [sx | sx | | sx mx ex]; try contradiction;
  destruct y as [sy | sy | | sy my ey]; try contradiction.
  - cbn [repr] in *. subst. destruct sx, sy; cbn; lia.
  - cbn [repr] in Hx. subst. exact Hy.
  - cbn [repr] in Hy. subst. rewrite Z.add_0_r. exact Hx.
  - cbn [SFadd].
    pose proof (repr_exp_lower _ _ _ _ _ Hx). pose proof (repr_exp_lower _ _ _ _ _ Hy).
    assert (Hkx : ex <= k) by (apply Hx). assert (Hky : ey <= k) by (apply Hy).
    rewrite (repr_aligned sx mx ex a k (Z.min ex ey)) by (trivial; lia).
    rewrite (repr_aligned sy my ey b k (Z.min ex ey)) by (trivial; lia).
    replace k with (Z.min ex ey + (k - Z.min ex ey)) at 3 by lia.
    apply binary_normalize_dyadic; try lia.
Qed.

Lemma repr_sub x y a b k :
  repr x a k -> repr y b k -> Z.abs (a - b) < 2 ^ 53 -> -900 <= k <= 900 ->
  repr (SFsub prec emax x y) (a - b) k.
Proof.
  intros Hx Hy Hab Hk.
  destruct x as [sx | sx | | sx mx ex]; try contradiction;
  destruct y as [sy | sy | | sy my ey]; try contradiction.
  - cbn [repr] in *. subst. destruct sx, sy; cbn; lia.
  - cbn [repr] in Hx. subst. cbn [SFsub].
    apply repr_finite_inv in Hy.
    destruct Hy as (Hdy & Hey & Hky & Hmy & Hby & Hsy & Hcy & Hly).
    apply (repr_finite_intro _ my ey (Z.abs b)); trivial; try lia.
    rewrite Hsy. destruct (Z.ltb_spec b 0), (Z.ltb_spec (0 - b) 0); cbn; trivial; lia.
  - cbn [repr] in Hy. subst. rewrite Z.sub_0_r. exact Hx.
  - cbn [SFsub].
    pose proof (repr_exp_lower _ _ _ _ _ Hx). pose proof (repr_exp_lower _ _ _ _ _ Hy).
    assert (Hkx : ex <= k) by (apply Hx). assert (Hky : ey <= k) by (apply Hy).
    rewrite (repr_aligned sx mx ex a k (Z.min ex ey)) by (trivial; lia).
    rewrite (repr_aligned sy my ey b k (Z.min ex ey)) by (trivial; lia).
    replace k with (Z.min ex ey + (k - Z.min ex ey)) at 3 by lia.
    apply binary_normalize_dyadic; try lia.
Qed.

Lemma repr_dyadic z k :
  Z.abs z < 2 ^ 53 -> -900 <= k <= 900 ->
  repr (binary_normalize prec emax z k false) z k.
Proof.
  intros Hz Hk. replace k with (k + 0) at 2 by lia.
  apply binary_normalize_dyadic; lia.
Qed.


Lemma div_eucl_exact Q P : 0 < P -> Z.div_eucl (Q * P) P = (Q, 0).
Proof.
  intros HP.
  pose proof (Z.div_mul Q P ltac:(lia)) as Hq.
  pose proof (Z.mod_mul Q P ltac:(lia)) as Hr.
  unfold Z.div, Z.modulo in Hq, Hr.
  destruct (Z.div_eucl (Q * P) P) as [q r]. cbn in Hq, Hr. congruence.
Qed.

Lemma new_location_exact n : new_location n 0 = loc_Exact.
Proof.
  unfold new_location, new_location_even, new_location_odd.
  destruct (Z.even n); reflexivity.
Qed.

Lemma SFdiv_pow2 s1 m1 e1 s2 m2 e2 j c K :
  0 <= j -> Zpos m2 = 2 ^ j -> 0 <= K -> Zpos m1 = c * 2 ^ K ->
  0 < c < 2 ^ 53 -> dg m1 <= j + 53 ->
  -1021 <= e1 - e2 - j + K <= 971 ->
  exists M E,
    SFdiv prec emax (S754_finite s1 m1 e1) (S754_finite s2 m2 e2)
      = S754_finite (xorb s1 s2) M E /\
    dg M = 53 /\ -1074 <= E <= 971 /\ E <= e1 - e2 - j + K /\
    Zpos M = c * 2 ^ (e1 - e2 - j + K - E).
Proof.
  intros Hj Hm2 HK Hm1 Hc Hd1 Hk.
  pose proof (pow2_pos j Hj) as HPj. pose proof (pow2_pos K HK) as HPK.
  assert (Hd2 : dg m2 = j + 1).
  { apply dg_unique. rewrite Hm2. replace (j + 1 - 1) with j by lia.
    rewrite Z.pow_add_r by lia. lia. }
  assert (HdK : K + 1 <= dg m1) by (apply dg_ge; trivial; nia).
  assert (HdK' : dg m1 <= 53 + K).
  { apply dg_le. rewrite Hm1, Z.pow_add_r by lia. nia. }
  cbn [SFdiv]. unfold SFdiv_core_binary. cbn [Zdigits2].
  fold (dg m1) (dg m2). rewrite Hd2, fexp_normal by lia.
  replace (Z.min (dg m1 + e1 - (j + 1 + e2) - 53) (e1 - e2))
    with (dg m1 + e1 - (j + 1 + e2) - 53) by lia.
  set (e' := dg m1 + e1 - (j + 1 + e2) - 53).
  replace (e1 - e2 - e') with (j + 54 - dg m1) by (unfold e'; lia).
  destruct (j + 54 - dg m1) as [| sp | sp] eqn:Es; try lia.
  rewrite Z.shiftl_mul_pow2 by lia. rewrite <- Es.
  set (K' := K + 54 - dg m1).
  pose proof (pow2_pos K' ltac:(unfold K'; lia)) as HPK'.
  assert (Hq : Zpos m1 * 2 ^ (j + 54 - dg m1) = c * 2 ^ K' * Zpos m2).
  { rewrite Hm1, Hm2, <- !Z.mul_assoc, <- !Z.pow_add_r by (unfold K'; lia).
    do 2 f_equal. unfold K'. lia. }
  rewrite Hq, div_eucl_exact by lia. rewrite new_location_exact.
  assert (0 < c * 2 ^ K') by nia.
  destruct (c * 2 ^ K') as [| mq | mq] eqn:Emq; try lia.
  assert (Hdq : dg mq = 54).
  { assert (Hx : exists t, Zpos t = Zpos m1 * 2 ^ (j + 54 - dg m1)).
    { exists (Z.to_pos (Zpos m1 * 2 ^ (j + 54 - dg m1))). rewrite Z2Pos.id; trivial.
      pose proof (pow2_pos (j + 54 - dg m1) ltac:(lia)). nia. }
    destruct Hx as [t Ht].
    pose proof (dg_shift m1 t (j + 54 - dg m1) ltac:(lia) Ht) as D1.
    rewrite Hq, Hm2 in Ht.
    pose proof (dg_shift mq t j Hj Ht) as D2. lia. }
  destruct (bra_dyadic (xorb s1 s2) mq c K' e')
    as (M & E & HR & HdM & HE & HEK & HM);
    trivial; try (unfold e', K' in *; lia).
  exists M, E. rewrite HR. split; [reflexivity|].
  repeat split; trivial; try (unfold e', K' in *; lia).
  rewrite HM. do 2 f_equal. unfold e', K'. lia.
Qed.


Lemma repr_scale_down x z j k : 0 <= j -> repr x (z * 2 ^ j) k -> repr x z (k + j).
Proof.
  intros Hj H. destruct x as [s | s | | s m e]; try contradiction; cbn [repr] in *.
  - pose proof (pow2_pos j Hj). nia.
  - destruct H as (Hd & He & Hk & Hv). repeat split; trivial; try lia.
    rewrite Hv, <- Z.mul_assoc, <- Z.pow_add_r by lia. do 2 f_equal. lia.
Qed.

Lemma repr_scale_up x z j k :
  0 <= j -> Z.abs (z * 2 ^ j) < 2 ^ 53 -> repr x z (k + j) -> repr x (z * 2 ^ j) k.
Proof.
  intros Hj Hz H. destruct x as [s | s | | s m e]; try contradiction.
  - cbn [repr] in *. subst. lia.
  - apply repr_finite_inv in H.
    destruct H as (Hd & He & Hk & Hm & Hz0 & Hs & Hc & Hl).
    pose proof (pow2_pos j Hj) as HPj.
    pose proof (dg_bounds m) as [Bl _]. rewrite Hd in Bl.
    assert (Hek : e <= k).
    { destruct (Z_le_gt_dec e k) as [|Hgt]; trivial. exfalso.
      assert (2 * 2 ^ (k + j - e) <= 2 ^ j).
      { replace j with (Z.succ (k + j - e) + (e - k - 1)) at 2 by lia.
        rewrite Z.pow_add_r, Z.pow_succ_r by lia.
        pose proof (pow2_pos (e - k - 1) ltac:(lia)).
        pose proof (pow2_pos (k + j - e) ltac:(lia)). nia. }
      rewrite Z.abs_mul, (Z.abs_eq (2 ^ j)) in Hz by lia.
      change (2 ^ (53 - 1)) with 4503599627370496 in Bl.
      change (2 ^ 53) with 9007199254740992 in *. nia. }
    assert (G1 : Zpos m = Z.abs z * 2 ^ j * 2 ^ (k - e)).
    { rewrite Hm, <- Z.mul_assoc, <- Z.pow_add_r by lia. do 2 f_equal. lia. }
    assert (G2 : Z.abs z * 2 ^ j = Z.abs (z * 2 ^ j)).
    { rewrite Z.abs_mul, (Z.abs_eq (2 ^ j)); lia. }
    assert (G3 : s = (z * 2 ^ j <? 0)).
    { rewrite Hs. destruct (Z.ltb_spec z 0), (Z.ltb_spec (z * 2 ^ j) 0); trivial; nia. }
    apply (repr_finite_intro _ m e (Z.abs z * 2 ^ j)); trivial.
Qed.

Lemma repr_compare x y a b k :
  repr x a k -> repr y b k -> SFcompare x y = Some (a ?= b).
Proof.
  intros Hx Hy.
  destruct x as [sx | sx | | sx mx ex]; try contradiction;
  destruct y as [sy | sy | | sy my ey]; try contradiction.
  - cbn [repr] in *. subst. reflexivity.
  - cbn [repr] in Hx. subst. apply repr_finite_inv in Hy.
    destruct Hy as (_ & _ & _ & _ & Hb & Hs & _). cbn [SFcompare]. rewrite Hs. f_equal.
    destruct (Z.ltb_spec b 0); symmetry; [apply Z.compare_gt_iff | apply Z.compare_lt_iff]; lia.
  - cbn [repr] in Hy. subst. apply repr_finite_inv in Hx.
    destruct Hx as (_ & _ & _ & _ & Ha & Hs & _). cbn [SFcompare]. rewrite Hs. f_equal.
    destruct (Z.ltb_spec a 0); symmetry; [apply Z.compare_lt_iff | apply Z.compare_gt_iff]; lia.
  - apply repr_finite_inv in Hx, Hy.
    destruct Hx as (Hdx & Hex & Hkx & Hmx & Hax & Hsx & Hcx & Hlx).
    destruct Hy as (Hdy & Hey & Hky & Hmy & Hby & Hsy & Hcy & Hly).
    pose proof (dg_bounds mx) as [Blx Bux]. rewrite Hdx in Blx, Bux.
    pose proof (dg_bounds my) as [Bly Buy]. rewrite Hdy in Bly, Buy.
    change (2 ^ (53 - 1)) with 4503599627370496 in *.
    change (2 ^ 53) with 9007199254740992 in *.
    pose proof (pow2_pos (k - ex) ltac:(lia)) as HPx.
    pose proof (pow2_pos (k - ey) ltac:(lia)) as HPy.
    (* the order of the magnitudes *)
    assert (Hmag : match ex ?= ey with
                   | Lt => Lt | Gt => Gt | Eq => Pos.compare_cont Eq mx my
                   end = (Z.abs a ?= Z.abs b)).
    { destruct (Z.compare_spec ex ey) as [Heq | Hlt | Hgt].
      - subst ey. change (Pos.compare_cont Eq mx my) with (Zpos mx ?= Zpos my).
        rewrite Hmx, Hmy.
        destruct (Z.compare_spec (Z.abs a) (Z.abs b));
          [apply Z.compare_eq_iff | apply Z.compare_lt_iff | apply Z.compare_gt_iff]; nia.
      - symmetry. apply Z.compare_lt_iff.
        assert (E2 : 2 ^ (k - ex) = 2 ^ (k - ey) * 2 ^ (ey - ex))
          by (rewrite <- Z.pow_add_r by lia; f_equal; lia).
        assert (2 <= 2 ^ (ey - ex)).
        { change 2 with (2 ^ 1) at 1. apply Z.pow_le_mono_r; lia. }
        nia.
      - symmetry. apply Z.compare_gt_iff.
        assert (E2 : 2 ^ (k - ey) = 2 ^ (k - ex) * 2 ^ (ex - ey))
          by (rewrite <- Z.pow_add_r by lia; f_equal; lia).
        assert (2 <= 2 ^ (ex - ey)).
        { change 2 with (2 ^ 1) at 1. apply Z.pow_le_mono_r; lia. }
        nia. }
    cbn [SFcompare]. f_equal. rewrite Hsx, Hsy.
    destruct (Z.ltb_spec a 0), (Z.ltb_spec b 0); cbv iota.
    + transitivity (CompOpp (Z.abs a ?= Z.abs b));
        [rewrite <- Hmag; destruct (ex ?= ey); reflexivity|].
      rewrite !Z.abs_neq by lia.
      destruct (Z.compare_spec (- a) (- b)); cbn [CompOpp]; symmetry;
        [apply Z.compare_eq_iff | apply Z.compare_gt_iff | apply Z.compare_lt_iff]; lia.
    + symmetry. apply Z.compare_lt_iff. lia.
    + symmetry. apply Z.compare_gt_iff. lia.
    + rewrite Hmag. rewrite !Z.abs_eq by lia. reflexivity.
Qed.

(** ** Rounding of an arbitrary mantissa *)

Lemma shr_1_m mrs : 0 <= shr_m mrs -> shr_m (shr_1 mrs) = shr_m mrs / 2.
Proof.
  destruct mrs as [m r s]. cbn [shr_m]. intros Hm.
  destruct m as [| [p | p |] | p]; cbn [shr_1 shr_m]; try lia;
    try reflexivity.
  - rewrite (Pos2Z.inj_xI p). apply (Z.div_unique _ 2 _ 1); lia.
  - rewrite (Pos2Z.inj_xO p). apply (Z.div_unique _ 2 _ 0); lia.
Qed.

Lemma shr_m_iter p mrs :
  0 <= shr_m mrs ->
  shr_m (iter_pos shr_1 p mrs) = shr_m mrs / 2 ^ Zpos p.
Proof.
  intros Hm. rewrite iter_pos_eq.
  induction p as [| p IH] using Pos.peano_ind.
  - cbn [Pos.iter]. rewrite shr_1_m by trivial. reflexivity.
  - rewrite Pos.iter_succ, shr_1_m, IH, Pos2Z.inj_succ, Z.pow_succ_r by
      (try rewrite IH; try apply Z.div_pos; try apply pow2_pos; lia).
    rewrite Z.div_div by (try apply pow2_pos; lia).
    f_equal. lia.
Qed.

Lemma shr_m_of_loc m l : shr_m (shr_record_of_loc m l) = m.
Proof. destruct l as [| [| |]]; reflexivity. Qed.

Lemma shr_fexp_m m e l :
  53 <= dg m -> -1074 <= e + dg m - 53 ->
  exists mrs,
    shr_fexp prec emax (Zpos m) e l = (mrs, e + (dg m - 53)) /\
    shr_m mrs = Zpos m / 2 ^ (dg m - 53).
Proof.
  intros Hd He. unfold shr_fexp. cbn [Zdigits2]. fold (dg m).
  rewrite fexp_normal by lia.
  replace (dg m + e - 53 - e) with (dg m - 53) by lia.
  destruct (dg m - 53) as [| p | p] eqn:En; try lia; cbn [shr].
  - eexists. split; [f_equal; lia|].
    rewrite shr_m_of_loc, Z.pow_0_r, Z.div_1_r. reflexivity.
  - eexists. split; [reflexivity|].
    rewrite shr_m_iter; rewrite shr_m_of_loc; lia.
Qed.

Lemma round_nearest_even_bounds q l :
  q <= round_nearest_even q l <= q + 1.
Proof.
  destruct l as [| [| |]]; cbn [round_nearest_even];
    try destruct (Z.even q); lia.
Qed.

(** The quotient of a mantissa by [2^(digits - 53)] has 53 digits. *)
Lemma truncated_mantissa_bounds m :
  53 <= dg m ->
  2 ^ 52 <= Zpos m / 2 ^ (dg m - 53) < 2 ^ 53.
Proof.
  intros Hd. pose proof (dg_bounds m) as [Bl Bu].
  pose proof (pow2_pos (dg m - 53) ltac:(lia)) as HP.
  assert (E1 : 2 ^ (dg m - 1) = 2 ^ 52 * 2 ^ (dg m - 53))
    by (rewrite <- Z.pow_add_r by lia; f_equal; lia).
  assert (E2 : 2 ^ dg m = 2 ^ 53 * 2 ^ (dg m - 53))
    by (rewrite <- Z.pow_add_r by lia; f_equal; lia).
  rewrite E1 in Bl. rewrite E2 in Bu.
  split.
  - apply Z.div_le_lower_bound; lia.
  - apply Z.div_lt_upper_bound; lia.
Qed.

(** [binary_round_aux] on an exact mantissa of at least 53 digits: the
    result is the truncated mantissa or its successor, renormalised after a
    carry, and an infinity when the exponent is out of range. *)
Lemma bra_general s m e :
  53 <= dg m -> -1074 <= e + dg m - 53 ->
  exists M E,
    dg M = 53 /\
    (E = e + (dg m - 53) /\
     Zpos m / 2 ^ (dg m - 53) <= Zpos M <= Zpos m / 2 ^ (dg m - 53) + 1
     \/ E = e + (dg m - 53) + 1 /\ Zpos M = 2 ^ 52 /\
        Zpos m / 2 ^ (dg m - 53) + 1 = 2 ^ 53) /\
    binary_round_aux prec emax s (Zpos m) e loc_Exact
      = if E <=? 971 then S754_finite s M E else S754_infinity s.
Proof.
  intros Hd He. unfold binary_round_aux.
  destruct (shr_fexp_m m e loc_Exact Hd He) as (mrs & Hshr & Hq).
  rewrite Hshr. pose proof (truncated_mantissa_bounds m Hd) as Hb.
  set (n := dg m - 53) in *. set (q := Zpos m / 2 ^ n) in *.
  pose proof (round_nearest_even_bounds (shr_m mrs) (loc_of_shr_record mrs)) as HR.
  rewrite Hq in *. set (R := round_nearest_even q (loc_of_shr_record mrs)) in *.
  change (2 ^ 52) with 4503599627370496 in *.
  change (2 ^ 53) with 9007199254740992 in *.
  destruct R as [| r | r] eqn:ER; try lia.
  destruct (Z.eq_dec (Zpos r) 9007199254740992) as [Hc | Hc].
  - (* carry *)
    injection Hc as ->.
    rewrite (shr_fexp_exact 9007199254740992 4503599627370496 1 (e + n))
      by (try reflexivity; lia).
    exists 4503599627370496%positive, (e + n + 1). cbn [shr_m].
    split; [reflexivity|].
    split; [right; split; [reflexivity | split; [reflexivity | lia]]|].
    reflexivity.
  - assert (Hdr : dg r = 53).
    { apply dg_unique. change (2 ^ (53 - 1)) with 4503599627370496.
      change (2 ^ 53) with 9007199254740992. lia. }
    rewrite (shr_fexp_exact r r 0 (e + n)) by (trivial; lia).
    exists r, (e + n). cbn [shr_m]. rewrite Z.add_0_r.
    split; [trivial|]. split; [left; split; [reflexivity | lia]|]. reflexivity.
Qed.

(** * Python operations on exactly represented values *)

Lemma overflow_check_repr x z k : repr x z k -> overflow_check x = Ok x.
Proof. destruct x; cbn; trivial; contradiction. Qed.

Lemma float_of_int_exact z :
  Z.abs z < 2 ^ 53 -> exists x, float_of_int z = Ok x /\ repr x z 0.
Proof.
  intros H. exists (dyadic z 0).
  pose proof (repr_dyadic z 0 H ltac:(lia)) as R.
  split; trivial. unfold float_of_int. exact (overflow_check_repr _ _ _ R).
Qed.

Lemma int_truediv_8_exact h c K :
  h = c * 2 ^ K -> 0 <= K <= 3 -> Z.abs c < 2 ^ 53 ->
  exists x, int_truediv h 8 = Ok x /\ repr x c (K - 3).
Proof.
  intros Hh HK Hc. unfold int_truediv. cbn [Z.eqb].
  pose proof (pow2_pos K ltac:(lia)) as HP.
  assert (HP8 : 2 ^ K <= 8) by (change 8 with (2 ^ 3); apply Z.pow_le_mono_r; lia).
  destruct h as [| p | p]; cbn [exact_int].
  - exists (S754_zero false). split; [reflexivity|]. cbn [repr]. nia.
  - assert (0 < c) by nia.
    assert (Hd : dg p <= 3 + 53).
    { apply dg_le. rewrite Hh. change (2 ^ (3 + 53)) with (9007199254740992 * 8).
      change (2 ^ 53) with 9007199254740992 in Hc. nia. }
    destruct (SFdiv_pow2 false p 0 false 8 0 3 c K)
      as (M & E & HR & HdM & HE & HEK & HM); trivial; try lia.
    rewrite HR. exists (S754_finite false M E). split; [reflexivity|].
    apply (repr_finite_intro _ M E c); trivial; try lia.
    rewrite HM. do 2 f_equal. lia.
  - assert (c < 0) by nia.
    assert (Hd : dg p <= 3 + 53).
    { apply dg_le. change (2 ^ (3 + 53)) with (9007199254740992 * 8).
      change (2 ^ 53) with 9007199254740992 in Hc. nia. }
    destruct (SFdiv_pow2 true p 0 false 8 0 3 (- c) K)
      as (M & E & HR & HdM & HE & HEK & HM); trivial; try lia.
    rewrite HR. exists (S754_finite true M E). split; [reflexivity|].
    apply (repr_finite_intro _ M E (- c)); trivial; try lia.
    rewrite HM. do 2 f_equal. lia.
Qed.

Lemma mul_exact a b z1 k1 z2 k2 :
  exactly a z1 k1 -> exactly b z2 k2 -> Z.abs (z1 * z2) < 2 ^ 53 ->
  -1000 <= k1 + k2 <= 900 ->
  exists r, mul a b = Ok r /\ exactly r (z1 * z2) (k1 + k2).
Proof.
  intros (x & -> & Hx) (y & -> & Hy) Hz Hk.
  exists (Float (SFmul prec emax x y)). split; [reflexivity|].
  eexists; split; [reflexivity|]. apply repr_mul; trivial.
Qed.

Lemma mul_int_exact a z k c :
  exactly a z k -> Z.abs c < 2 ^ 53 -> Z.abs (z * c) < 2 ^ 53 ->
  -1000 <= k <= 900 ->
  exists r, mul a (Int c) = Ok r /\ exactly r (z * c) k.
Proof.
  intros (x & -> & Hx) Hc Hz Hk.
  destruct (float_of_int_exact c Hc) as (y & Hy & Ry).
  exists (Float (SFmul prec emax x y)). split.
  - cbn [mul to_float bind]. rewrite Hy. reflexivity.
  - eexists; split; [reflexivity|]. replace k with (k + 0) by lia.
    apply repr_mul; trivial; lia.
Qed.

Lemma add_exact a b z1 z2 k :
  exactly a z1 k -> exactly b z2 k -> Z.abs (z1 + z2) < 2 ^ 53 ->
  -900 <= k <= 900 ->
  exists r, add a b = Ok r /\ exactly r (z1 + z2) k.
Proof.
  intros (x & -> & Hx) (y & -> & Hy) Hz Hk.
  exists (Float (SFadd prec emax x y)). split; [reflexivity|].
  eexists; split; [reflexivity|]. apply repr_add; trivial.
Qed.

Lemma add_int_exact c b z :
  exactly b z 0 -> Z.abs c < 2 ^ 53 -> Z.abs (c + z) < 2 ^ 53 ->
  exists r, add (Int c) b = Ok r /\ exactly r (c + z) 0.
Proof.
  intros (y & -> & Hy) Hc Hz.
  destruct (float_of_int_exact c Hc) as (x & Hx & Rx).
  exists (Float (SFadd prec emax x y)). split.
  - cbn [add to_float bind]. rewrite Hx. reflexivity.
  - eexists; split; [reflexivity|]. apply repr_add; trivial; lia.
Qed.

Lemma sub_exact a b z1 z2 k :
  exactly a z1 k -> exactly b z2 k -> Z.abs (z1 - z2) < 2 ^ 53 ->
  -900 <= k <= 900 ->
  exists r, sub a b = Ok r /\ exactly r (z1 - z2) k.
Proof.
  intros (x & -> & Hx) (y & -> & Hy) Hz Hk.
  exists (Float (SFsub prec emax x y)). split; [reflexivity|].
  eexists; split; [reflexivity|]. apply repr_sub; trivial.
Qed.

Lemma repr_div_2p30 x z k :
  repr x z k -> -900 <= k <= 900 ->
  repr (SFdiv prec emax x (S754_finite false 4503599627370496 (-22))) z (k - 30).
Proof.
  intros Hx Hk. destruct x as [s | s | | s m e]; try contradiction.
  - exact Hx.
  - apply repr_finite_inv in Hx.
    destruct Hx as (Hd & He & Hke & Hm & Hz & Hs & Hc & Hl).
    destruct (SFdiv_pow2 s m e false 4503599627370496 (-22) 52 (Z.abs z) (k - e))
      as (M & E & HR & HdM & HE & HEK & HM); trivial; try lia.
    rewrite HR, xorb_false_r.
    apply (repr_finite_intro _ M E (Z.abs z)); trivial; try lia.
    rewrite HM. do 2 f_equal. lia.
Qed.

Lemma bytes_to_gb_exact a z :
  exactly a z 0 -> exists r, bytes_to_gb a = Ok r /\ exactly r z (-30).
Proof.
  intros (x & -> & Hx).
  exists (Float (SFdiv prec emax x (S754_finite false 4503599627370496 (-22)))).
  split; [reflexivity|].
  eexists; split; [reflexivity|]. apply (repr_div_2p30 x z 0); trivial; lia.
Qed.

Lemma bytes_to_gb_int_exact z :
  Z.abs z < 2 ^ 53 -> exists r, bytes_to_gb (Int z) = Ok r /\ exactly r z (-30).
Proof.
  intros Hz. unfold bytes_to_gb, truediv, int_truediv.
  change (1024 ^ 3 =? 0) with false. cbv iota.
  change (exact_int (1024 ^ 3)) with (S754_finite false 1073741824 0).
  destruct z as [| p | p]; cbn [exact_int].
  - exists (Float (S754_zero false)). split; [reflexivity|].
    eexists; split; [reflexivity|]. reflexivity.
  - assert (Hd : dg p <= 30 + 53).
    { apply dg_le. change (2 ^ (30 + 53)) with (9007199254740992 * 1073741824).
      change (2 ^ 53) with 9007199254740992 in Hz. lia. }
    destruct (SFdiv_pow2 false p 0 false 1073741824 0 30 (Zpos p) 0)
      as (M & E & HR & HdM & HE & HEK & HM); trivial; try lia.
    rewrite HR. cbn [xorb overflow_check bind].
    eexists; split; [reflexivity|]. eexists; split; [reflexivity|].
    apply (repr_finite_intro _ M E (Zpos p)); trivial; lia.
  - assert (Hd : dg p <= 30 + 53).
    { apply dg_le. change (2 ^ (30 + 53)) with (9007199254740992 * 1073741824).
      change (2 ^ 53) with 9007199254740992 in Hz. lia. }
    destruct (SFdiv_pow2 true p 0 false 1073741824 0 30 (Zpos p) 0)
      as (M & E & HR & HdM & HE & HEK & HM); trivial; try lia.
    rewrite HR. cbn [xorb overflow_check bind].
    eexists; split; [reflexivity|]. eexists; split; [reflexivity|].
    apply (repr_finite_intro _ M E (Zpos p)); trivial; lia.
Qed.

Lemma mod_abs_zero z D : 0 < D -> (Z.abs z mod D = 0 <-> z mod D = 0).
Proof.
  intros HD. rewrite !Z.mod_divide by lia. apply Z.divide_abs_r.
Qed.

(** [int(x)] and the comparison [x != int(x)] on an exact [z * 2^k],
    [k <= 0]: the test is true exactly when [2^-k] does not divide [z]. *)
Lemma integral_check x z k :
  repr x z k -> k <= 0 ->
  exists i, int (Float x) = Ok i /\
            ne (Float x) (Int i) = negb (z mod 2 ^ (- k) =? 0).
Proof.
  intros Hx Hk. destruct x as [s | s | | s m e]; try contradiction.
  - cbn [repr] in Hx. subst. exists 0. split; [reflexivity|].
    rewrite Z.mod_0_l by (pose proof (pow2_pos (- k) ltac:(lia)); lia).
    reflexivity.
  - apply repr_finite_inv in Hx.
    destruct Hx as (Hd & He & Hke & Hm & Hz & Hs & Hc & Hl).
    cbn [int int_of_float]. eexists; split; [reflexivity|].
    unfold ne, eq. cbn [compare compare_float_int].
    destruct (Z.leb_spec 0 e) as [Hpos | Hneg].
    + assert (e = 0) by lia. assert (k = 0) by lia. subst e k.
      rewrite Z.compare_refl. cbn [negb]. change (2 ^ (- 0)) with 1.
      rewrite Z.mod_1_r. reflexivity.
    + set (D := 2 ^ (- k)). set (R := 2 ^ (k - e)).
      pose proof (pow2_pos (- k) ltac:(lia)) as HD. fold D in HD.
      pose proof (pow2_pos (k - e) ltac:(lia)) as HR. fold R in HR.
      assert (HP : 2 ^ (- e) = D * R).
      { unfold D, R. rewrite <- Z.pow_add_r by lia. f_equal. lia. }
      rewrite Z.shiftr_div_pow2, Z.shiftl_mul_pow2 by lia. rewrite HP.
      fold R in Hm. rewrite Hm.
      rewrite (Z.div_mul_cancel_r (Z.abs z) D R) by lia.
      pose proof (mod_abs_zero z D HD) as Hiff.
      pose proof (Z.div_mod (Z.abs z) D ltac:(lia)) as Hdm.
      pose proof (Z.mod_pos_bound (Z.abs z) D HD) as Hb.
      destruct (Z.eqb_spec (z mod D) 0) as [Hz0 | Hz0]; cbn [negb].
      * apply Hiff in Hz0.
        replace (cond_Zopp s (Z.abs z / D) * (D * R))
          with (cond_Zopp s (Z.abs z * R)).
        { rewrite Z.compare_refl. reflexivity. }
        destruct s; cbn [cond_Zopp]; nia.
      * assert (Hn : Z.abs z mod D <> 0) by (intros Hq; apply Hz0, Hiff, Hq).
        destruct (Z.compare_spec (cond_Zopp s (Z.abs z * R))
                    (cond_Zopp s (Z.abs z / D) * (D * R))) as [Heq | |];
          trivial.
        exfalso. destruct s; cbn [cond_Zopp] in Heq; nia.
Qed.

Lemma compare_exact a b z1 z2 k :
  exactly a z1 k -> exactly b z2 k -> compare a b = Some (z1 ?= z2).
Proof.
  intros (x & -> & Hx) (y & -> & Hy). exact (repr_compare x y z1 z2 k Hx Hy).
Qed.

Lemma lt_exact a b z1 z2 k :
  exactly a z1 k -> exactly b z2 k -> lt a b = (z1 <? z2).
Proof.
  intros Ha Hb. unfold lt. rewrite (compare_exact a b z1 z2 k Ha Hb).
  unfold Z.ltb. destruct (z1 ?= z2); reflexivity.
Qed.

(** * The estimator where every byte count is below [2^53] *)

Lemma exactly_scale_down a z j k :
  0 <= j -> exactly a (z * 2 ^ j) k -> exactly a z (k + j).
Proof.
  intros Hj (x & -> & Hx). exists x. split; trivial. apply repr_scale_down; trivial.
Qed.

Lemma exactly_scale_up a z j k :
  0 <= j -> Z.abs (z * 2 ^ j) < 2 ^ 53 -> exactly a z (k + j) ->
  exactly a (z * 2 ^ j) k.
Proof.
  intros Hj Hz (x & -> & Hx). exists x. split; trivial. apply repr_scale_up; trivial.
Qed.

Lemma exactly_dyadic z k :
  Z.abs z < 2 ^ 53 -> -900 <= k <= 900 -> exactly (Float (dyadic z k)) z k.
Proof. intros Hz Hk. eexists; split; [reflexivity|]. apply repr_dyadic; trivial. Qed.

(** [h / 8] followed by the test of line 45, for a multiple of 8. *)
Lemma latent_of_multiple h a :
  h = 8 * a -> Z.abs a < 2 ^ 53 ->
  exists x i, truediv (Int h) (Int 8) = Ok (Float x) /\ repr x a 0 /\
              int (Float x) = Ok i /\ ne (Float x) (Int i) = false.
Proof.
  intros Hh Ha.
  destruct (int_truediv_8_exact h a 3) as (x & Hx & Rx); trivial; try lia.
  change (3 - 3) with 0 in Rx.
  destruct (integral_check x a 0 Rx ltac:(lia)) as (i & Hi & Hne).
  exists x, i. cbn [truediv]. rewrite Hx. cbn [bind]. repeat split; trivial.
  rewrite Hne. change (2 ^ (- 0)) with 1. rewrite Z.mod_1_r. reflexivity.
Qed.

(** [h / 8] followed by the test of line 45, for any [|h| < 2^53]. *)
Lemma latent_of_small h :
  Z.abs h < 2 ^ 53 ->
  exists x i, truediv (Int h) (Int 8) = Ok (Float x) /\ repr x h (-3) /\
              int (Float x) = Ok i /\
              ne (Float x) (Int i) = negb (h mod 8 =? 0).
Proof.
  intros Hh.
  destruct (int_truediv_8_exact h h 0) as (x & Hx & Rx); trivial; try lia.
  change (0 - 3) with (-3) in Rx.
  destruct (integral_check x h (-3) Rx ltac:(lia)) as (i & Hi & Hne).
  exists x, i. cbn [truediv]. rewrite Hx. cbn [bind]. repeat split; trivial.
Qed.

Lemma f_estimate_locals_exact h w pl opt a b :
  h = 8 * a -> w = 8 * b -> Z.abs a < 2 ^ 53 -> Z.abs b < 2 ^ 53 ->
  Z.abs (a * b) * 25008
    + Z.abs (C_WEIGHTS_BYTES + C_OVERHEAD_BYTES + C_L_FACTOR * pl) < 2 ^ 53 ->
  exists l,
    f_estimate_locals h w pl opt = Ok (Some l) /\
    mode_str l = attention_mode_of opt /\
    exactly (latent_h l) a 0 /\ exactly (latent_w l) b 0 /\
    exactly (N_latent_pixels l) (a * b) 0 /\
    exactly (M_peak_bytes l) (total_bytes a b pl opt) 0.
Proof.
  intros Hh Hw Ha Hb Hrange.
  set (N := a * b) in *. set (A := C_WEIGHTS_BYTES + C_OVERHEAD_BYTES + C_L_FACTOR * pl) in *.
  change (2 ^ 53) with 9007199254740992 in Ha, Hb, Hrange.
  destruct (latent_of_multiple h a Hh Ha) as (lh & ih & Hlh & Rlh & Hih & Hnh).
  destruct (latent_of_multiple w b Hw Hb) as (lw & iw & Hlw & Rlw & Hiw & Hnw).
  assert (Elh : exactly (Float lh) a 0) by (eexists; eauto).
  assert (Elw : exactly (Float lw) b 0) by (eexists; eauto).
  destruct (mul_exact (Float lh) (Float lw) a 0 b 0 Elh Elw) as (Np & HNp & ENp);
    try (change (2 ^ 53) with 9007199254740992; fold N; lia).
  fold N in ENp. change (0 + 0) with 0 in ENp.
  destruct (mul_int_exact Np N 0 4 ENp) as (N4 & HN4 & EN4);
    try (change (2 ^ 53) with 9007199254740992; lia).
  destruct (mul_int_exact N4 (N * 4) 0 2 EN4) as (Mb & HMb & EMb);
    try (change (2 ^ 53) with 9007199254740992; lia).
  destruct (mul_int_exact Np N 0 K_ITER_BASE ENp) as (Mu & HMu & EMu);
    try (change (2 ^ 53) with 9007199254740992; unfold K_ITER_BASE; lia).
  unfold K_ITER_BASE in EMu.
  assert (Hadj : exists Ma,
             mul Mu (if opt then Float one else Float K_ATTN_STANDARD_MULTIPLIER)
               = Ok Ma /\
             exactly Ma (N * (if opt then 20000 else 25000)) 0).
  { destruct opt.
    - destruct (mul_exact Mu (Float one) (N * 20000) 0 1 0 EMu) as (Ma & HMa & EMa);
        try (change (2 ^ 53) with 9007199254740992; lia).
      { apply exactly_dyadic; change (2 ^ 53) with 9007199254740992; lia. }
      exists Ma. split; trivial.
      replace (N * 20000) with (N * 20000 * 1) at 1 by lia. exact EMa.
    - assert (E5 : exactly Mu (N * 625) (0 + 5)).
      { apply exactly_scale_down; [lia|].
        replace (N * 625 * 2 ^ 5) with (N * 20000) by (change (2 ^ 5) with 32; lia).
        exact EMu. }
      destruct (mul_exact Mu (Float K_ATTN_STANDARD_MULTIPLIER) (N * 625) (0 + 5) 5 (-2) E5)
        as (Ma & HMa & EMa);
        try (change (2 ^ 53) with 9007199254740992; lia).
      { apply exactly_dyadic; change (2 ^ 53) with 9007199254740992; lia. }
      exists Ma. split; trivial.
      replace (N * 25000) with (N * 625 * 5 * 2 ^ 3) by (change (2 ^ 3) with 8; lia).
      apply exactly_scale_up; [lia| |exact EMa].
      change (2 ^ 3) with 8. change (2 ^ 53) with 9007199254740992. lia. }
  destruct Hadj as (Ma & HMa & EMa).
  destruct (add_exact Ma Mb _ _ 0 EMa EMb) as (Mp & HMp & EMp);
    try (change (2 ^ 53) with 9007199254740992; destruct opt; lia).
  destruct (add_int_exact A Mp _ EMp) as (Mt & HMt & EMt);
    try (change (2 ^ 53) with 9007199254740992; destruct opt; lia).
  unfold f_estimate_locals.
  change (add (Int C_WEIGHTS_BYTES) (Int C_OVERHEAD_BYTES))
    with (Ok (Int (C_WEIGHTS_BYTES + C_OVERHEAD_BYTES))).
  change (mul (Int C_L_FACTOR) (Int pl)) with (Ok (Int (C_L_FACTOR * pl))).
  cbn [bind]. rewrite Hlh. cbn [bind]. rewrite Hlw. cbn [bind].
  rewrite Hih. cbn [bind]. rewrite Hnh. rewrite Hiw. cbn [bind]. rewrite Hnw.
  rewrite HNp. cbn [bind]. rewrite HN4. cbn [bind]. rewrite HMb. cbn [bind].
  rewrite HMu. cbn [bind]. rewrite HMa. cbn [bind]. rewrite HMp. cbn [bind].
  change (add (Int (C_WEIGHTS_BYTES + C_OVERHEAD_BYTES)) (Int (C_L_FACTOR * pl)))
    with (Ok (Int A)).
  cbn [bind]. rewrite HMt. cbn [bind].
  eexists. split; [reflexivity|]. cbn [mode_str latent_h latent_w N_latent_pixels M_peak_bytes].
  repeat split; trivial.
  replace (total_bytes a b pl opt)
    with (A + (N * (if opt then 20000 else 25000) + N * 4 * 2)); trivial.
  unfold total_bytes, A, N. destruct opt; lia.
Qed.

Theorem f_estimate_exact h w pl opt a b :
  h = 8 * a -> w = 8 * b -> Z.abs a < 2 ^ 53 -> Z.abs b < 2 ^ 53 ->
  Z.abs (a * b) * 25008
    + Z.abs (C_WEIGHTS_BYTES + C_OVERHEAD_BYTES + C_L_FACTOR * pl) < 2 ^ 53 ->
  exists g,
    f_estimate h w pl opt = Ok (g, attention_mode_of opt) /\
    exactly g (total_bytes a b pl opt) (-30).
Proof.
  intros Hh Hw Ha Hb Hrange.
  destruct (f_estimate_locals_exact h w pl opt a b Hh Hw Ha Hb Hrange)
    as (l & Hl & Hmode & _ & _ & _ & Et).
  destruct (bytes_to_gb_exact _ _ Et) as (g & Hg & Eg).
  exists g. unfold f_estimate. rewrite Hl. cbn [bind]. rewrite Hg. cbn [bind].
  rewrite Hmode. split; trivial.
Qed.

(** Below [2^53] the test of line 45 rejects exactly the dimensions that are
    not multiples of 8. *)
Theorem f_estimate_sentinel h w pl opt :
  Z.abs h < 2 ^ 53 -> Z.abs w < 2 ^ 53 ->
  h mod 8 <> 0 \/ w mod 8 <> 0 ->
  f_estimate h w pl opt = Ok (Float minus_one, multiple_of_8_message).
Proof.
  intros Hh Hw Hnot.
  destruct (latent_of_small h Hh) as (lh & ih & Hlh & Rlh & Hih & Hnh).
  destruct (latent_of_small w Hw) as (lw & iw & Hlw & Rlw & Hiw & Hnw).
  unfold f_estimate, f_estimate_locals.
  change (add (Int C_WEIGHTS_BYTES) (Int C_OVERHEAD_BYTES))
    with (Ok (Int (C_WEIGHTS_BYTES + C_OVERHEAD_BYTES))).
  change (mul (Int C_L_FACTOR) (Int pl)) with (Ok (Int (C_L_FACTOR * pl))).
  cbn [bind]. rewrite Hlh. cbn [bind]. rewrite Hlw. cbn [bind].
  rewrite Hih. cbn [bind]. rewrite Hnh.
  destruct (Z.eqb_spec (h mod 8) 0) as [Hh0 | Hh0]; cbn [negb]; [|reflexivity].
  rewrite Hiw. cbn [bind]. rewrite Hnw.
  destruct (Z.eqb_spec (w mod 8) 0) as [Hw0 | Hw0]; cbn [negb]; [|reflexivity].
  exfalso. destruct Hnot; contradiction.
Qed.

(** Valid inputs with at most [2^38] latent pixels ([height * width <= 2^44])
    keep every byte count below [2^53]. *)
Lemma valid_input_exact h w pl :
  valid_input h w pl -> h * w <= 2 ^ 44 ->
  exists a b,
    h = 8 * a /\ w = 8 * b /\ 0 < a /\ 0 < b /\
    Z.abs a < 2 ^ 53 /\ Z.abs b < 2 ^ 53 /\
    Z.abs (a * b) * 25008
      + Z.abs (C_WEIGHTS_BYTES + C_OVERHEAD_BYTES + C_L_FACTOR * pl) < 2 ^ 53.
Proof.
  intros ((Hh & Hh8) & (Hw & Hw8) & Hpl) Hhw.
  exists (h / 8), (w / 8).
  pose proof (Z_div_exact_2 h 8 ltac:(lia) Hh8) as Eh.
  pose proof (Z_div_exact_2 w 8 ltac:(lia) Hw8) as Ew.
  unfold C_WEIGHTS_BYTES, C_OVERHEAD_BYTES, C_L_FACTOR.
  change (2 ^ 44) with 17592186044416 in Hhw.
  change (2 ^ 53) with 9007199254740992.
  set (a := h / 8) in *. set (b := w / 8) in *. clearbody a b.
  assert (0 < a) by lia. assert (0 < b) by lia.
  assert (a * b <= 274877906944) by nia.
  assert (a <= a * b) by nia. assert (b <= a * b) by nia.
  repeat split; try lia.
Qed.

Lemma fixed_cost_gb_exact :
  exists fx, fixed_cost_gb = Ok fx /\ exactly fx 2632400000 (-30).
Proof.
  apply (bytes_to_gb_int_exact 2632400000).
  change (2 ^ 53) with 9007199254740992. lia.
Qed.

(** * Rounding to two decimals *)

Lemma div_nearest_even_bounds n d :
  0 <= n -> 0 < d ->
  2 * n - d <= 2 * d * div_nearest_even n d <= 2 * n + d.
Proof.
  intros Hn Hd. unfold div_nearest_even.
  pose proof (Z.div_mod n d ltac:(lia)) as E.
  pose proof (Z.mod_pos_bound n d Hd) as B.
  set (q := n / d) in *. set (r := n mod d) in *. clearbody q r.
  destruct (Z.compare_spec (2 * r) d); [destruct (Z.even q)| |]; nia.
Qed.

Lemma div_nearest_even_scale n d c :
  0 < d -> 0 < c -> div_nearest_even (n * c) (d * c) = div_nearest_even n d.
Proof.
  intros Hd Hc. unfold div_nearest_even.
  rewrite Z.div_mul_cancel_r, Z.mul_mod_distr_r by lia.
  replace (2 * (n mod d * c) ?= d * c) with (2 * (n mod d) ?= d); trivial.
  destruct (Z.compare_spec (2 * (n mod d)) d); symmetry;
    [apply Z.compare_eq_iff | apply Z.compare_lt_iff | apply Z.compare_gt_iff]; nia.
Qed.

Lemma div_nearest_even_1 n : div_nearest_even n 1 = n.
Proof.
  unfold div_nearest_even. rewrite Z.div_1_r, Z.mod_1_r. reflexivity.
Qed.

(** The hundredths of an exact non-negative [z * 2^k], [k <= 0]. *)
Lemma hundredths_exact a z k :
  exactly a z k -> k <= 0 -> 0 <= z ->
  hundredths a = div_nearest_even (100 * z) (2 ^ (- k)).
Proof.
  intros (x & -> & Hx) Hk Hz. pose proof (pow2_pos (- k) ltac:(lia)) as HD.
  destruct x as [s | s | | s m e]; try contradiction.
  - cbn [repr] in Hx. subst. cbn [hundredths scaled_digits cond_Zopp].
    change (100 * 0) with 0. unfold div_nearest_even.
    rewrite Z.div_0_l, Z.mod_0_l by lia. change (2 * 0) with 0.
    destruct (Z.compare_spec 0 (2 ^ (- k))); lia.
  - apply repr_finite_inv in Hx.
    destruct Hx as (Hd & He & Hke & Hm & Hz0 & Hs & Hc & Hl).
    assert (Hsf : (z <? 0) = false) by (apply Z.ltb_ge; lia).
    rewrite Hsf in Hs. subst s.
    rewrite Z.abs_eq in Hm by lia.
    cbn [hundredths scaled_digits cond_Zopp]. change (10 ^ 2) with 100.
    pose proof (pow2_pos (k - e) ltac:(lia)) as HR.
    destruct (Z.leb_spec 0 e).
    + assert (e = 0) by lia. assert (k = 0) by lia. subst e k.
      change (2 ^ (0 - 0)) with 1 in Hm. change (2 ^ (- 0)) with 1.
      rewrite Z.shiftl_0_r, div_nearest_even_1. lia.
    + replace (2 ^ (- e)) with (2 ^ (- k) * 2 ^ (k - e))
        by (rewrite <- Z.pow_add_r by lia; f_equal; lia).
      rewrite Hm.
      replace (z * 2 ^ (k - e) * 100) with (100 * z * 2 ^ (k - e)) by lia.
      apply div_nearest_even_scale; lia.
Qed.

(** [round(x, 2)] of a positive double is the double nearest to the decimal
    with the hundredths of [x], that is the value of the literal
    [c / 100]. *)
Lemma round_is_decimal m e :
  round (Float (S754_finite false m e)) 2
  = decimal2 (hundredths (Float (S754_finite false m e))).
Proof.
  cbn [hundredths cond_Zopp].
  unfold decimal2, round, round_float, truediv, int_truediv.
  change (100 =? 0) with false. cbv iota.
  assert (Hp : 0 <= scaled_digits 2 (S754_finite false m e)).
  { cbn [scaled_digits]. change (10 ^ 2) with 100.
    destruct (Z.leb_spec 0 e).
    - rewrite Z.shiftl_mul_pow2 by lia. pose proof (pow2_pos e ltac:(lia)). nia.
    - pose proof (pow2_pos (- e) ltac:(lia)) as HD.
      pose proof (div_nearest_even_bounds (Z.pos m * 100) (2 ^ (- e)) ltac:(lia) HD).
      nia. }
  destruct (scaled_digits 2 (S754_finite false m e)) as [| c | c]; try lia;
    reflexivity.
Qed.

Lemma round_exactly a z k :
  exactly a z k -> 0 < z -> round a 2 = decimal2 (hundredths a).
Proof.
  intros (x & -> & Hx) Hz.
  destruct x as [s | s | | s m e]; try contradiction.
  - cbn [repr] in Hx. lia.
  - apply repr_finite_inv in Hx.
    destruct Hx as (_ & _ & _ & _ & _ & Hs & _).
    assert (Hsf : (z <? 0) = false) by (apply Z.ltb_ge; lia).
    rewrite Hsf in Hs. subst s. apply round_is_decimal.
Qed.

Lemma div_nearest_even_mono n1 n2 d :
  0 <= n1 <= n2 -> 0 < d -> div_nearest_even n1 d <= div_nearest_even n2 d.
Proof.
  intros Hn Hd. unfold div_nearest_even.
  pose proof (Z.div_mod n1 d ltac:(lia)) as E1.
  pose proof (Z.div_mod n2 d ltac:(lia)) as E2.
  pose proof (Z.mod_pos_bound n1 d Hd) as B1.
  pose proof (Z.mod_pos_bound n2 d Hd) as B2.
  pose proof (Z.div_le_mono n1 n2 d Hd ltac:(lia)) as Hq.
  set (q1 := n1 / d) in *. set (r1 := n1 mod d) in *.
  set (q2 := n2 / d) in *. set (r2 := n2 mod d) in *.
  clearbody q1 r1 q2 r2.
  destruct (Z.eq_dec q1 q2) as [-> | Hne].
  - assert (r1 <= r2) by nia.
    destruct (Z.compare_spec (2 * r1) d), (Z.compare_spec (2 * r2) d);
      try destruct (Z.even q2); lia.
  - destruct (Z.compare_spec (2 * r1) d), (Z.compare_spec (2 * r2) d);
      try destruct (Z.even q1); try destruct (Z.even q2); lia.
Qed.


(** * The estimator beyond [2^53]: signs, order and overflow *)

Lemma dg_mul_lower mx my : dg mx = 53 -> dg my = 53 -> 105 <= dg (mx * my).
Proof.
  intros Hdx Hdy.
  pose proof (dg_bounds mx) as [Blx _]. pose proof (dg_bounds my) as [Bly _].
  pose proof (dg_bounds (mx * my)) as [_ Bu].
  rewrite Hdx in Blx. rewrite Hdy in Bly. rewrite Pos2Z.inj_mul in Bu.
  destruct (Z_le_gt_dec 105 (dg (mx * my))) as [|Hgt]; trivial. exfalso.
  pose proof (dg_pos (mx * my)).
  assert (2 ^ dg (mx * my) <= 2 ^ 104) by (apply Z.pow_le_mono_r; lia).
  change (2 ^ (53 - 1)) with 4503599627370496 in *.
  change (2 ^ 104) with (4503599627370496 * 4503599627370496) in *. nia.
Qed.

Lemma at_least_one_mul x y :
  at_least_one x -> at_least_one y -> at_least_one (SFmul prec emax x y).
Proof.
  intros Hx Hy.
  destruct x as [sx | [|] | | [|] mx ex]; try contradiction;
  destruct y as [sy | [|] | | [|] my ey]; try contradiction;
  cbn [SFmul xorb]; trivial.
  destruct Hx as [Hdx Hex]. destruct Hy as [Hdy Hey].
  pose proof (dg_mul_lower mx my Hdx Hdy) as Hd.
  destruct (bra_general false (mx * my) (ex + ey)) as (M & E & HdM & HE & HR);
    try lia.
  rewrite HR. destruct (Z.leb_spec E 971); cbn [at_least_one]; trivial.
  split; trivial. lia.
Qed.

Lemma SFleb_finite m1 e1 m2 e2 :
  SFleb (S754_finite false m1 e1) (S754_finite false m2 e2) = true <->
  e1 < e2 \/ e1 = e2 /\ Zpos m1 <= Zpos m2.
Proof.
  unfold SFleb, SFcompare.
  change (Pos.compare_cont Eq m1 m2) with (Zpos m1 ?= Zpos m2).
  destruct (Z.compare_spec e1 e2);
    [destruct (Z.compare_spec (Zpos m1) (Zpos m2))| |];
    split; intros H'; try discriminate H'; try reflexivity; lia.
Qed.

Lemma at_least_one_add x y :
  at_least_one x -> at_least_one y ->
  at_least_one (SFadd prec emax x y) /\ SFleb x (SFadd prec emax x y) = true.
Proof.
  intros Hx Hy.
  destruct x as [sx | [|] | | [|] mx ex]; try contradiction;
  destruct y as [sy | [|] | | [|] my ey]; try contradiction;
  cbn [SFadd]; try (split; [try exact I; trivial | reflexivity]).
  destruct Hx as [Hdx Hex]. destruct Hy as [Hdy Hey].
  set (ez := Z.min ex ey). cbn [cond_Zopp].
  rewrite !shl_align_fst by (unfold ez; lia).
  pose proof (pow2_pos (ex - ez) ltac:(unfold ez; lia)) as HPx.
  pose proof (pow2_pos (ey - ez) ltac:(unfold ez; lia)) as HPy.
  assert (HS : 0 < Zpos mx * 2 ^ (ex - ez) + Zpos my * 2 ^ (ey - ez)) by nia.
  destruct (Zpos mx * 2 ^ (ex - ez) + Zpos my * 2 ^ (ey - ez))
    as [| p | p] eqn:Ep; try lia.
  cbn [binary_normalize]. unfold binary_round. fold (dg p).
  assert (Hdp : 53 + (ex - ez) <= dg p).
  { replace (53 + (ex - ez)) with (52 + (ex - ez) + 1) by lia.
    apply (dg_ge p (52 + (ex - ez))); [unfold ez; lia|].
    rewrite Z.pow_add_r by (unfold ez; lia).
    pose proof (dg_bounds mx) as [Bl _]. rewrite Hdx in Bl.
    change (53 - 1) with 52 in Bl. nia. }
  rewrite fexp_normal by (unfold ez in *; lia).
  rewrite shl_align_id by (unfold ez in *; lia).
  destruct (bra_general false p ez) as (M & E & HdM & HE & HR);
    try (unfold ez in *; lia).
  rewrite HR.
  destruct (Z.leb_spec E 971); [|split; [try exact I; trivial | reflexivity]].
  split; [split; trivial; unfold ez in *; lia|].
  apply SFleb_finite.
  destruct HE as [(HE & HM) | (HE & HM)]; [|left; unfold ez in *; lia].
  destruct (Z.eq_dec (dg p - 53) (ex - ez)) as [Hn | Hn];
    [|left; unfold ez in *; lia].
  right. split; [unfold ez in *; lia|].
  rewrite Hn in HM.
  assert (Zpos mx <= Zpos p / 2 ^ (ex - ez)); [|lia].
  apply Z.div_le_lower_bound; nia.
Qed.

Lemma SFleb_trans x y z :
  at_least_one x -> at_least_one y -> at_least_one z ->
  SFleb x y = true -> SFleb y z = true -> SFleb x z = true.
Proof.
  intros Hx Hy Hz.
  destruct x as [sx | [|] | | [|] mx ex]; try contradiction;
  destruct y as [sy | [|] | | [|] my ey]; try contradiction;
  destruct z as [sz | [|] | | [|] mz ez]; try contradiction;
  trivial; try discriminate.
  rewrite !SFleb_finite. lia.
Qed.

(** Dividing a canonical double by [2^30] lowers its exponent by 30. *)
Lemma div_2p30_finite m e :
  dg m = 53 -> -52 <= e <= 971 ->
  SFdiv prec emax (S754_finite false m e)
        (S754_finite false 4503599627370496 (-22))
  = S754_finite false m (e - 30).
Proof.
  intros Hd He. pose proof (dg_bounds m) as [Bl Bu]. rewrite Hd in Bl, Bu.
  destruct (SFdiv_pow2 false m e false 4503599627370496 (-22) 52 (Zpos m) 0)
    as (M & E & HR & HdM & HE & HEK & HM); trivial; try lia.
  rewrite HR. cbn [xorb].
  assert (HE0 : E = e - 30).
  { pose proof (dg_shift m M (e - -22 - 52 + 0 - E) ltac:(lia) HM). lia. }
  subst E. replace (e - -22 - 52 + 0 - (e - 30)) with 0 in HM by lia.
  rewrite Z.pow_0_r, Z.mul_1_r in HM. injection HM as ->. reflexivity.
Qed.

(** [h / 8] for a multiple of 8 whose quotient has more than 53 digits is
    the rounding of the quotient. *)
Lemma SFdiv_8_bra s p pa :
  Zpos p = Zpos pa * 8 -> 54 <= dg pa ->
  SFdiv prec emax (S754_finite s p 0) (S754_finite false 8 0)
  = binary_round_aux prec emax s (Zpos pa) 0 loc_Exact.
Proof.
  intros Hp Hd.
  assert (Hdp : dg p = dg pa + 3) by (apply dg_shift; [lia | exact Hp]).
  cbn [SFdiv xorb]. rewrite xorb_false_r. unfold SFdiv_core_binary.
  cbn [Zdigits2]. fold (dg p). change (Zpos (digits2_pos 8)) with 4.
  rewrite fexp_normal by lia.
  replace (Z.min (dg p + 0 - (4 + 0) - 53) (0 - 0)) with 0 by lia.
  change (0 - 0 - 0) with 0. cbv iota.
  rewrite Hp, div_eucl_exact by lia. rewrite new_location_exact.
  reflexivity.
Qed.

(** That quotient is rounded to 53 digits and keeps a positive exponent, or
    overflows. *)
Lemma int_truediv_8_large s p pa :
  Zpos p = Zpos pa * 8 -> 54 <= dg pa ->
  exists M E,
    SFdiv prec emax (S754_finite s p 0) (S754_finite false 8 0)
      = (if E <=? 971 then S754_finite s M E else S754_infinity s) /\
    dg M = 53 /\ 1 <= E <= dg pa - 52.
Proof.
  intros Hp Hd. rewrite (SFdiv_8_bra s p pa Hp Hd).
  destruct (bra_general s pa 0) as (M & E & HdM & HE & HR); try lia.
  rewrite HR. exists M, E. repeat split; trivial; lia.
Qed.

Lemma integral_check_nonneg s m e :
  0 <= e ->
  exists i, int (Float (S754_finite s m e)) = Ok i /\
            ne (Float (S754_finite s m e)) (Int i) = false.
Proof.
  intros He. eexists. split; [reflexivity|].
  unfold ne, eq, compare, compare_float_int.
  destruct (Z.leb_spec 0 e); [|lia].
  rewrite Z.compare_refl. reflexivity.
Qed.

Lemma repr_at_least_one x z k :
  repr x z k -> 0 < z -> 0 <= k -> at_least_one x.
Proof.
  intros Hx Hz Hk. destruct x as [s | s | | s m e]; try contradiction.
  - cbn [repr] in Hx. lia.
  - apply repr_finite_inv in Hx.
    destruct Hx as (Hd & He & Hke & Hm & Hz0 & Hs & Hc & Hl).
    assert (Hsf : (z <? 0) = false) by (apply Z.ltb_ge; lia).
    rewrite Hsf in Hs. subst s. cbn [at_least_one]. split; trivial. lia.
Qed.

(** [h / 8] and the test of line 45 for every multiple of 8 that does not
    overflow. *)
Lemma latent_general h :
  h mod 8 = 0 -> Z.abs h < 2 ^ 1026 ->
  exists x i,
    truediv (Int h) (Int 8) = Ok (Float x) /\
    int (Float x) = Ok i /\ ne (Float x) (Int i) = false /\
    (0 < h -> at_least_one x).
Proof.
  intros Hh Hb.
  pose proof (Z_div_exact_2 h 8 ltac:(lia) Hh) as Eh.
  set (a := h / 8) in *.
  destruct (Z_lt_ge_dec (Z.abs a) (2 ^ 53)) as [Hs | Hl].
  - destruct (latent_of_multiple h a Eh Hs) as (x & i & Hx & Rx & Hi & Hne).
    exists x, i. repeat split; trivial.
    intros Hpos. apply (repr_at_least_one x a 0); trivial; lia.
  - assert (Hpa : Zpos (Z.to_pos (Z.abs a)) = Z.abs a).
    { apply Z2Pos.id. change (2 ^ 53) with 9007199254740992 in Hl. lia. }
    assert (Hd : 54 <= dg (Z.to_pos (Z.abs a)) <= 1023).
    { split.
      - apply (dg_ge _ 53); [lia|]. rewrite Hpa. lia.
      - apply dg_le. rewrite Hpa.
        change (2 ^ 1026) with (8 * 2 ^ 1023) in Hb. lia. }
    cbn [truediv]. unfold int_truediv. cbn [Z.eqb exact_int].
    destruct h as [| p | p].
    + change (2 ^ 53) with 9007199254740992 in Hl. lia.
    + destruct (int_truediv_8_large false p (Z.to_pos (Z.abs a)))
        as (M & E & HR & HdM & HE); [rewrite Hpa; lia | lia |].
      cbn [exact_int]. rewrite HR.
      destruct (Z.leb_spec E 971); [|lia]. cbn [overflow_check bind].
      destruct (integral_check_nonneg false M E ltac:(lia)) as (i & Hi & Hne).
      exists (S754_finite false M E), i. repeat split; trivial; lia.
    + destruct (int_truediv_8_large true p (Z.to_pos (Z.abs a)))
        as (M & E & HR & HdM & HE); [rewrite Hpa; lia | lia |].
      cbn [exact_int]. rewrite HR.
      destruct (Z.leb_spec E 971); [|lia]. cbn [overflow_check bind].
      destruct (integral_check_nonneg true M E ltac:(lia)) as (i & Hi & Hne).
      exists (S754_finite true M E), i. repeat split; trivial.
      intros Hpos. lia.
Qed.

(** [float(z)] does not overflow below [2^1023]. *)
Lemma float_of_int_ok z :
  Z.abs z < 2 ^ 1023 -> exists x, float_of_int z = Ok x.
Proof.
  intros Hb.
  destruct (Z_lt_ge_dec (Z.abs z) (2 ^ 53)) as [Hs | Hl].
  { destruct (float_of_int_exact z Hs) as (x & Hx & _). exists x. exact Hx. }
  assert (forall s p, Zpos p = Z.abs z ->
            exists x, overflow_check (binary_round prec emax s p 0) = Ok x) as Hround.
  { intros s p Hp.
    assert (Hd : 54 <= dg p <= 1023).
    { split; [apply (dg_ge _ 53); lia | apply dg_le; lia]. }
    unfold binary_round. fold (dg p).
    rewrite fexp_normal, shl_align_id by lia.
    destruct (bra_general s p 0) as (M & E & HdM & HE & HR); try lia.
    rewrite HR. destruct (Z.leb_spec E 971); [|lia].
    eexists. reflexivity. }
  unfold float_of_int, dyadic.
  destruct z as [| p | p]; cbn [binary_normalize].
  - eexists. reflexivity.
  - apply Hround. reflexivity.
  - apply Hround. reflexivity.
Qed.

(** The value returned by [f_estimate] once both dimensions pass the test
    of line 45, as one expression on doubles. *)
Lemma f_estimate_unfold h w pl opt lh ih lw iw xA :
  truediv (Int h) (Int 8) = Ok (Float lh) ->
  int (Float lh) = Ok ih -> ne (Float lh) (Int ih) = false ->
  truediv (Int w) (Int 8) = Ok (Float lw) ->
  int (Float lw) = Ok iw -> ne (Float lw) (Int iw) = false ->
  float_of_int (C_WEIGHTS_BYTES + C_OVERHEAD_BYTES + C_L_FACTOR * pl) = Ok xA ->
  f_estimate h w pl opt
  = Ok (Float
          (SFdiv prec emax (peak_bytes xA lh lw opt) (dyadic (1024 ^ 3) 0)),
        attention_mode_of opt).
Proof.
  intros Hlh Hih Hnh Hlw Hiw Hnw HxA.
  unfold f_estimate, f_estimate_locals.
  change (add (Int C_WEIGHTS_BYTES) (Int C_OVERHEAD_BYTES))
    with (Ok (Int (C_WEIGHTS_BYTES + C_OVERHEAD_BYTES))).
  change (mul (Int C_L_FACTOR) (Int pl)) with (Ok (Int (C_L_FACTOR * pl))).
  cbn [bind]. rewrite Hlh. cbn [bind]. rewrite Hlw. cbn [bind].
  rewrite Hih. cbn [bind]. rewrite Hnh. rewrite Hiw. cbn [bind]. rewrite Hnw.
  cbn [mul to_float bind].
  change (float_of_int 4) with (Ok (dyadic 4 0)). cbn [bind].
  change (float_of_int 2) with (Ok (dyadic 2 0)). cbn [bind].
  change (float_of_int K_ITER_BASE) with (Ok (dyadic 20000 0)). cbn [bind].
  destruct opt; cbn [mul add to_float bind]; rewrite HxA; cbn [bind];
    unfold bytes_to_gb; cbn [M_peak_bytes mode_str truediv to_float bind];
    change (float_of_int (1024 ^ 3)) with (Ok (dyadic (1024 ^ 3) 0));
    cbn [bind]; reflexivity.
Qed.

(** Every pair of multiples of 8 below the overflow threshold gets a
    computed result, whatever the signs and the prompt length. *)
Theorem f_estimate_returns h w pl opt :
  h mod 8 = 0 -> w mod 8 = 0 ->
  Z.abs h < 2 ^ 1026 -> Z.abs w < 2 ^ 1026 ->
  Z.abs (C_WEIGHTS_BYTES + C_OVERHEAD_BYTES + C_L_FACTOR * pl) < 2 ^ 1023 ->
  exists g, f_estimate h w pl opt = Ok (Float g, attention_mode_of opt).
Proof.
  intros Hh Hw Hbh Hbw Hbp.
  destruct (latent_general h Hh Hbh) as (lh & ih & Hlh & Hih & Hnh & _).
  destruct (latent_general w Hw Hbw) as (lw & iw & Hlw & Hiw & Hnw & _).
  destruct (float_of_int_ok _ Hbp) as (xA & HxA).
  eexists. exact (f_estimate_unfold h w pl opt lh ih lw iw xA
                    Hlh Hih Hnh Hlw Hiw Hnw HxA).
Qed.

Lemma at_least_one_int z : 0 < z < 2 ^ 53 -> at_least_one (dyadic z 0).
Proof.
  intros Hz. apply (repr_at_least_one _ z 0); try lia.
  apply repr_dyadic; lia.
Qed.

(** [h / 8] and the test of line 45 for a valid dimension: a double that
    is at least 1 and passes the test, or OverflowError from [2^1026] on. *)
Lemma truediv_8_cases h :
  valid_dimension h ->
  (exists x i,
     truediv (Int h) (Int 8) = Ok (Float x) /\ at_least_one x /\
     int (Float x) = Ok i /\ ne (Float x) (Int i) = false)
  \/ (truediv (Int h) (Int 8) = Raise OverflowError /\ 2 ^ 1026 <= h).
Proof.
  intros [Hpos Hh].
  destruct (Z_lt_ge_dec h (2 ^ 1026)) as [Hs | Hl].
  { destruct (latent_general h Hh ltac:(lia)) as (x & i & Hx & Hi & Hne & Ha).
    left. exists x, i. repeat split; trivial. apply Ha, Hpos. }
  pose proof (Z_div_exact_2 h 8 ltac:(lia) Hh) as Eh.
  set (a := h / 8) in *.
  change (2 ^ 1026) with (8 * 2 ^ 1023) in Hl.
  assert (Hpa : Zpos (Z.to_pos a) = a) by (apply Z2Pos.id; lia).
  assert (Hd : 54 <= dg (Z.to_pos a)).
  { apply (dg_ge _ 53); [lia|]. rewrite Hpa.
    assert (2 ^ 53 <= 2 ^ 1023) by (apply Z.pow_le_mono_r; lia). lia. }
  cbn [truediv]. unfold int_truediv. cbn [Z.eqb].
  destruct h as [| p | p]; try lia. cbn [exact_int].
  destruct (int_truediv_8_large false p (Z.to_pos a))
    as (M & E & HR & HdM & HE); [rewrite Hpa; lia | lia |].
  rewrite HR. destruct (Z.leb_spec E 971).
  - left. cbn [overflow_check bind].
    destruct (integral_check_nonneg false M E ltac:(lia)) as (i & Hi & Hne).
    exists (S754_finite false M E), i. repeat split; trivial; lia.
  - right. split; [reflexivity|].
    change (8 * 2 ^ 1023) with (2 ^ 1026). lia.
Qed.

Lemma f_estimate_raise_h h w pl opt e :
  truediv (Int h) (Int 8) = Raise e -> f_estimate h w pl opt = Raise e.
Proof.
  intros Hh. unfold f_estimate, f_estimate_locals.
  change (add (Int C_WEIGHTS_BYTES) (Int C_OVERHEAD_BYTES))
    with (Ok (Int (C_WEIGHTS_BYTES + C_OVERHEAD_BYTES))).
  change (mul (Int C_L_FACTOR) (Int pl)) with (Ok (Int (C_L_FACTOR * pl))).
  cbn [bind]. rewrite Hh. reflexivity.
Qed.

Lemma f_estimate_raise_w h w pl opt lh e :
  truediv (Int h) (Int 8) = Ok lh -> truediv (Int w) (Int 8) = Raise e ->
  f_estimate h w pl opt = Raise e.
Proof.
  intros Hh Hw. unfold f_estimate, f_estimate_locals.
  change (add (Int C_WEIGHTS_BYTES) (Int C_OVERHEAD_BYTES))
    with (Ok (Int (C_WEIGHTS_BYTES + C_OVERHEAD_BYTES))).
  change (mul (Int C_L_FACTOR) (Int pl)) with (Ok (Int (C_L_FACTOR * pl))).
  cbn [bind]. rewrite Hh. cbn [bind]. rewrite Hw. reflexivity.
Qed.

(** The cost model on doubles that are at least 1: the result is at least
    the fixed cost, because every operation is monotone. *)
Lemma cost_at_least_fixed lh lw pl (opt : bool) :
  at_least_one lh -> at_least_one lw -> 1 <= pl <= 77 ->
  exists xA,
    float_of_int (C_WEIGHTS_BYTES + C_OVERHEAD_BYTES + C_L_FACTOR * pl) = Ok xA /\
    SFleb (S754_finite false 5520542924800000 (-51))
      (SFdiv prec emax (peak_bytes xA lh lw opt) (dyadic (1024 ^ 3) 0)) = true.
Proof.
  intros Ah Aw Hpl. unfold peak_bytes.
  set (A := C_WEIGHTS_BYTES + C_OVERHEAD_BYTES + C_L_FACTOR * pl).
  assert (HA : 2632400000 <= A < 2 ^ 53).
  { unfold A, C_WEIGHTS_BYTES, C_OVERHEAD_BYTES, C_L_FACTOR.
    change (2 ^ 53) with 9007199254740992. lia. }
  destruct (float_of_int_exact A) as (xA & HxA & RxA).
  { change (2 ^ 53) with 9007199254740992 in *. lia. }
  exists xA. split; trivial.
  set (N := SFmul prec emax lh lw).
  assert (AN : at_least_one N) by (apply at_least_one_mul; trivial).
  assert (A4 : at_least_one (dyadic 4 0))
    by (apply at_least_one_int; change (2 ^ 53) with 9007199254740992; lia).
  assert (A2 : at_least_one (dyadic 2 0))
    by (apply at_least_one_int; change (2 ^ 53) with 9007199254740992; lia).
  assert (AK : at_least_one (dyadic 20000 0))
    by (apply at_least_one_int; change (2 ^ 53) with 9007199254740992; lia).
  assert (AM : at_least_one (if opt then one else K_ATTN_STANDARD_MULTIPLIER)).
  { destruct opt.
    - change one with (S754_finite false 4503599627370496 (-52)).
      cbn [at_least_one]. split; [reflexivity | lia].
    - change K_ATTN_STANDARD_MULTIPLIER
        with (S754_finite false 5629499534213120 (-52)).
      cbn [at_least_one]. split; [reflexivity | lia]. }
  set (Ma := SFmul prec emax (SFmul prec emax N (dyadic 20000 0))
                   (if opt then one else K_ATTN_STANDARD_MULTIPLIER)).
  set (Mb := SFmul prec emax (SFmul prec emax N (dyadic 4 0)) (dyadic 2 0)).
  assert (AMa : at_least_one Ma) by (repeat apply at_least_one_mul; trivial).
  assert (AMb : at_least_one Mb) by (repeat apply at_least_one_mul; trivial).
  destruct (at_least_one_add Ma Mb AMa AMb) as [AMp _].
  set (Mp := SFadd prec emax Ma Mb) in *.
  assert (AxA : at_least_one xA) by (apply (repr_at_least_one xA A 0); trivial; lia).
  destruct (at_least_one_add xA Mp AxA AMp) as [Ar0 Hle].
  set (r0 := SFadd prec emax xA Mp) in *.
  (* the fixed cost in bytes *)
  set (xF := S754_finite false 5520542924800000 (-21)).
  assert (RxF : repr xF 2632400000 0).
  { apply (repr_dyadic 2632400000 0); change (2 ^ 53) with 9007199254740992; lia. }
  assert (AxF : at_least_one xF) by (cbn; split; [reflexivity | lia]).
  assert (HFA : SFleb xF xA = true).
  { unfold SFleb. rewrite (repr_compare xF xA _ _ 0 RxF RxA).
    destruct (Z.compare_spec 2632400000 A); trivial; lia. }
  pose proof (SFleb_trans xF xA r0 AxF AxA Ar0 HFA Hle) as HF0.
  change (dyadic (1024 ^ 3) 0) with (S754_finite false 4503599627370496 (-22)).
  destruct r0 as [s0 | [|] | | [|] m0 e0]; try contradiction.
  - reflexivity.
  - destruct Ar0 as [Hd0 He0]. rewrite div_2p30_finite by trivial.
    apply SFleb_finite. apply SFleb_finite in HF0. lia.
Qed.

(** For every valid input the estimator returns an estimate that is at
    least the fixed cost, or raises OverflowError; the latter needs a
    dimension of [2^1026] or more. *)
Theorem f_estimate_cases h w pl opt :
  valid_input h w pl ->
  (exists g fx,
     f_estimate h w pl opt = Ok (Float g, attention_mode_of opt) /\
     fixed_cost_gb = Ok (Float fx) /\
     SFleb fx g = true)
  \/ (f_estimate h w pl opt = Raise OverflowError /\
      (2 ^ 1026 <= h \/ 2 ^ 1026 <= w)).
Proof.
  intros (Hh & Hw & Hpl).
  destruct (truediv_8_cases h Hh) as [(lh & ih & Hlh & Ah & Hih & Hnh) | [Rh Bh]];
    [|right; split; [apply f_estimate_raise_h; trivial | left; trivial]].
  destruct (truediv_8_cases w Hw) as [(lw & iw & Hlw & Aw & Hiw & Hnw) | [Rw Bw]];
    [|right; split; [apply (f_estimate_raise_w h w pl opt (Float lh)); trivial
                    | right; trivial]].
  destruct (cost_at_least_fixed lh lw pl opt Ah Aw Hpl) as (xA & HxA & Hle).
  left. eexists. exists (S754_finite false 5520542924800000 (-51)).
  split; [exact (f_estimate_unfold h w pl opt lh ih lw iw xA
                   Hlh Hih Hnh Hlw Hiw Hnw HxA)|].
  split; [reflexivity | exact Hle].
Qed.

(** * Rounding errors of the cost model *)

Lemma p2_pos e : (0 < p2 e)%R.
Proof. apply powerRZ_lt. lra. Qed.

Lemma p2_add a b : p2 (a + b) = (p2 a * p2 b)%R.
Proof. apply powerRZ_add. lra. Qed.

Lemma p2_IZR n : 0 <= n -> p2 n = IZR (2 ^ n).
Proof.
  intros Hn. unfold p2. rewrite <- (Z2Nat.id n Hn) at 2.
  rewrite <- pow_IZR, <- (Z2Nat.id n Hn) at 1. rewrite <- pow_powerRZ. reflexivity.
Qed.

Lemma p2_le a b : a <= b -> (p2 a <= p2 b)%R.
Proof.
  intros H. replace b with (a + (b - a)) by lia. rewrite p2_add.
  pose proof (p2_pos a). rewrite (p2_IZR (b - a)) by lia.
  assert (1 <= IZR (2 ^ (b - a)))%R.
  { apply IZR_le. pose proof (pow2_pos (b - a) ltac:(lia)). lia. }
  nra.
Qed.

Lemma p2_succ a : p2 (a + 1) = (2 * p2 a)%R.
Proof. rewrite p2_add. change (p2 1) with (2 * 1)%R. lra. Qed.

Lemma bra_val s m e :
  53 <= dg m -> -1074 <= e + dg m - 53 ->
  exists M E,
    dg M = 53 /\ e + (dg m - 53) <= E /\
    binary_round_aux prec emax s (Zpos m) e loc_Exact
      = (if E <=? 971 then S754_finite s M E else S754_infinity s) /\
    ((1 - u52) * (IZR (Zpos m) * p2 e) <= IZR (Zpos M) * p2 E
     <= (1 + u52) * (IZR (Zpos m) * p2 e))%R.
Proof.
  intros Hd He.
  destruct (bra_general s m e Hd He) as (M & E & HdM & HE & HR).
  exists M, E. split; trivial. split; [lia|]. split; trivial.
  set (n := dg m - 53) in *.
  pose proof (truncated_mantissa_bounds m Hd) as Hq. fold n in Hq.
  pose proof (pow2_pos n ltac:(unfold n; lia)) as HP.
  pose proof (Z.div_mod (Zpos m) (2 ^ n) ltac:(lia)) as Hdm.
  pose proof (Z.mod_pos_bound (Zpos m) (2 ^ n) HP) as Hr.
  set (q := Zpos m / 2 ^ n) in *. set (r := Zpos m mod 2 ^ n) in *.
  assert (Em : IZR (Zpos m) = (p2 n * IZR q + IZR r)%R).
  { rewrite (p2_IZR n) by (unfold n; lia).
    rewrite <- mult_IZR, <- plus_IZR. f_equal. exact Hdm. }
  assert (Hr0 : (0 <= IZR r)%R) by (apply IZR_le; lia).
  assert (Hr1 : (IZR r <= p2 n)%R).
  { rewrite (p2_IZR n) by (unfold n; lia). apply IZR_le. lia. }
  assert (Hq52 : (4503599627370496 <= IZR q)%R).
  { apply IZR_le. change (2 ^ 52) with 4503599627370496 in Hq. lia. }
  pose proof (p2_pos n) as HPn. pose proof (p2_pos e) as HPe.
  assert (HX : exists X, (IZR (Zpos M) * p2 E = X * p2 e)%R /\
                         (p2 n * IZR q <= X <= p2 n * (IZR q + 1))%R).
  { destruct HE as [(-> & HM) | (-> & HM & Hc)].
    - exists (IZR (Zpos M) * p2 n)%R. rewrite p2_add. split; [lra|].
      assert (IZR q <= IZR (Zpos M) <= IZR q + 1)%R.
      { rewrite <- plus_IZR. split; apply IZR_le; lia. }
      nra.
    - exists (p2 n * (IZR q + 1))%R. split; [|nra].
      assert (Hq1 : (IZR q + 1 = 9007199254740992)%R).
      { change 1%R with (IZR 1). rewrite <- plus_IZR, Hc. reflexivity. }
      rewrite Hq1, HM, p2_succ, p2_add.
      change (2 ^ 52) with 4503599627370496. lra. }
  destruct HX as (X & -> & HX).
  assert (Hu : (p2 n <= u52 * IZR (Zpos m))%R).
  { unfold u52. rewrite Em.
    apply (Rmult_le_reg_l 4503599627370496); [lra|].
    rewrite <- Rmult_assoc, Rinv_r, Rmult_1_l by lra. nra. }
  rewrite <- !Rmult_assoc. split; apply Rmult_le_compat_r; lra.
Qed.

Lemma mantissa_val_bounds M E :
  dg M = 53 ->
  (4503599627370496 * p2 E <= IZR (Zpos M) * p2 E < 9007199254740992 * p2 E)%R.
Proof.
  intros Hd. pose proof (dg_bounds M) as [Bl Bu]. rewrite Hd in Bl, Bu.
  change (2 ^ (53 - 1)) with 4503599627370496 in Bl.
  change (2 ^ 53) with 9007199254740992 in Bu.
  apply IZR_le in Bl. apply IZR_lt in Bu. pose proof (p2_pos E). nra.
Qed.

Lemma val_le_exponent M1 E1 M2 E2 :
  dg M1 = 53 -> dg M2 = 53 ->
  (IZR (Zpos M1) * p2 E1 <= IZR (Zpos M2) * p2 E2)%R -> E1 <= E2.
Proof.
  intros H1 H2 Hle.
  destruct (Z_le_gt_dec E1 E2) as [|Hgt]; trivial. exfalso.
  pose proof (mantissa_val_bounds M1 E1 H1). pose proof (mantissa_val_bounds M2 E2 H2).
  pose proof (p2_le (E2 + 1) E1 ltac:(lia)) as Hp. rewrite p2_succ in Hp.
  pose proof (p2_pos E2). lra.
Qed.

Lemma val_lt_SFltb M1 E1 M2 E2 :
  dg M1 = 53 -> dg M2 = 53 ->
  (IZR (Zpos M1) * p2 E1 < IZR (Zpos M2) * p2 E2)%R ->
  SFltb (S754_finite false M1 E1) (S754_finite false M2 E2) = true.
Proof.
  intros H1 H2 Hlt.
  pose proof (val_le_exponent M1 E1 M2 E2 H1 H2 ltac:(lra)) as HE.
  unfold SFltb, SFcompare.
  change (Pos.compare_cont Eq M1 M2) with (Zpos M1 ?= Zpos M2).
  destruct (Z.compare_spec E1 E2) as [-> | |]; try lia; trivial.
  pose proof (p2_pos E2).
  assert (IZR (Zpos M1) < IZR (Zpos M2))%R by nra.
  apply lt_IZR in H0.
  destruct (Z.compare_spec (Zpos M1) (Zpos M2)); trivial; lia.
Qed.

Lemma at_least_one_val x : at_least_one x -> finite x -> (1 <= val x)%R.
Proof.
  intros Ax Fx. destruct x as [sx | sx | | [|] m e]; try contradiction.
  destruct Ax as [Hd He]. cbn [val].
  pose proof (mantissa_val_bounds m e Hd) as [Hl _].
  pose proof (p2_le (-52) e ltac:(lia)) as Hp.
  assert (p2 (-52) = / 4503599627370496)%R.
  { pose proof (p2_add (-52) 52) as Ha. change (-52 + 52) with 0 in Ha.
    change (p2 0) with 1%R in Ha. rewrite (p2_IZR 52) in Ha by lia.
    change (2 ^ 52) with 4503599627370496 in Ha.
    apply (Rmult_eq_reg_r 4503599627370496); [|lra].
    rewrite Rinv_l by lra. lra. }
  lra.
Qed.

(** The product of two doubles that are at least 1, before the overflow
    test, with its relative error. *)
Lemma mul_val x y :
  at_least_one x -> at_least_one y -> finite x -> finite y ->
  exists M E,
    dg M = 53 /\ -52 <= E /\
    SFmul prec emax x y = clamp M E /\
    ((1 - u52) * (val x * val y) <= IZR (Zpos M) * p2 E
     <= (1 + u52) * (val x * val y))%R.
Proof.
  intros Ax Ay Fx Fy.
  destruct x as [sx | sx | | [|] mx ex]; try contradiction;
  destruct y as [sy | sy | | [|] my ey]; try contradiction.
  destruct Ax as [Hdx Hex]. destruct Ay as [Hdy Hey].
  pose proof (dg_mul_lower mx my Hdx Hdy) as Hd.
  destruct (bra_val false (mx * my) (ex + ey)) as (M & E & HdM & HE & HR & HV);
    try lia.
  exists M, E. split; trivial. split; [lia|]. split; [exact HR|].
  cbn [val]. rewrite Pos2Z.inj_mul, mult_IZR, p2_add in HV.
  replace (IZR (Zpos mx) * p2 ex * (IZR (Zpos my) * p2 ey))%R
    with (IZR (Zpos mx) * IZR (Zpos my) * (p2 ex * p2 ey))%R by ring.
  exact HV.
Qed.

(** The sum of two doubles that are at least 1, before the overflow test,
    with its relative error. *)
Lemma add_val x y :
  at_least_one x -> at_least_one y -> finite x -> finite y ->
  exists M E,
    dg M = 53 /\ -52 <= E /\
    SFadd prec emax x y = clamp M E /\
    ((1 - u52) * (val x + val y) <= IZR (Zpos M) * p2 E
     <= (1 + u52) * (val x + val y))%R.
Proof.
  intros Ax Ay Fx Fy.
  destruct x as [sx | sx | | [|] mx ex]; try contradiction;
  destruct y as [sy | sy | | [|] my ey]; try contradiction.
  destruct Ax as [Hdx Hex]. destruct Ay as [Hdy Hey]. cbn [SFadd cond_Zopp].
  set (ez := Z.min ex ey).
  rewrite !shl_align_fst by (unfold ez; lia).
  pose proof (pow2_pos (ex - ez) ltac:(unfold ez; lia)) as HPx.
  pose proof (pow2_pos (ey - ez) ltac:(unfold ez; lia)) as HPy.
  assert (HS : 0 < Zpos mx * 2 ^ (ex - ez) + Zpos my * 2 ^ (ey - ez)) by nia.
  destruct (Zpos mx * 2 ^ (ex - ez) + Zpos my * 2 ^ (ey - ez))
    as [| p | p] eqn:Ep; try lia.
  cbn [binary_normalize]. unfold binary_round. fold (dg p).
  assert (Hdp : 53 + (ex - ez) <= dg p).
  { replace (53 + (ex - ez)) with (52 + (ex - ez) + 1) by lia.
    apply (dg_ge p (52 + (ex - ez))); [unfold ez; lia|].
    rewrite Z.pow_add_r by (unfold ez; lia).
    pose proof (dg_bounds mx) as [Bl _]. rewrite Hdx in Bl.
    change (53 - 1) with 52 in Bl. nia. }
  rewrite fexp_normal by (unfold ez in *; lia).
  rewrite shl_align_id by (unfold ez in *; lia).
  destruct (bra_val false p ez) as (M & E & HdM & HE & HR & HV);
    try (unfold ez in *; lia).
  exists M, E. split; trivial. split; [unfold ez in *; lia|]. split; [exact HR|].
  cbn [val].
  assert (Hsum : (IZR (Zpos p) * p2 ez
                  = IZR (Zpos mx) * p2 ex + IZR (Zpos my) * p2 ey)%R).
  { rewrite <- Ep, plus_IZR, !mult_IZR.
    rewrite <- !p2_IZR by (unfold ez; lia).
    rewrite Rmult_plus_distr_r, !Rmult_assoc, <- !p2_add.
    do 2 f_equal; f_equal; lia. }
  rewrite Hsum in HV. exact HV.
Qed.

Lemma repr_val x z k : repr x z k -> 0 < z -> val x = (IZR z * p2 k)%R.
Proof.
  intros Hx Hz. destruct x as [s | s | | s m e]; try contradiction.
  - cbn [repr] in Hx. lia.
  - apply repr_finite_inv in Hx.
    destruct Hx as (Hd & He & Hke & Hm & Hz0 & Hs & Hc & Hl).
    assert (Hsf : (z <? 0) = false) by (apply Z.ltb_ge; lia).
    rewrite Hsf in Hs. subst s. cbn [val].
    rewrite Hm, Z.abs_eq, mult_IZR by lia.
    rewrite <- p2_IZR by lia. rewrite Rmult_assoc, <- p2_add.
    do 2 f_equal. lia.
Qed.

Lemma val_int z : 0 < z < 2 ^ 53 -> val (dyadic z 0) = IZR z.
Proof.
  intros Hz. rewrite (repr_val _ z 0); [|apply repr_dyadic; lia|lia].
  change (p2 0) with 1%R. lra.
Qed.

Lemma clamp_finite M E :
  finite (clamp M E) -> clamp M E = S754_finite false M E /\ E <= 971.
Proof.
  unfold clamp. destruct (Z.leb_spec E 971); [split; trivial | contradiction].
Qed.

Lemma clamp_gap M1 E1 M2 E2 c :
  dg M1 = 53 -> dg M2 = 53 -> (1 <= c)%R ->
  (c * (IZR (Zpos M1) * p2 E1) <= IZR (Zpos M2) * p2 E2)%R ->
  gap c (clamp M1 E1) (clamp M2 E2).
Proof.
  intros H1 H2 Hc Hle. unfold clamp at 2.
  destruct (Z.leb_spec E2 971) as [HE2 | HE2]; [|left; reflexivity].
  right. pose proof (mantissa_val_bounds M1 E1 H1) as B1. pose proof (p2_pos E1).
  assert (HE : E1 <= E2) by (apply (val_le_exponent M1 E1 M2 E2); trivial; nra).
  unfold clamp. destruct (Z.leb_spec E1 971); [|lia].
  cbn [finite val]. repeat split; trivial.
Qed.

Lemma add_gap x1 y1 x2 y2 c :
  at_least_one x1 -> at_least_one y1 -> finite x1 -> finite y1 ->
  at_least_one x2 -> at_least_one y2 -> finite x2 -> finite y2 ->
  (1 <= c)%R ->
  (c * ((1 + u52) * (val x1 + val y1)) <= (1 - u52) * (val x2 + val y2))%R ->
  gap c (SFadd prec emax x1 y1) (SFadd prec emax x2 y2).
Proof.
  intros A1 B1 F1 G1 A2 B2 F2 G2 Hc Hle.
  destruct (add_val x1 y1 A1 B1 F1 G1) as (M1 & E1 & Hd1 & _ & -> & [_ Hu1]).
  destruct (add_val x2 y2 A2 B2 F2 G2) as (M2 & E2 & Hd2 & _ & -> & [Hl2 _]).
  apply clamp_gap; trivial.
  apply Rle_trans with (2 := Hl2). apply Rle_trans with (2 := Hle).
  apply Rmult_le_compat_l; lra.
Qed.

Lemma SFltb_finite m1 e1 m2 e2 :
  SFltb (S754_finite false m1 e1) (S754_finite false m2 e2) = true <->
  e1 < e2 \/ e1 = e2 /\ Zpos m1 < Zpos m2.
Proof.
  unfold SFltb, SFcompare.
  change (Pos.compare_cont Eq m1 m2) with (Zpos m1 ?= Zpos m2).
  destruct (Z.compare_spec e1 e2);
    [destruct (Z.compare_spec (Zpos m1) (Zpos m2))| |];
    split; intros H'; try discriminate H'; try reflexivity; lia.
Qed.

Lemma gap_below c x y :
  at_least_one x -> at_least_one y -> (1 < c)%R -> gap c x y -> below x y.
Proof.
  intros Ax Ay Hc [-> | (Fx & Fy & Hle)].
  - destruct x as [sx | [|] | | [|] mx ex]; try contradiction.
    + right. split; reflexivity.
    + left. reflexivity.
  - left.
    destruct x as [sx | sx | | [|] m1 e1]; try contradiction;
    destruct y as [sy | sy | | [|] m2 e2]; try contradiction.
    destruct Ax as [H1 _]. destruct Ay as [H2 _].
    apply val_lt_SFltb; trivial. cbn [val] in Hle.
    pose proof (mantissa_val_bounds m1 e1 H1). pose proof (p2_pos e1). nra.
Qed.

Lemma below_inf x : at_least_one x -> below x (S754_infinity false).
Proof.
  intros Ax. destruct x as [sx | [|] | | [|] mx ex]; try contradiction.
  - right. split; reflexivity.
  - left. reflexivity.
Qed.

Lemma below_div_2p30 x y :
  at_least_one x -> at_least_one y -> below x y ->
  below (SFdiv prec emax x (S754_finite false 4503599627370496 (-22)))
        (SFdiv prec emax y (S754_finite false 4503599627370496 (-22))).
Proof.
  intros Ax Ay [Hlt | [-> ->]]; [|right; split; reflexivity].
  destruct x as [sx | [|] | | [|] mx ex]; try contradiction;
  destruct y as [sy | [|] | | [|] my ey]; try contradiction;
  try discriminate Hlt.
  - destruct Ax as [Hdx Hex]. rewrite div_2p30_finite by trivial.
    left. reflexivity.
  - destruct Ax as [Hdx Hex]. destruct Ay as [Hdy Hey].
    rewrite !div_2p30_finite by trivial.
    left. apply SFltb_finite. apply SFltb_finite in Hlt. lia.
Qed.

Lemma finite_or_inf x :
  at_least_one x -> finite x \/ x = S754_infinity false.
Proof.
  destruct x as [sx | [|] | | [|] m e]; try contradiction; intros _.
  - right. reflexivity.
  - left. exact I.
Qed.

Lemma mul_inf_l y :
  at_least_one y -> finite y ->
  SFmul prec emax (S754_infinity false) y = S754_infinity false.
Proof.
  destruct y as [sy | sy | | [|] m e]; try contradiction. reflexivity.
Qed.

Lemma add_inf_l y :
  at_least_one y -> SFadd prec emax (S754_infinity false) y = S754_infinity false.
Proof.
  destruct y as [sy | [|] | | [|] m e]; try contradiction; reflexivity.
Qed.

Lemma add_inf_r x :
  at_least_one x -> SFadd prec emax x (S754_infinity false) = S754_infinity false.
Proof.
  destruct x as [sx | [|] | | [|] m e]; try contradiction; reflexivity.
Qed.

Lemma mul_one_r x :
  at_least_one x -> finite x -> SFmul prec emax x one = x.
Proof.
  intros Ax Fx. destruct x as [sx | sx | | [|] m e]; try contradiction.
  destruct Ax as [Hd He].
  change one with (S754_finite false 4503599627370496 (-52)).
  cbn [SFmul xorb].
  rewrite (bra_exact false (m * 4503599627370496) m 52 (e + -52)); trivial;
    try lia.
  f_equal. lia.
Qed.

Lemma peak_bytes_below xA lh lw A :
  at_least_one lh -> finite lh -> at_least_one lw -> finite lw ->
  repr xA A 0 -> 0 < A < 2 ^ 32 ->
  below (peak_bytes xA lh lw true) (peak_bytes xA lh lw false).
Proof.
  intros Ah Fh Aw Fw RA HA. unfold peak_bytes.
  assert (AxA : at_least_one xA) by (apply (repr_at_least_one xA A 0); trivial; lia).
  assert (FxA : finite xA).
  { destruct xA as [s | s | | s m e]; cbn in RA |- *; trivial; lia. }
  assert (VxA : val xA = IZR A).
  { rewrite (repr_val xA A 0 RA) by lia. change (p2 0) with 1%R. lra. }
  assert (HAr : (0 < IZR A <= 4294967296)%R).
  { change (2 ^ 32) with 4294967296 in HA. split; [apply IZR_lt | apply IZR_le]; lia. }
  assert (P53 : 2 ^ 53 = 9007199254740992) by reflexivity.
  assert (A4 : at_least_one (dyadic 4 0)) by (apply at_least_one_int; lia).
  assert (A2 : at_least_one (dyadic 2 0)) by (apply at_least_one_int; lia).
  assert (AK : at_least_one (dyadic 20000 0)) by (apply at_least_one_int; lia).
  assert (V4 : val (dyadic 4 0) = 4%R) by (apply val_int; lia).
  assert (V2 : val (dyadic 2 0) = 2%R) by (apply val_int; lia).
  assert (VK : val (dyadic 20000 0) = 20000%R) by (apply val_int; lia).
  assert (F4 : finite (dyadic 4 0)) by exact I.
  assert (F2 : finite (dyadic 2 0)) by exact I.
  assert (FK : finite (dyadic 20000 0)) by exact I.
  assert (A1 : at_least_one one) by (apply (at_least_one_int 1); lia).
  assert (AM : at_least_one K_ATTN_STANDARD_MULTIPLIER).
  { change K_ATTN_STANDARD_MULTIPLIER
      with (S754_finite false 5629499534213120 (-52)).
    cbn [at_least_one]. split; [reflexivity | lia]. }
  assert (FM : finite K_ATTN_STANDARD_MULTIPLIER) by exact I.
  assert (VM : val K_ATTN_STANDARD_MULTIPLIER = (5 / 4)%R).
  { unfold K_ATTN_STANDARD_MULTIPLIER.
    rewrite (repr_val _ 5 (-2)); [|apply repr_dyadic; lia|lia].
    change (p2 (-2)) with (/ (2 * (2 * 1)))%R. lra. }
  assert (Hu : (0 < u52 < 1 / 1000000000000)%R).
  { unfold u52. split; [apply Rinv_0_lt_compat; lra|].
    apply (Rmult_lt_reg_l 4503599627370496); [lra|].
    rewrite Rinv_r by lra. lra. }
  (* the latent pixel count *)
  set (N := SFmul prec emax lh lw).
  assert (AN : at_least_one N) by (apply at_least_one_mul; trivial).
  set (Mb := SFmul prec emax (SFmul prec emax N (dyadic 4 0)) (dyadic 2 0)).
  set (Mu := SFmul prec emax N (dyadic 20000 0)).
  assert (AMb : at_least_one Mb) by (repeat apply at_least_one_mul; trivial).
  assert (AMu : at_least_one Mu) by (apply at_least_one_mul; trivial).
  assert (AMs : at_least_one (SFmul prec emax Mu K_ATTN_STANDARD_MULTIPLIER))
    by (apply at_least_one_mul; trivial).
  assert (AMo : at_least_one (SFmul prec emax Mu one))
    by (apply at_least_one_mul; trivial).
  (* when the standard sum is infinite *)
  assert (Hinf : forall Ms,
             at_least_one Ms ->
             SFadd prec emax Ms Mb = S754_infinity false ->
             below (SFadd prec emax xA (SFadd prec emax (SFmul prec emax Mu one) Mb))
                   (SFadd prec emax xA (SFadd prec emax Ms Mb))).
  { intros Ms AMs' Hs. rewrite Hs, add_inf_r by trivial.
    apply below_inf. apply at_least_one_add; trivial.
    apply at_least_one_add; trivial. }
  destruct (finite_or_inf Mb AMb) as [FMb | EMb];
    [|apply Hinf; trivial; rewrite EMb; apply add_inf_r; trivial].
  destruct (finite_or_inf Mu AMu) as [FMu | EMu];
    [|apply Hinf; trivial; rewrite EMu, mul_inf_l by trivial;
      apply add_inf_l; trivial].
  destruct (finite_or_inf N AN) as [FN | EN];
    [|exfalso; unfold Mu in FMu; rewrite EN, mul_inf_l in FMu by trivial;
      exact FMu].
  destruct (finite_or_inf _ AMs) as [FMs | EMs];
    [|apply Hinf; trivial; rewrite EMs; apply add_inf_l; trivial].
  rewrite (mul_one_r Mu AMu FMu) in *.
  (* values *)
  pose proof (at_least_one_val N AN FN) as Hv.
  assert (FN4 : finite (SFmul prec emax N (dyadic 4 0))).
  { destruct (finite_or_inf (SFmul prec emax N (dyadic 4 0))) as [F | E]; trivial.
    { apply at_least_one_mul; trivial. }
    exfalso. unfold Mb in FMb. rewrite E, mul_inf_l in FMb by trivial. exact FMb. }
  assert (AN4 : at_least_one (SFmul prec emax N (dyadic 4 0)))
    by (apply at_least_one_mul; trivial).
  destruct (mul_val N (dyadic 4 0) AN A4 FN F4) as (M4 & E4 & _ & _ & H4 & [_ B4]).
  assert (Vn4 : (val (SFmul prec emax N (dyadic 4 0)) <= (1 + u52) * (val N * 4))%R).
  { pose proof FN4 as F. rewrite H4 in F. destruct (clamp_finite _ _ F) as [C4 _].
    rewrite H4, C4. cbn [val]. rewrite V4 in B4. exact B4. }
  destruct (mul_val _ (dyadic 2 0) AN4 A2 FN4 F2)
    as (M2 & E2 & _ & _ & H2 & [_ B2]).
  fold Mb in H2.
  assert (Vb : (val Mb <= (1 + u52) * ((1 + u52) * (val N * 4) * 2))%R).
  { pose proof FMb as F. rewrite H2 in F. destruct (clamp_finite _ _ F) as [C2 _].
    rewrite H2, C2. cbn [val]. rewrite V2 in B2.
    apply Rle_trans with (1 := B2). apply Rmult_le_compat_l; [lra|].
    apply Rmult_le_compat_r; lra. }
  destruct (mul_val N (dyadic 20000 0) AN AK FN FK)
    as (Mk & Ek & _ & _ & Hk & [Bk1 Bk2]).
  fold Mu in Hk.
  assert (Vu : ((1 - u52) * (val N * 20000) <= val Mu)%R).
  { pose proof FMu as F. rewrite Hk in F. destruct (clamp_finite _ _ F) as [Ck _].
    rewrite Hk, Ck. cbn [val]. rewrite VK in Bk1. exact Bk1. }
  destruct (mul_val Mu K_ATTN_STANDARD_MULTIPLIER AMu AM FMu FM)
    as (Ms & Es & _ & _ & Hs & [Bs _]).
  assert (Vs : ((1 - u52) * (val Mu * (5 / 4))
                <= val (SFmul prec emax Mu K_ATTN_STANDARD_MULTIPLIER))%R).
  { pose proof FMs as F. rewrite Hs in F. destruct (clamp_finite _ _ F) as [Cs _].
    rewrite Hs, Cs. cbn [val]. rewrite VM in Bs. exact Bs. }
  clear H4 B4 H2 B2 Hk Bk1 Bk2 Hs Bs.
  set (vN := val N) in *. set (vb := val Mb) in *. set (vu := val Mu) in *.
  set (vs := val (SFmul prec emax Mu K_ATTN_STANDARD_MULTIPLIER)) in *.
  (* the peak activation *)
  assert (Gp : gap (6 / 5) (SFadd prec emax Mu Mb)
                   (SFadd prec emax (SFmul prec emax Mu K_ATTN_STANDARD_MULTIPLIER) Mb)).
  { apply add_gap; trivial; [lra|]. fold vu vb vs.
    pose proof (at_least_one_val Mu AMu FMu) as Hvu. fold vu in Hvu.
    pose proof (at_least_one_val Mb AMb FMb) as Hvb. fold vb in Hvb.
    assert (Vs' : ((1 - 1 / 1000000000000) * (vu * (5 / 4)) <= vs)%R) by nra.
    assert (Vu' : ((1 - 1 / 1000000000000) * (vN * 20000) <= vu)%R) by nra.
    assert (Vb1 : ((1 + u52) * (vN * 4) <= (1 + 1 / 1000000000000) * (vN * 4))%R)
      by nra.
    assert (Vb' : (vb <= (1 + 1 / 1000000000000)
                         * ((1 + 1 / 1000000000000) * (vN * 4) * 2))%R) by nra.
    assert (L1 : ((1 + u52) * (vu + vb) <= (1 + 1 / 1000000000000) * (vu + vb))%R)
      by nra.
    assert (L2 : ((1 - 1 / 1000000000000) * (vs + vb) <= (1 - u52) * (vs + vb))%R)
      by nra.
    set (X := ((1 + u52) * (vu + vb))%R) in *.
    set (Y := ((1 - u52) * (vs + vb))%R) in *. clearbody X Y. lra. }
  pose proof (at_least_one_add Mu Mb AMu AMb) as [APo _].
  pose proof (at_least_one_add _ Mb AMs AMb) as [APs _].
  destruct Gp as [Ep | (FPo & FPs & Gp)].
  { rewrite Ep, add_inf_r by trivial. apply below_inf.
    apply at_least_one_add; trivial. }
  destruct (add_val Mu Mb AMu AMb FMu FMb) as (Mo & Eo & _ & _ & Ho & [Bo _]).
  assert (Vo : ((1 - u52) * (vu + vb) <= val (SFadd prec emax Mu Mb))%R).
  { pose proof FPo as F. rewrite Ho in F. destruct (clamp_finite _ _ F) as [Co _].
    rewrite Ho, Co. cbn [val]. exact Bo. }
  clear Ho Bo.
  set (vo := val (SFadd prec emax Mu Mb)) in *.
  set (vp := val (SFadd prec emax
                    (SFmul prec emax Mu K_ATTN_STANDARD_MULTIPLIER) Mb)) in *.
  assert (Hvb : (0 <= vb)%R).
  { pose proof (at_least_one_val Mb AMb FMb). fold vb in H. lra. }
  apply (gap_below (1 + 1 / 10000000)).
  - apply at_least_one_add; trivial.
  - apply at_least_one_add; trivial.
  - lra.
  - apply add_gap; trivial; [lra|]. rewrite VxA. fold vo vp.
    pose proof (at_least_one_val Mu AMu FMu) as Hvu. fold vu in Hvu.
    assert (Vo' : ((1 - 1 / 1000000000000) * (vu + vb) <= vo)%R) by nra.
    assert (Hvo : (0 <= vo)%R) by nra.
    assert (Hvp : (0 <= vp)%R) by nra.
    assert (L1 : ((1 + u52) * (IZR A + vo)
                  <= (1 + 1 / 1000000000000) * (IZR A + vo))%R) by nra.
    assert (L2 : ((1 - 1 / 1000000000000) * (IZR A + vp)
                  <= (1 - u52) * (IZR A + vp))%R) by nra.
    set (X := ((1 + u52) * (IZR A + vo))%R) in *.
    set (Y := ((1 - u52) * (IZR A + vp))%R) in *. clearbody X Y.
    assert (Vu' : ((1 - 1 / 1000000000000) * (vN * 20000) <= vu)%R) by nra.
    lra.
Qed.

Lemma truediv_int_finite a b x :
  truediv (Int a) (Int b) = Ok (Float x) -> at_least_one x -> finite x.
Proof.
  cbn [truediv]. unfold int_truediv.
  destruct (b =? 0); [discriminate|].
  destruct (SFdiv prec emax (exact_int a) (exact_int b)) as [s | s | | s m e];
    cbn [overflow_check bind]; intros H; inversion H; subst; cbn;
    trivial.
Qed.

Lemma at_least_one_multiplier (opt : bool) :
  at_least_one (if opt then one else K_ATTN_STANDARD_MULTIPLIER).
Proof.
  destruct opt.
  - change one with (S754_finite false 4503599627370496 (-52)).
    cbn [at_least_one]. split; [reflexivity | lia].
  - change K_ATTN_STANDARD_MULTIPLIER
      with (S754_finite false 5629499534213120 (-52)).
    cbn [at_least_one]. split; [reflexivity | lia].
Qed.

Lemma peak_bytes_at_least_one xA lh lw opt :
  at_least_one xA -> at_least_one lh -> at_least_one lw ->
  at_least_one (peak_bytes xA lh lw opt).
Proof.
  intros AxA Ah Aw. unfold peak_bytes.
  assert (A4 : at_least_one (dyadic 4 0))
    by (apply at_least_one_int; change (2 ^ 53) with 9007199254740992; lia).
  assert (A2 : at_least_one (dyadic 2 0))
    by (apply at_least_one_int; change (2 ^ 53) with 9007199254740992; lia).
  assert (AK : at_least_one (dyadic 20000 0))
    by (apply at_least_one_int; change (2 ^ 53) with 9007199254740992; lia).
  pose proof (at_least_one_multiplier opt) as AM.
  apply at_least_one_add; trivial.
  apply at_least_one_add; repeat apply at_least_one_mul; trivial.
Qed.

(** The two attention modes on the same valid input: the optimized
    estimate is strictly below the standard one, or both are [+inf], or
    both calls raise OverflowError at the first division. *)
Theorem f_estimate_optimized_below h w pl :
  valid_input h w pl ->
  (exists g_opt g_std,
     f_estimate h w pl true = Ok (Float g_opt, "Optimized (Linear Scaling)") /\
     f_estimate h w pl false = Ok (Float g_std, "Standard (Quadratic Overhead)") /\
     below g_opt g_std)
  \/ (f_estimate h w pl true = Raise OverflowError /\
      f_estimate h w pl false = Raise OverflowError /\
      (2 ^ 1026 <= h \/ 2 ^ 1026 <= w)).
Proof.
  intros (Hh & Hw & Hpl).
  destruct (truediv_8_cases h Hh) as [(lh & ih & Hlh & Ah & Hih & Hnh) | [Rh Bh]];
    [|right; repeat split; [apply f_estimate_raise_h; trivial ..| left; trivial]].
  destruct (truediv_8_cases w Hw) as [(lw & iw & Hlw & Aw & Hiw & Hnw) | [Rw Bw]];
    [|right; repeat split;
      [apply (f_estimate_raise_w h w pl _ (Float lh)); trivial ..
      | right; trivial]].
  pose proof (truediv_int_finite _ _ _ Hlh Ah) as Fh.
  pose proof (truediv_int_finite _ _ _ Hlw Aw) as Fw.
  set (A := C_WEIGHTS_BYTES + C_OVERHEAD_BYTES + C_L_FACTOR * pl).
  assert (HA : 0 < A < 2 ^ 32).
  { unfold A, C_WEIGHTS_BYTES, C_OVERHEAD_BYTES, C_L_FACTOR.
    change (2 ^ 32) with 4294967296. lia. }
  destruct (float_of_int_exact A) as (xA & HxA & RxA).
  { change (2 ^ 53) with 9007199254740992.
    change (2 ^ 32) with 4294967296 in HA. lia. }
  assert (AxA : at_least_one xA)
    by (apply (repr_at_least_one xA A 0); trivial; lia).
  left. do 2 eexists.
  split; [exact (f_estimate_unfold h w pl true lh ih lw iw xA
                   Hlh Hih Hnh Hlw Hiw Hnw HxA)|].
  split; [exact (f_estimate_unfold h w pl false lh ih lw iw xA
                   Hlh Hih Hnh Hlw Hiw Hnw HxA)|].
  change (dyadic (1024 ^ 3) 0) with (S754_finite false 4503599627370496 (-22)).
  apply below_div_2p30; try (apply peak_bytes_at_least_one; trivial).
  apply (peak_bytes_below xA lh lw A); trivial.
Qed.

(** * Monotonicity of the arithmetic on doubles *)

(** One more shift keeps the quotient and the location of the remainder of
    [N] by the doubled divisor. *)
Lemma shr_1_loc N d mrs :
  0 <= N -> 0 < d ->
  shr_m mrs = N / d ->
  loc_of_shr_record mrs = loc_of_rem (N mod d) d ->
  shr_m (shr_1 mrs) = N / (d * 2) /\
  loc_of_shr_record (shr_1 mrs) = loc_of_rem (N mod (d * 2)) (d * 2).
Proof.
  intros HN Hd Hq Hl.
  assert (Hq0 : 0 <= shr_m mrs) by (rewrite Hq; apply Z.div_pos; lia).
  split.
  { rewrite shr_1_m, Hq, Z.div_div by lia. reflexivity. }
  assert (Er : N mod (d * 2) = N mod d + d * (shr_m mrs mod 2)).
  { rewrite Hq. apply Z.rem_mul_r; lia. }
  pose proof (Z.mod_pos_bound N d Hd) as Br.
  rewrite Er. set (rem := N mod d) in *. clearbody rem.
  unfold loc_of_rem in *.
  destruct mrs as [q r s]. cbn [shr_m] in *.
  assert (Hs : orb r s = negb (rem =? 0)).
  { destruct (Z.eqb_spec rem 0); destruct r, s; cbn in Hl |- *;
      try discriminate Hl; reflexivity. }
  destruct q as [| [p | p |] | p]; try lia; cbn [shr_1 loc_of_shr_record];
    rewrite Hs;
    try rewrite (Pos2Z.inj_xI p); try rewrite (Pos2Z.inj_xO p).
  - change (0 mod 2) with 0.
    destruct (Z.eqb_spec rem 0), (Z.eqb_spec (rem + d * 0) 0); cbn [negb];
      try lia; trivial.
    f_equal. symmetry. apply Z.compare_lt_iff. lia.
  - replace ((2 * Z.pos p + 1) mod 2) with 1
      by (apply (Z.mod_unique _ 2 (Zpos p)); lia).
    destruct (Z.eqb_spec rem 0), (Z.eqb_spec (rem + d * 1) 0); cbn [negb];
      try lia; f_equal; symmetry;
      [apply Z.compare_eq_iff | apply Z.compare_gt_iff]; lia.
  - replace ((2 * Z.pos p) mod 2) with 0
      by (apply (Z.mod_unique _ 2 (Zpos p)); lia).
    destruct (Z.eqb_spec rem 0), (Z.eqb_spec (rem + d * 0) 0); cbn [negb];
      try lia; trivial.
    f_equal. symmetry. apply Z.compare_lt_iff. lia.
  - change (1 mod 2) with 1.
    destruct (Z.eqb_spec rem 0), (Z.eqb_spec (rem + d * 1) 0); cbn [negb];
      try lia; f_equal; symmetry;
      [apply Z.compare_eq_iff | apply Z.compare_gt_iff]; lia.
Qed.

Lemma loc_of_shr_record_of_loc m l :
  loc_of_shr_record (shr_record_of_loc m l) = l.
Proof. destruct l as [| [| |]]; reflexivity. Qed.

Lemma shr_iter_loc N D p :
  0 <= N -> 0 < D ->
  let mrs := iter_pos shr_1 p
               (shr_record_of_loc (N / D) (loc_of_rem (N mod D) D)) in
  shr_m mrs = N / (D * 2 ^ Zpos p) /\
  loc_of_shr_record mrs
  = loc_of_rem (N mod (D * 2 ^ Zpos p)) (D * 2 ^ Zpos p).
Proof.
  intros HN HD. cbv zeta. rewrite iter_pos_eq.
  induction p as [| p IH] using Pos.peano_ind.
  - cbn [Pos.iter]. change (2 ^ 1) with 2.
    apply shr_1_loc; trivial.
    + apply shr_m_of_loc.
    + apply loc_of_shr_record_of_loc.
  - rewrite Pos.iter_succ, Pos2Z.inj_succ, Z.pow_succ_r by lia.
    destruct IH as [Hq Hl].
    replace (D * (2 * 2 ^ Zpos p)) with (D * 2 ^ Zpos p * 2) by lia.
    pose proof (pow2_pos (Zpos p) ltac:(lia)).
    apply shr_1_loc; trivial. nia.
Qed.

Lemma round_nearest_even_rem m d :
  0 < d ->
  round_nearest_even (m / d) (loc_of_rem (m mod d) d) = div_nearest_even m d.
Proof.
  intros Hd. unfold loc_of_rem, div_nearest_even.
  destruct (Z.eqb_spec (m mod d) 0) as [E | E]; cbn [round_nearest_even].
  - rewrite E. change (2 * 0) with 0.
    destruct (Z.compare_spec 0 d); trivial; lia.
  - destruct (2 * (m mod d) ?= d); reflexivity.
Qed.

(** [binary_round_aux] on the quotient of [N] by [D] with the location of
    the remainder: the nearest 53-digit mantissa to [N / (D * 2^k)], ties
    to even. *)
Lemma bra_nearest_div N D q e :
  0 < D -> Zpos q = N / D ->
  53 <= dg q -> -1074 <= e + dg q - 53 ->
  let k := dg q - 53 in
  let R := div_nearest_even N (D * 2 ^ k) in
  2 ^ 52 <= R <= 2 ^ 53 /\
  binary_round_aux prec emax false (Zpos q) e (loc_of_rem (N mod D) D)
  = if R =? 2 ^ 53 then clamp 4503599627370496 (e + k + 1)
    else clamp (Z.to_pos R) (e + k).
Proof.
  intros HD Hq Hd He k R.
  assert (HN : 0 <= N).
  { destruct (Z_lt_ge_dec N 0) as [Hneg|]; [|lia].
    pose proof (Z.div_lt_upper_bound N D 0 HD ltac:(lia)). lia. }
  pose proof (truncated_mantissa_bounds q Hd) as Hb. fold k in Hb.
  pose proof (pow2_pos k ltac:(unfold k; lia)) as HP.
  assert (HDk : 0 < D * 2 ^ k) by nia.
  assert (Hqk : N / (D * 2 ^ k) = Zpos q / 2 ^ k)
    by (rewrite Hq, Z.div_div by lia; reflexivity).
  assert (HR : round_nearest_even (N / (D * 2 ^ k))
                 (loc_of_rem (N mod (D * 2 ^ k)) (D * 2 ^ k)) = R)
    by (apply round_nearest_even_rem; trivial).
  pose proof (round_nearest_even_bounds (N / (D * 2 ^ k))
                (loc_of_rem (N mod (D * 2 ^ k)) (D * 2 ^ k))) as HB.
  rewrite HR, Hqk in HB.
  split; [lia|].
  unfold binary_round_aux, shr_fexp at 1. cbn [Zdigits2]. fold (dg q).
  rewrite fexp_normal by lia.
  replace (dg q + e - 53 - e) with k by (unfold k; lia).
  assert (Hshr : exists mrs,
             shr (shr_record_of_loc (Zpos q) (loc_of_rem (N mod D) D)) e k
             = (mrs, e + k) /\
             round_nearest_even (shr_m mrs) (loc_of_shr_record mrs) = R).
  { destruct k as [| p | p] eqn:Ek; try lia; cbn [shr].
    - eexists. split; [f_equal; lia|].
      rewrite shr_m_of_loc, loc_of_shr_record_of_loc, <- HR.
      rewrite Z.pow_0_r, Z.mul_1_r, Hq. reflexivity.
    - eexists. split; [reflexivity|].
      rewrite Hq. destruct (shr_iter_loc N D p HN HD) as [Hq' Hl].
      rewrite Hq', Hl. exact HR. }
  destruct Hshr as (mrs & -> & ->).
  change (2 ^ 52) with 4503599627370496 in *.
  change (2 ^ 53) with 9007199254740992 in *.
  destruct (Z.eqb_spec R 9007199254740992) as [Hc | Hc].
  - rewrite Hc.
    rewrite (shr_fexp_exact 9007199254740992 4503599627370496 1 (e + k))
      by (try reflexivity; lia).
    cbn [shr_m]. unfold clamp. reflexivity.
  - destruct R as [| r | r] eqn:ER; try lia.
    assert (Hdr : dg r = 53).
    { apply dg_unique. change (2 ^ (53 - 1)) with 4503599627370496.
      change (2 ^ 53) with 9007199254740992. lia. }
    rewrite (shr_fexp_exact r r 0 (e + k)) by (trivial; lia).
    cbn [shr_m Z.to_pos]. rewrite Z.add_0_r. unfold clamp. reflexivity.
Qed.

Lemma p2_lt_inv a b : (p2 a < p2 b)%R -> a < b.
Proof.
  intros H. destruct (Z_lt_ge_dec a b) as [|Hge]; trivial. exfalso.
  pose proof (p2_le b a ltac:(lia)). lra.
Qed.

Lemma clamp_le M1 E1 M2 E2 :
  E1 < E2 \/ E1 = E2 /\ Zpos M1 <= Zpos M2 ->
  SFleb (clamp M1 E1) (clamp M2 E2) = true.
Proof.
  intros H. unfold clamp.
  destruct (Z.leb_spec E2 971); destruct (Z.leb_spec E1 971);
    try reflexivity; try lia.
  apply SFleb_finite. exact H.
Qed.

(** Rounding is monotone: quotients by the same [D]. *)
Lemma bra_div_mono N1 N2 D q1 q2 e1 e2 :
  0 < D -> Zpos q1 = N1 / D -> Zpos q2 = N2 / D ->
  53 <= dg q1 -> -1074 <= e1 + dg q1 - 53 ->
  53 <= dg q2 -> -1074 <= e2 + dg q2 - 53 ->
  (IZR N1 * p2 e1 <= IZR N2 * p2 e2)%R ->
  SFleb (binary_round_aux prec emax false (Zpos q1) e1 (loc_of_rem (N1 mod D) D))
        (binary_round_aux prec emax false (Zpos q2) e2 (loc_of_rem (N2 mod D) D))
  = true.
Proof.
  intros HD Hq1 Hq2 Hd1 He1 Hd2 He2 Hv.
  destruct (bra_nearest_div N1 D q1 e1 HD Hq1 Hd1 He1) as [HR1 ->].
  destruct (bra_nearest_div N2 D q2 e2 HD Hq2 Hd2 He2) as [HR2 ->].
  set (k1 := dg q1 - 53) in *. set (k2 := dg q2 - 53) in *.
  set (R1 := div_nearest_even N1 (D * 2 ^ k1)) in *.
  set (R2 := div_nearest_even N2 (D * 2 ^ k2)) in *.
  assert (HN1 : Zpos q1 * D <= N1).
  { rewrite Hq1, Z.mul_comm. apply Z.mul_div_le; lia. }
  assert (HN2 : N2 < D * (Zpos q2 + 1)).
  { rewrite Hq2. pose proof (Z.mul_succ_div_gt N2 D HD). lia. }
  (* the magnitudes are ordered *)
  assert (Ht : dg q1 + e1 <= dg q2 + e2).
  { pose proof (dg_bounds q1) as [Bl1 _]. pose proof (dg_bounds q2) as [_ Bu2].
    assert (L1 : 2 ^ (dg q1 - 1) * D <= N1) by nia.
    assert (L2 : N2 <= D * 2 ^ dg q2) by nia.
    apply IZR_le in L1, L2. rewrite mult_IZR in L1, L2.
    rewrite <- p2_IZR in L1, L2 by lia.
    pose proof (p2_pos e1). pose proof (p2_pos e2).
    assert (HDR : (0 < IZR D)%R) by (apply IZR_lt; lia).
    assert (L : (p2 (dg q1 - 1 + e1) < p2 (dg q2 + e2))%R).
    { rewrite !p2_add.
      assert (L3 : (IZR N2 < IZR D * p2 (dg q2))%R).
      { assert (N2 < D * 2 ^ dg q2) by nia.
        apply IZR_lt in H1. rewrite mult_IZR, <- p2_IZR in H1 by lia. exact H1. }
      set (a := p2 (dg q1 - 1)) in *. set (b := p2 (dg q2)) in *.
      set (x := p2 e1) in *. set (y := p2 e2) in *.
      set (n1 := IZR N1) in *. set (n2 := IZR N2) in *. set (d := IZR D) in *.
      clearbody a b x y n1 n2 d.
      assert (a * d * x <= n1 * x)%R by (apply Rmult_le_compat_r; lra).
      assert (n2 * y < d * b * y)%R by (apply Rmult_lt_compat_r; lra).
      assert (d * (a * x) < d * (b * y))%R by lra.
      apply (Rmult_lt_reg_l d); trivial. }
    apply p2_lt_inv in L. lia. }
  assert (HN10 : 0 <= N1) by nia.
  assert (HR : dg q1 + e1 = dg q2 + e2 -> R1 <= R2).
  { intros Et.
    pose proof (pow2_pos k1 ltac:(unfold k1; lia)) as HP1.
    pose proof (pow2_pos k2 ltac:(unfold k2; lia)) as HP2.
    unfold R1, R2.
    rewrite <- (div_nearest_even_scale N1 (D * 2 ^ k1) (2 ^ k2)) by nia.
    rewrite <- (div_nearest_even_scale N2 (D * 2 ^ k2) (2 ^ k1)) by nia.
    replace (D * 2 ^ k2 * 2 ^ k1) with (D * 2 ^ k1 * 2 ^ k2) by ring.
    apply div_nearest_even_mono; [|nia].
    split; [nia|]. apply le_IZR. rewrite !mult_IZR.
    rewrite <- !p2_IZR by (unfold k1, k2; lia).
    replace e1 with (e2 + k2 - k1) in Hv by (unfold k1, k2; lia).
    replace (e2 + k2 - k1) with ((e2 - k1) + k2) in Hv by lia.
    replace e2 with ((e2 - k1) + k1) in Hv at 2 by lia.
    rewrite !p2_add in Hv. pose proof (p2_pos (e2 - k1)).
    pose proof (p2_pos k1). pose proof (p2_pos k2).
    set (a := IZR N1) in *. set (b := IZR N2) in *.
    set (x := p2 (e2 - k1)) in *. set (y := p2 k1) in *. set (z := p2 k2) in *.
    clearbody a b x y z.
    apply (Rmult_le_reg_l x); trivial. nra. }
  change (2 ^ 52) with 4503599627370496 in *.
  change (2 ^ 53) with 9007199254740992 in *.
  destruct (Z.eqb_spec R1 9007199254740992) as [C1 | C1];
    destruct (Z.eqb_spec R2 9007199254740992) as [C2 | C2];
    apply clamp_le; unfold k1, k2 in *;
    try rewrite Z2Pos.id by lia.
  - lia.
  - destruct (Z.eq_dec (dg q1 + e1) (dg q2 + e2)) as [Et | Et].
    + specialize (HR Et). lia.
    + destruct (Z.eq_dec (dg q1 + e1 + 1) (dg q2 + e2)); [right | left]; lia.
  - left. lia.
  - destruct (Z.eq_dec (dg q1 + e1) (dg q2 + e2)) as [Et | Et].
    + specialize (HR Et). right. lia.
    + left. lia.
Qed.

(** Rounding of exact mantissas is monotone. *)
Lemma bra_mono m1 e1 m2 e2 :
  53 <= dg m1 -> -1074 <= e1 + dg m1 - 53 ->
  53 <= dg m2 -> -1074 <= e2 + dg m2 - 53 ->
  (IZR (Zpos m1) * p2 e1 <= IZR (Zpos m2) * p2 e2)%R ->
  SFleb (binary_round_aux prec emax false (Zpos m1) e1 loc_Exact)
        (binary_round_aux prec emax false (Zpos m2) e2 loc_Exact) = true.
Proof.
  intros Hd1 He1 Hd2 He2 Hv.
  pose proof (bra_div_mono (Zpos m1) (Zpos m2) 1 m1 m2 e1 e2) as H.
  rewrite !Z.div_1_r, !Z.mod_1_r in H.
  apply H; trivial; lia.
Qed.

Lemma SFleb_val m1 e1 m2 e2 :
  dg m1 = 53 -> dg m2 = 53 ->
  SFleb (S754_finite false m1 e1) (S754_finite false m2 e2) = true ->
  (IZR (Zpos m1) * p2 e1 <= IZR (Zpos m2) * p2 e2)%R.
Proof.
  intros H1 H2 Hle. apply SFleb_finite in Hle.
  pose proof (mantissa_val_bounds m1 e1 H1).
  pose proof (mantissa_val_bounds m2 e2 H2).
  destruct Hle as [Hlt | [-> Hm]].
  - pose proof (p2_le (e1 + 1) e2 ltac:(lia)) as Hp. rewrite p2_succ in Hp. lra.
  - apply IZR_le in Hm. pose proof (p2_pos e2). nra.
Qed.

Lemma SFleb_inf x : at_least_one x -> SFleb x (S754_infinity false) = true.
Proof. destruct x as [s | [|] | | [|] m e]; try contradiction; reflexivity. Qed.

Lemma SFmul_bra mx ex my ey :
  dg mx = 53 -> dg my = 53 -> -52 <= ex -> -52 <= ey ->
  53 <= dg (mx * my) /\ -1074 <= ex + ey + dg (mx * my) - 53 /\
  SFmul prec emax (S754_finite false mx ex) (S754_finite false my ey)
  = binary_round_aux prec emax false (Zpos (mx * my)) (ex + ey) loc_Exact.
Proof.
  intros Hdx Hdy Hex Hey.
  pose proof (dg_mul_lower mx my Hdx Hdy) as Hd.
  split; [lia|]. split; [lia|]. reflexivity.
Qed.

Lemma SFadd_bra mx ex my ey :
  dg mx = 53 -> dg my = 53 -> -52 <= ex -> -52 <= ey ->
  exists p e,
    53 <= dg p /\ -1074 <= e + dg p - 53 /\
    SFadd prec emax (S754_finite false mx ex) (S754_finite false my ey)
    = binary_round_aux prec emax false (Zpos p) e loc_Exact /\
    (IZR (Zpos p) * p2 e = IZR (Zpos mx) * p2 ex + IZR (Zpos my) * p2 ey)%R.
Proof.
  intros Hdx Hdy Hex Hey. cbn [SFadd cond_Zopp].
  set (ez := Z.min ex ey).
  rewrite !shl_align_fst by (unfold ez; lia).
  pose proof (pow2_pos (ex - ez) ltac:(unfold ez; lia)) as HPx.
  pose proof (pow2_pos (ey - ez) ltac:(unfold ez; lia)) as HPy.
  assert (HS : 0 < Zpos mx * 2 ^ (ex - ez) + Zpos my * 2 ^ (ey - ez)) by nia.
  destruct (Zpos mx * 2 ^ (ex - ez) + Zpos my * 2 ^ (ey - ez))
    as [| p | p] eqn:Ep; try lia.
  cbn [binary_normalize]. unfold binary_round. fold (dg p).
  assert (Hdp : 53 + (ex - ez) <= dg p).
  { replace (53 + (ex - ez)) with (52 + (ex - ez) + 1) by lia.
    apply (dg_ge p (52 + (ex - ez))); [unfold ez; lia|].
    rewrite Z.pow_add_r by (unfold ez; lia).
    pose proof (dg_bounds mx) as [Bl _]. rewrite Hdx in Bl.
    change (53 - 1) with 52 in Bl. nia. }
  rewrite fexp_normal by (unfold ez in *; lia).
  rewrite shl_align_id by (unfold ez in *; lia).
  exists p, ez. split; [unfold ez in *; lia|]. split; [unfold ez in *; lia|].
  split; [reflexivity|].
  rewrite <- Ep, plus_IZR, !mult_IZR.
  rewrite <- !p2_IZR by (unfold ez; lia).
  rewrite Rmult_plus_distr_r, !Rmult_assoc, <- !p2_add.
  do 2 f_equal; f_equal; lia.
Qed.

Lemma mul_mono x x' y y' :
  at_least_one x -> at_least_one x' -> at_least_one y -> at_least_one y' ->
  SFleb x x' = true -> SFleb y y' = true ->
  SFleb (SFmul prec emax x y) (SFmul prec emax x' y') = true.
Proof.
  intros Ax Ax' Ay Ay' Hx Hy.
  pose proof (at_least_one_mul x y Ax Ay) as Axy.
  destruct x' as [s | [|] | | [|] mx' ex']; try contradiction.
  { replace (SFmul prec emax (S754_infinity false) y') with (S754_infinity false)
      by (destruct y' as [s | [|] | | [|] m e]; try contradiction; reflexivity).
    apply SFleb_inf; trivial. }
  destruct y' as [s | [|] | | [|] my' ey']; try contradiction.
  { apply SFleb_inf; trivial. }
  destruct x as [s | [|] | | [|] mx ex]; try contradiction;
    [discriminate Hx|].
  destruct y as [s | [|] | | [|] my ey]; try contradiction;
    [discriminate Hy|].
  destruct Ax as [Hdx Hex]. destruct Ay as [Hdy Hey].
  destruct Ax' as [Hdx' Hex']. destruct Ay' as [Hdy' Hey'].
  destruct (SFmul_bra mx ex my ey) as (D1 & B1 & ->); trivial; try lia.
  destruct (SFmul_bra mx' ex' my' ey') as (D2 & B2 & ->); trivial; try lia.
  apply bra_mono; trivial; try lia.
  apply SFleb_val in Hx; trivial. apply SFleb_val in Hy; trivial.
  rewrite !Pos2Z.inj_mul, !mult_IZR, !p2_add.
  pose proof (p2_pos ex). pose proof (p2_pos ey).
  pose proof (p2_pos ex'). pose proof (p2_pos ey').
  assert (0 < IZR (Zpos mx))%R by (apply IZR_lt; lia).
  assert (0 < IZR (Zpos my))%R by (apply IZR_lt; lia).
  assert (0 < IZR (Zpos mx'))%R by (apply IZR_lt; lia).
  assert (0 < IZR (Zpos my'))%R by (apply IZR_lt; lia).
  set (a := IZR (Zpos mx)) in *. set (b := IZR (Zpos my)) in *.
  set (a' := IZR (Zpos mx')) in *. set (b' := IZR (Zpos my')) in *.
  set (u := (a * p2 ex)%R) in *. set (v := (b * p2 ey)%R) in *.
  set (u' := (a' * p2 ex')%R) in *. set (v' := (b' * p2 ey')%R) in *.
  replace (a * b * (p2 ex * p2 ey))%R with (u * v)%R by (unfold u, v; ring).
  replace (a' * b' * (p2 ex' * p2 ey'))%R with (u' * v')%R by (unfold u', v'; ring).
  assert (0 < u)%R by (unfold u; nra). assert (0 < v)%R by (unfold v; nra).
  clearbody u v u' v'. nra.
Qed.

Lemma add_mono x x' y y' :
  at_least_one x -> at_least_one x' -> at_least_one y -> at_least_one y' ->
  SFleb x x' = true -> SFleb y y' = true ->
  SFleb (SFadd prec emax x y) (SFadd prec emax x' y') = true.
Proof.
  intros Ax Ax' Ay Ay' Hx Hy.
  destruct (at_least_one_add x y Ax Ay) as [Axy _].
  destruct x' as [s | [|] | | [|] mx' ex']; try contradiction.
  { rewrite add_inf_l by trivial. apply SFleb_inf; trivial. }
  destruct y' as [s | [|] | | [|] my' ey']; try contradiction.
  { rewrite add_inf_r by trivial. apply SFleb_inf; trivial. }
  destruct x as [s | [|] | | [|] mx ex]; try contradiction;
    [discriminate Hx|].
  destruct y as [s | [|] | | [|] my ey]; try contradiction;
    [discriminate Hy|].
  destruct Ax as [Hdx Hex]. destruct Ay as [Hdy Hey].
  destruct Ax' as [Hdx' Hex']. destruct Ay' as [Hdy' Hey'].
  destruct (SFadd_bra mx ex my ey) as (p1 & e1 & D1 & B1 & -> & V1);
    trivial; try lia.
  destruct (SFadd_bra mx' ex' my' ey') as (p2' & e2 & D2 & B2 & -> & V2);
    trivial; try lia.
  apply bra_mono; trivial.
  apply SFleb_val in Hx; trivial. apply SFleb_val in Hy; trivial.
  rewrite V1, V2. lra.
Qed.

(** [h / 8] for a valid dimension is the rounding of the integer
    quotient. *)
Lemma latent_rounds h x :
  valid_dimension h -> truediv (Int h) (Int 8) = Ok (Float x) ->
  exists m e,
    53 <= dg m /\ -1074 <= e + dg m - 53 /\
    x = binary_round_aux prec emax false (Zpos m) e loc_Exact /\
    (IZR (Zpos m) * p2 e = IZR (h / 8))%R.
Proof.
  intros [Hpos Hh] Hx.
  pose proof (Z_div_exact_2 h 8 ltac:(lia) Hh) as Eh.
  set (a := h / 8) in *.
  destruct (Z_lt_ge_dec a (2 ^ 53)) as [Hs | Hl].
  - destruct (latent_of_multiple h a Eh ltac:(lia)) as (x' & i & Hx' & Rx & _).
    rewrite Hx in Hx'. injection Hx' as <-.
    pose proof (repr_val x a 0 Rx ltac:(lia)) as Hv.
    destruct x as [s | s | | s m e]; try contradiction.
    { cbn [repr] in Rx. lia. }
    pose proof (repr_finite_inv _ _ _ _ _ Rx)
      as (Hd & He & Hke & Hm & Hz0 & Hs' & Hc & Hl).
    assert (Hsf : (a <? 0) = false) by (apply Z.ltb_ge; lia).
    rewrite Hsf in Hs'. subst s.
    exists m, e. split; [lia|]. split; [lia|]. split.
    + rewrite (bra_exact false m m 0 e); try lia; trivial.
      f_equal. lia.
    + cbn [val] in Hv. rewrite Hv. change (p2 0) with 1%R. ring.
  - assert (Hpa : Zpos (Z.to_pos a) = a).
    { apply Z2Pos.id. change (2 ^ 53) with 9007199254740992 in Hl. lia. }
    assert (Hd : 54 <= dg (Z.to_pos a)).
    { apply (dg_ge _ 53); [lia|]. rewrite Hpa. lia. }
    cbn [truediv] in Hx. unfold int_truediv in Hx. cbn [Z.eqb] in Hx.
    destruct h as [| p | p]; try lia. cbn [exact_int] in Hx.
    rewrite (SFdiv_8_bra false p (Z.to_pos a)) in Hx by (trivial; lia).
    exists (Z.to_pos a), 0. split; [lia|]. split; [lia|]. split.
    + destruct (binary_round_aux prec emax false (Zpos (Z.to_pos a)) 0 loc_Exact);
        cbn [overflow_check bind] in Hx; try discriminate Hx;
        injection Hx as <-; reflexivity.
    + rewrite Hpa. change (p2 0) with 1%R. ring.
Qed.

Lemma latent_mono h1 h2 x1 x2 :
  valid_dimension h1 -> valid_dimension h2 -> h1 <= h2 ->
  truediv (Int h1) (Int 8) = Ok (Float x1) ->
  truediv (Int h2) (Int 8) = Ok (Float x2) ->
  SFleb x1 x2 = true.
Proof.
  intros V1 V2 Hle H1 H2.
  destruct (latent_rounds h1 x1 V1 H1) as (m1 & e1 & D1 & B1 & -> & W1).
  destruct (latent_rounds h2 x2 V2 H2) as (m2 & e2 & D2 & B2 & -> & W2).
  apply bra_mono; trivial. rewrite W1, W2. apply IZR_le.
  apply Z.div_le_mono; lia.
Qed.

Lemma SFleb_refl x : at_least_one x -> SFleb x x = true.
Proof.
  destruct x as [s | [|] | | [|] m e]; try contradiction; intros _;
    [reflexivity|].
  apply SFleb_finite. right. split; lia.
Qed.

Lemma peak_bytes_mono xA lh lh' lw opt :
  at_least_one xA -> at_least_one lh -> at_least_one lh' -> at_least_one lw ->
  SFleb lh lh' = true ->
  SFleb (peak_bytes xA lh lw opt) (peak_bytes xA lh' lw opt) = true.
Proof.
  intros AxA Ah Ah' Aw Hle. unfold peak_bytes.
  assert (A4 : at_least_one (dyadic 4 0))
    by (apply at_least_one_int; change (2 ^ 53) with 9007199254740992; lia).
  assert (A2 : at_least_one (dyadic 2 0))
    by (apply at_least_one_int; change (2 ^ 53) with 9007199254740992; lia).
  assert (AK : at_least_one (dyadic 20000 0))
    by (apply at_least_one_int; change (2 ^ 53) with 9007199254740992; lia).
  pose proof (at_least_one_multiplier opt) as AM.
  assert (HN : SFleb (SFmul prec emax lh lw) (SFmul prec emax lh' lw) = true)
    by (apply mul_mono; trivial; apply SFleb_refl; trivial).
  pose proof (at_least_one_mul lh lw Ah Aw) as AN.
  pose proof (at_least_one_mul lh' lw Ah' Aw) as AN'.
  apply add_mono; trivial;
    try (apply at_least_one_add; repeat apply at_least_one_mul; trivial).
  - apply SFleb_refl; trivial.
  - apply add_mono; repeat apply at_least_one_mul; trivial;
      repeat (apply mul_mono; trivial;
              try (repeat apply at_least_one_mul; trivial);
              try (apply SFleb_refl; trivial)).
Qed.

Lemma div_2p30_mono x y :
  at_least_one x -> at_least_one y -> SFleb x y = true ->
  SFleb (SFdiv prec emax x (S754_finite false 4503599627370496 (-22)))
        (SFdiv prec emax y (S754_finite false 4503599627370496 (-22))) = true.
Proof.
  intros Ax Ay Hle.
  destruct x as [sx | [|] | | [|] mx ex]; try contradiction;
  destruct y as [sy | [|] | | [|] my ey]; try contradiction;
  try discriminate Hle; try reflexivity.
  - destruct Ax as [Hdx Hex]. rewrite div_2p30_finite by trivial. reflexivity.
  - destruct Ax as [Hdx Hex]. destruct Ay as [Hdy Hey].
    rewrite !div_2p30_finite by trivial.
    apply SFleb_finite. apply SFleb_finite in Hle. lia.
Qed.

(** The unrounded estimate does not decrease when the height grows. *)
Theorem f_estimate_monotone_height h1 h2 w pl opt g1 g2 mode1 mode2 :
  valid_input h1 w pl -> valid_input h2 w pl -> h1 <= h2 ->
  f_estimate h1 w pl opt = Ok (g1, mode1) ->
  f_estimate h2 w pl opt = Ok (g2, mode2) ->
  le g1 g2 = true.
Proof.
  intros (Hh1 & Hw & Hpl) (Hh2 & _ & _) Hle H1 H2.
  destruct (truediv_8_cases h1 Hh1) as [(l1 & i1 & Hl1 & A1 & Hi1 & Hn1) | [R _]];
    [|rewrite (f_estimate_raise_h _ _ _ _ _ R) in H1; discriminate H1].
  destruct (truediv_8_cases h2 Hh2) as [(l2 & i2 & Hl2 & A2 & Hi2 & Hn2) | [R _]];
    [|rewrite (f_estimate_raise_h _ _ _ _ _ R) in H2; discriminate H2].
  destruct (truediv_8_cases w Hw) as [(lw & iw & Hlw & Aw & Hiw & Hnw) | [R _]];
    [|rewrite (f_estimate_raise_w _ _ _ _ _ _ Hl1 R) in H1; discriminate H1].
  set (A := C_WEIGHTS_BYTES + C_OVERHEAD_BYTES + C_L_FACTOR * pl).
  assert (HA : 0 < A < 2 ^ 53).
  { unfold A, C_WEIGHTS_BYTES, C_OVERHEAD_BYTES, C_L_FACTOR.
    change (2 ^ 53) with 9007199254740992. lia. }
  destruct (float_of_int_exact A) as (xA & HxA & RxA); [lia|].
  assert (AxA : at_least_one xA)
    by (apply (repr_at_least_one xA A 0); trivial; lia).
  rewrite (f_estimate_unfold h1 w pl opt l1 i1 lw iw xA
             Hl1 Hi1 Hn1 Hlw Hiw Hnw HxA) in H1.
  rewrite (f_estimate_unfold h2 w pl opt l2 i2 lw iw xA
             Hl2 Hi2 Hn2 Hlw Hiw Hnw HxA) in H2.
  injection H1 as <- _. injection H2 as <- _.
  change (dyadic (1024 ^ 3) 0) with (S754_finite false 4503599627370496 (-22)).
  apply div_2p30_mono; try (apply peak_bytes_at_least_one; trivial).
  apply peak_bytes_mono; trivial.
  apply (latent_mono h1 h2); trivial.
Qed.

(** Division of an integer by 100, as [round] performs it. *)
Lemma SFdiv_100_bra c :
  let s := Z.max (60 - dg c) 0 in
  let N := Zpos c * 2 ^ s in
  exists q,
    Zpos q = N / 100 /\ 53 <= dg q /\
    SFdiv prec emax (S754_finite false c 0) (S754_finite false 100 0)
    = binary_round_aux prec emax false (Zpos q) (- s)
        (loc_of_rem (N mod 100) 100).
Proof.
  intros s N.
  pose proof (dg_pos c) as Hdc.
  pose proof (pow2_pos s ltac:(unfold s; lia)) as HP.
  assert (HN : 2 ^ 59 <= N).
  { pose proof (dg_bounds c) as [Bl _]. unfold N.
    destruct (Z_lt_ge_dec (dg c) 60).
    - replace 59 with (dg c - 1 + s) by (unfold s; lia).
      rewrite Z.pow_add_r by (unfold s; lia). nia.
    - assert (2 ^ 59 <= 2 ^ (dg c - 1)) by (apply Z.pow_le_mono_r; lia). nia. }
  assert (Hq : 2 ^ 52 <= N / 100).
  { apply Z.div_le_lower_bound; [lia|].
    change (2 ^ 59) with 576460752303423488 in HN.
    change (2 ^ 52) with 4503599627370496. lia. }
  change (2 ^ 52) with 4503599627370496 in Hq.
  exists (Z.to_pos (N / 100)).
  rewrite Z2Pos.id by lia. split; [reflexivity|].
  split.
  { apply (dg_ge _ 52); [lia|]. rewrite Z2Pos.id by lia.
    change (2 ^ 52) with 4503599627370496. lia. }
  cbn [SFdiv xorb]. unfold SFdiv_core_binary.
  cbn [Zdigits2]. fold (dg c). change (Zpos (digits2_pos 100)) with 7.
  rewrite fexp_normal by lia.
  assert (Em : match 0 - 0 - Z.min (dg c + 0 - (7 + 0) - 53) (0 - 0) with
               | 0 => Zpos c
               | Zpos _ => Z.shiftl (Zpos c)
                             (0 - 0 - Z.min (dg c + 0 - (7 + 0) - 53) (0 - 0))
               | Zneg _ => 0
               end = N).
  { unfold N, s. destruct (Z_lt_ge_dec (dg c) 60).
    - replace (0 - 0 - Z.min (dg c + 0 - (7 + 0) - 53) (0 - 0))
        with (60 - dg c) by lia.
      replace (Z.max (60 - dg c) 0) with (60 - dg c) by lia.
      destruct (60 - dg c) as [| p | p] eqn:E; try lia.
      rewrite Z.shiftl_mul_pow2 by lia. reflexivity.
    - replace (0 - 0 - Z.min (dg c + 0 - (7 + 0) - 53) (0 - 0)) with 0 by lia.
      replace (Z.max (60 - dg c) 0) with 0 by lia. cbv iota.
      rewrite Z.pow_0_r. lia. }
  rewrite Em.
  replace (Z.min (dg c + 0 - (7 + 0) - 53) (0 - 0)) with (- s) by (unfold s; lia).
  unfold Z.div, Z.modulo.
  destruct (Z.div_eucl N 100) as [q r]. cbn [fst snd].
  reflexivity.
Qed.

(** The decimal digits of [round] as a rounded quotient by a common power
    of two. *)
Lemma scaled_digits_common m e K :
  0 <= K -> 0 <= e + K ->
  scaled_digits 2 (S754_finite false m e)
  = div_nearest_even (Zpos m * 100 * 2 ^ (e + K)) (2 ^ K).
Proof.
  intros HK HeK. cbn [scaled_digits]. change (10 ^ 2) with 100.
  pose proof (pow2_pos K HK) as HPK.
  destruct (Z.leb_spec 0 e) as [He | He].
  - rewrite Z.shiftl_mul_pow2 by lia.
    rewrite Z.pow_add_r, Z.mul_assoc by lia.
    rewrite <- (Z.mul_1_l (2 ^ K)) at 2.
    rewrite div_nearest_even_scale by lia.
    rewrite div_nearest_even_1. reflexivity.
  - pose proof (pow2_pos (e + K) HeK) as HP.
    replace (2 ^ K) with (2 ^ (- e) * 2 ^ (e + K))
      by (rewrite <- Z.pow_add_r by lia; f_equal; lia).
    rewrite div_nearest_even_scale; trivial.
    apply pow2_pos. lia.
Qed.

Lemma scaled_digits_mono m1 e1 m2 e2 :
  dg m1 = 53 -> dg m2 = 53 ->
  SFleb (S754_finite false m1 e1) (S754_finite false m2 e2) = true ->
  0 <= scaled_digits 2 (S754_finite false m1 e1)
    <= scaled_digits 2 (S754_finite false m2 e2).
Proof.
  intros H1 H2 Hle. apply SFleb_finite in Hle.
  set (K := Z.max 0 (Z.max (- e1) (- e2))).
  rewrite (scaled_digits_common m1 e1 K), (scaled_digits_common m2 e2 K)
    by (unfold K; lia).
  pose proof (pow2_pos K ltac:(unfold K; lia)) as HPK.
  pose proof (pow2_pos (e1 + K) ltac:(unfold K; lia)) as HP1.
  pose proof (pow2_pos (e2 + K) ltac:(unfold K; lia)) as HP2.
  assert (Hnum : Zpos m1 * 100 * 2 ^ (e1 + K) <= Zpos m2 * 100 * 2 ^ (e2 + K)).
  { pose proof (dg_bounds m1) as [_ Bu1]. pose proof (dg_bounds m2) as [Bl2 _].
    rewrite H1 in Bu1. rewrite H2 in Bl2.
    change (2 ^ (53 - 1)) with 4503599627370496 in Bl2.
    change (2 ^ 53) with 9007199254740992 in Bu1.
    destruct Hle as [Hlt | [-> Hm]]; [|nia].
    assert (2 * 2 ^ (e1 + K) <= 2 ^ (e2 + K)).
    { rewrite <- Z.pow_succ_r by (unfold K; lia).
      apply Z.pow_le_mono_r; lia. }
    nia. }
  split.
  - pose proof (div_nearest_even_bounds (Zpos m1 * 100 * 2 ^ (e1 + K)) (2 ^ K)
                  ltac:(nia) HPK) as B.
    destruct (Z_lt_ge_dec (div_nearest_even (Zpos m1 * 100 * 2 ^ (e1 + K)) (2 ^ K)) 0);
      [nia | lia].
  - apply div_nearest_even_mono; [nia | lia].
Qed.

(** [round(x, 2)] is monotone on the positive normal doubles. *)
Lemma round_float_mono m1 e1 m2 e2 r1 r2 :
  dg m1 = 53 -> dg m2 = 53 ->
  SFleb (S754_finite false m1 e1) (S754_finite false m2 e2) = true ->
  round_float (S754_finite false m1 e1) 2 = Ok r1 ->
  round_float (S754_finite false m2 e2) 2 = Ok r2 ->
  SFleb r1 r2 = true.
Proof.
  intros H1 H2 Hle. pose proof (scaled_digits_mono m1 e1 m2 e2 H1 H2 Hle) as Hc.
  unfold round_float. change (exact_int (10 ^ 2)) with (S754_finite false 100 0).
  destruct (scaled_digits 2 (S754_finite false m1 e1)) as [| c1 | c1];
    destruct (scaled_digits 2 (S754_finite false m2 e2)) as [| c2 | c2];
    try lia.
  - intros E1 E2. injection E1 as <-. injection E2 as <-. reflexivity.
  - intros E1. injection E1 as <-.
    destruct (SFdiv_100_bra c2) as (q2 & Hq2 & Hd2 & ->).
    pose proof (dg_pos c2).
    destruct (bra_nearest_div _ 100 q2 (- Z.max (60 - dg c2) 0)
                ltac:(lia) Hq2 Hd2 ltac:(lia)) as [_ ->].
    unfold clamp.
    repeat match goal with
           | |- context [if ?b then _ else _] => destruct b
           end; cbn [overflow_check]; intros E2;
      try discriminate E2; injection E2 as <-; reflexivity.
  - destruct (SFdiv_100_bra c1) as (q1 & Hq1 & Hd1 & ->).
    destruct (SFdiv_100_bra c2) as (q2 & Hq2 & Hd2 & ->).
    pose proof (dg_pos c1). pose proof (dg_pos c2).
    pose proof (bra_div_mono _ _ 100 q1 q2
                  (- Z.max (60 - dg c1) 0) (- Z.max (60 - dg c2) 0)
                  ltac:(lia) Hq1 Hq2 Hd1 ltac:(lia) Hd2 ltac:(lia)) as Hm.
    match type of Hm with ?P -> _ => assert (HV : P) end.
    { rewrite !mult_IZR.
      rewrite <- !p2_IZR by lia.
      rewrite !Rmult_assoc, <- !p2_add.
      replace (Z.max (60 - dg c1) 0 + - Z.max (60 - dg c1) 0) with 0 by lia.
      replace (Z.max (60 - dg c2) 0 + - Z.max (60 - dg c2) 0) with 0 by lia.
      change (p2 0) with 1%R. rewrite !Rmult_1_r. apply IZR_le. lia. }
    specialize (Hm HV).
    destruct (binary_round_aux prec emax false (Zpos q1) _ _);
      destruct (binary_round_aux prec emax false (Zpos q2) _ _);
      cbn [overflow_check]; intros E1 E2;
      try discriminate E1; try discriminate E2;
      injection E1 as <-; injection E2 as <-; exact Hm.
Qed.

(** What a breakdown says about the request. *)
Lemma breakdown_inv r p mode f s :
  estimate_vram_endpoint r = Ok (Breakdown p mode f s) ->
  0 < height r /\ 0 < width r /\ 1 <= prompt_length r <= 77 /\
  exists g,
    f_estimate (height r) (width r) (prompt_length r) (optimization r)
    = Ok (g, mode) /\
    round g 2 = Ok p.
Proof.
  intros H. unfold estimate_vram_endpoint in H.
  destruct (Z.leb_spec (height r) 0) as [|Hh]; [discriminate H|].
  destruct (Z.leb_spec (width r) 0) as [|Hw]; [discriminate H|]. cbn [orb] in H.
  destruct (Z.ltb_spec (prompt_length r) 1) as [|Hp1]; [discriminate H|].
  destruct (Z.ltb_spec 77 (prompt_length r)) as [|Hp2]; [discriminate H|].
  cbn [orb] in H.
  destruct (f_estimate (height r) (width r) (prompt_length r) (optimization r))
    as [[g mode'] | e] eqn:Hf; cbn [bind] in H; [|discriminate H].
  destruct (lt g (Int 0)); [discriminate H|].
  destruct (bytes_to_gb _) as [fx | e]; cbn [bind] in H; [|discriminate H].
  destruct (round g 2) as [p' | e] eqn:Hp; cbn [bind] in H; [|discriminate H].
  destruct (round fx 2) as [f' | e]; cbn [bind] in H; [|discriminate H].
  destruct (sub g fx) as [d | e]; cbn [bind] in H; [|discriminate H].
  destruct (round d 2) as [s' | e]; cbn [bind] in H; [|discriminate H].
  injection H as <- <- <- <-.
  repeat split; trivial; try lia. exists g. split; trivial.
Qed.

(** The estimate of a valid input is [+inf] or a positive normal double. *)
Lemma f_estimate_normal h w pl opt g mode :
  valid_input h w pl -> f_estimate h w pl opt = Ok (g, mode) ->
  exists x,
    g = Float x /\
    (x = S754_infinity false \/
     exists m e, x = S754_finite false m e /\ dg m = 53).
Proof.
  intros (Hh & Hw & Hpl) H.
  destruct (truediv_8_cases h Hh) as [(lh & ih & Hlh & Ah & Hih & Hnh) | [R _]];
    [|rewrite (f_estimate_raise_h _ _ _ _ _ R) in H; discriminate H].
  destruct (truediv_8_cases w Hw) as [(lw & iw & Hlw & Aw & Hiw & Hnw) | [R _]];
    [|rewrite (f_estimate_raise_w _ _ _ _ _ _ Hlh R) in H; discriminate H].
  set (A := C_WEIGHTS_BYTES + C_OVERHEAD_BYTES + C_L_FACTOR * pl).
  assert (HA : 0 < A < 2 ^ 53).
  { unfold A, C_WEIGHTS_BYTES, C_OVERHEAD_BYTES, C_L_FACTOR.
    change (2 ^ 53) with 9007199254740992. lia. }
  destruct (float_of_int_exact A) as (xA & HxA & RxA); [lia|].
  assert (AxA : at_least_one xA)
    by (apply (repr_at_least_one xA A 0); trivial; lia).
  rewrite (f_estimate_unfold h w pl opt lh ih lw iw xA
             Hlh Hih Hnh Hlw Hiw Hnw HxA) in H.
  injection H as <- _. eexists. split; [reflexivity|].
  pose proof (peak_bytes_at_least_one xA lh lw opt AxA Ah Aw) as AP.
  change (dyadic (1024 ^ 3) 0) with (S754_finite false 4503599627370496 (-22)).
  destruct (peak_bytes xA lh lw opt) as [s | [|] | | [|] m e];
    try contradiction.
  - left. reflexivity.
  - destruct AP as [Hd He]. rewrite div_2p30_finite by trivial.
    right. exists m, (e - 30). split; trivial.
Qed.

(** predicted_vram_gb does not decrease when the height grows. *)
Theorem predicted_vram_gb_monotone h1 h2 w pl opt p1 mode1 f1 s1 p2' mode2 f2 s2 :
  valid_dimension h1 -> valid_dimension h2 -> valid_dimension w -> h1 <= h2 ->
  estimate_vram_endpoint (request h1 w pl opt) = Ok (Breakdown p1 mode1 f1 s1) ->
  estimate_vram_endpoint (request h2 w pl opt) = Ok (Breakdown p2' mode2 f2 s2) ->
  le p1 p2' = true.
Proof.
  intros V1 V2 Vw Hle B1 B2.
  destruct (breakdown_inv _ _ _ _ _ B1) as (_ & _ & Hpl & g1 & G1 & R1).
  destruct (breakdown_inv _ _ _ _ _ B2) as (_ & _ & _ & g2 & G2 & R2).
  cbn [height width prompt_length optimization request] in *.
  assert (I1 : valid_input h1 w pl) by exact (conj V1 (conj Vw Hpl)).
  assert (I2 : valid_input h2 w pl) by exact (conj V2 (conj Vw Hpl)).
  pose proof (f_estimate_monotone_height h1 h2 w pl opt g1 g2 mode1 mode2
                I1 I2 Hle G1 G2) as Hg.
  destruct (f_estimate_normal _ _ _ _ _ _ I1 G1) as (x1 & -> & N1).
  destruct (f_estimate_normal _ _ _ _ _ _ I2 G2) as (x2 & -> & N2).
  change (SFleb x1 x2 = true) in Hg.
  cbn [round] in R1, R2.
  destruct (round_float x1 2) as [r1 | e] eqn:E1; cbn [bind] in R1;
    [|discriminate R1].
  destruct (round_float x2 2) as [r2 | e] eqn:E2; cbn [bind] in R2;
    [|discriminate R2].
  injection R1 as <-. injection R2 as <-.
  change (SFleb r1 r2 = true).
  assert (Hr1 : SFleb r1 r1 = true).
  { destruct N1 as [-> | (m1 & e1 & -> & D1)].
    - cbn in E1. injection E1 as <-. reflexivity.
    - apply (round_float_mono m1 e1 m1 e1); trivial.
      apply SFleb_finite. right. split; lia. }
  destruct N2 as [-> | (m2 & e2 & -> & D2)].
  - cbn in E2. injection E2 as <-.
    destruct r1 as [s | [|] | | [|] m e]; try discriminate Hr1; reflexivity.
  - destruct N1 as [-> | (m1 & e1 & -> & D1)]; [discriminate Hg|].
    apply (round_float_mono m1 e1 m2 e2); trivial.
Qed.

(** * The worked examples *)

(** C1, as stated: the total of the example would be 2,714,414,608 bytes.
    The estimator's total differs from that integer. *)
Lemma C1_total_is_not_2714414608 :
  ~ (exists l,
       f_estimate_locals 512 512 20 true = Ok (Some l) /\
       eq (M_peak_bytes l) (Int 2714414608) = true).
Proof.
  intros (l & Hl & Heq). vm_compute in Hl. injection Hl as <-.
  vm_compute in Heq. discriminate.
Qed.

(** C1 (amended): for height=512, width=512, prompt_length=20,
    use_optimized=true the estimator computes latent_h=64, latent_w=64,
    N=4096, latent_buffer=32768, base_intermediate=81,920,000,
    multiplier=1.0, peak_activation=81,952,768, prompt_cost=61,440, fixed
    cost=2,632,400,000 and total=2,714,414,208 bytes (the sum of the three
    costs); it returns that total divided by 2^30, which the handler rounds
    to 2.53. *)
Theorem C1_example_optimized :
  exists l p f s,
    f_estimate_locals 512 512 20 true = Ok (Some l) /\
    latent_h l = float_int 64 /\
    latent_w l = float_int 64 /\
    N_latent_pixels l = float_int 4096 /\
    M_latent_buffer l = float_int 32768 /\
    M_unet_intermediate l = float_int 81920000 /\
    attn_multiplier l = Float one /\
    exactly (attn_multiplier l) 1 0 /\
    M_peak_activation l = float_int 81952768 /\
    M_prompt l = Int 61440 /\
    M_fixed l = Int 2632400000 /\
    M_peak_bytes l = float_int 2714414208 /\
    2632400000 + 61440 + 81952768 = 2714414208 /\
    f_estimate 512 512 20 true
      = Ok (Float (dyadic 2714414208 (-30)), "Optimized (Linear Scaling)") /\
    decimal2 253 = Ok p /\
    round (Float (dyadic 2714414208 (-30))) 2 = Ok p /\
    estimate_vram_endpoint (request 512 512 20 true)
      = Ok (Breakdown p "Optimized (Linear Scaling)" f s).
Proof.
  do 4 eexists.
  split; [vm_compute; reflexivity|]. cbn [attn_multiplier].
  do 6 (split; [vm_compute; reflexivity|]).
  split; [apply (exactly_dyadic 1 0); change (2 ^ 53) with 9007199254740992; lia|].
  vm_compute. repeat split; reflexivity.
Qed.

(** C3: for height=512, width=512, prompt_length=20, use_optimized=false the
    multiplier is 1.25, adjusted_intermediate=102,400,000,
    peak_activation=102,432,768 and total=2,734,894,208 bytes, rounded by the
    handler to 2.55, with mode "Standard (Quadratic Overhead)". *)
Theorem C3_example_standard :
  exists l p f s,
    f_estimate_locals 512 512 20 false = Ok (Some l) /\
    attn_multiplier l = Float K_ATTN_STANDARD_MULTIPLIER /\
    exactly (attn_multiplier l) 5 (-2) /\
    M_unet_intermediate_adjusted l = float_int 102400000 /\
    M_peak_activation l = float_int 102432768 /\
    M_peak_bytes l = float_int 2734894208 /\
    mode_str l = "Standard (Quadratic Overhead)" /\
    f_estimate 512 512 20 false
      = Ok (Float (dyadic 2734894208 (-30)), "Standard (Quadratic Overhead)") /\
    decimal2 255 = Ok p /\
    round (Float (dyadic 2734894208 (-30))) 2 = Ok p /\
    estimate_vram_endpoint (request 512 512 20 false)
      = Ok (Breakdown p "Standard (Quadratic Overhead)" f s).
Proof.
  do 4 eexists.
  split; [vm_compute; reflexivity|]. cbn [attn_multiplier]. 
  split; [reflexivity|].
  split; [apply (exactly_dyadic 5 (-2)); change (2 ^ 53) with 9007199254740992; lia|].
  vm_compute. repeat split; reflexivity.
Qed.

(** * The request handler: validation order *)

Ltac split_binds H :=
  repeat match type of H with
         | bind ?c _ = _ => destruct c; cbn [bind] in H
         | (let '(_, _) := ?p in _) = _ => destruct p
         | (if ?b then _ else _) = _ => destruct b
         end.

(** C7, as stated: the handler would answer InvalidPromptLength exactly when
    prompt_length < 1 or prompt_length > 77.  With height=0 and
    prompt_length=0 it answers InvalidDimensions instead. *)
Lemma C7_dimensions_are_checked_first :
  ~ (forall r : VramRequest,
       estimate_vram_endpoint r = Ok InvalidPromptLength <->
       prompt_length r < 1 \/ 77 < prompt_length r).
Proof.
  intros H. specialize (H (request 0 512 0 true)).
  destruct H as [_ H]. cbn in H. specialize (H ltac:(lia)). discriminate H.
Qed.

(** C7 (amended): for a request whose height and width are positive, the
    handler answers InvalidPromptLength exactly when prompt_length < 1 or
    prompt_length > 77; so 0 and 78 are rejected and 77 is not. *)
Theorem C7_prompt_length_bounds (r : VramRequest) :
  0 < height r -> 0 < width r ->
  (estimate_vram_endpoint r = Ok InvalidPromptLength <->
   prompt_length r < 1 \/ 77 < prompt_length r).
Proof.
  intros Hh Hw. unfold estimate_vram_endpoint.
  destruct (Z.leb_spec (height r) 0); [lia|].
  destruct (Z.leb_spec (width r) 0); [lia|]. cbn [orb].
  destruct (Z.ltb_spec (prompt_length r) 1) as [H1 | H1]; cbn [orb].
  { split; trivial. intros _. lia. }
  destruct (Z.ltb_spec 77 (prompt_length r)) as [H2 | H2].
  { split; trivial. intros _. lia. }
  split; [|lia]. intros Hr. exfalso.
  split_binds Hr; discriminate Hr.
Qed.

Lemma C7_prompt_length_bounds_witness :
  (0 < height (request 512 512 78 true) /\
   0 < width (request 512 512 78 true)) /\
  (estimate_vram_endpoint (request 512 512 78 true) = Ok InvalidPromptLength <->
   prompt_length (request 512 512 78 true) < 1 \/
   77 < prompt_length (request 512 512 78 true)).
Proof.
  split; [split; reflexivity|].
  apply (C7_prompt_length_bounds (request 512 512 78 true)); reflexivity.
Defined.

(** C8: a request with height <= 0 or width <= 0 is answered with
    InvalidDimensions whatever its other fields are, also when its
    prompt_length is out of range. *)
Theorem C8_invalid_dimensions_first (r : VramRequest) :
  height r <= 0 \/ width r <= 0 ->
  estimate_vram_endpoint r = Ok InvalidDimensions.
Proof.
  intros H. unfold estimate_vram_endpoint.
  destruct (Z.leb_spec (height r) 0); [reflexivity|].
  destruct (Z.leb_spec (width r) 0); [reflexivity|]. lia.
Qed.

Lemma C8_invalid_dimensions_first_witness :
  (height (request 512 (-10) 0 false) <= 0 \/
   width (request 512 (-10) 0 false) <= 0) /\
  estimate_vram_endpoint (request 512 (-10) 0 false) = Ok InvalidDimensions.
Proof.
  split; [right; cbn; lia|].
  apply (C8_invalid_dimensions_first (request 512 (-10) 0 false)).
  right; cbn; lia.
Defined.

(** * Bounds and monotonicity of the estimate *)

(** C4, as stated: every valid input would get an estimate at least
    fixed_cost_gb.  A valid input with height 2^1027 gets no estimate:
    [h / 8] raises OverflowError. *)
Lemma C4_overflow_for_huge_height :
  ~ (forall h w pl opt, valid_input h w pl ->
       exists g mode fx,
         f_estimate h w pl opt = Ok (g, mode) /\
         fixed_cost_gb = Ok fx /\ le fx g = true).
Proof.
  intros H.
  destruct (H (2 ^ 1027) 8 20 true) as (g & mode & fx & Hg & _).
  { repeat split; try reflexivity; lia. }
  vm_compute in Hg. discriminate Hg.
Qed.

(** C4 (amended): for every valid input (height and width positive
    multiples of 8, prompt_length in 1..77, either value of use_optimized)
    the estimator returns an estimate greater than or equal to
    fixed_cost_gb, the gigabyte conversion of 2,632,400,000 bytes, or it
    raises OverflowError; it raises only when height or width is 2^1026 or
    more (the quotient by 8 does not fit a double). *)
Theorem C4_estimate_at_least_fixed_cost h w pl opt :
  valid_input h w pl ->
  match f_estimate h w pl opt with
  | Ok (g, mode) =>
      exists fx,
        fixed_cost_gb = Ok fx /\
        exactly fx (C_WEIGHTS_BYTES + C_OVERHEAD_BYTES) (-30) /\
        le fx g = true
  | Raise e => e = OverflowError /\ (2 ^ 1026 <= h \/ 2 ^ 1026 <= w)
  end.
Proof.
  intros Hv.
  destruct (f_estimate_cases h w pl opt Hv)
    as [(g & fx & Hg & Hfx & Hle) | (Hr & Hb)].
  - rewrite Hg. exists (Float fx). repeat split; trivial.
    destruct fixed_cost_gb_exact as (fx' & Hfx' & Efx).
    rewrite Hfx in Hfx'. injection Hfx' as <-. exact Efx.
  - rewrite Hr. split; trivial.
Qed.

Lemma C4_estimate_at_least_fixed_cost_witness :
  valid_input 512 512 20 /\
  exists g mode fx,
    f_estimate 512 512 20 true = Ok (g, mode) /\
    fixed_cost_gb = Ok fx /\
    exactly fx (C_WEIGHTS_BYTES + C_OVERHEAD_BYTES) (-30) /\
    le fx g = true.
Proof.
  assert (Hv : valid_input 512 512 20).
  { unfold valid_input, valid_dimension. repeat split; try reflexivity; lia. }
  split; [exact Hv|].
  pose proof (C4_estimate_at_least_fixed_cost 512 512 20 true Hv) as H.
  assert (E : f_estimate 512 512 20 true
              = Ok (Float (dyadic 2714414208 (-30)), "Optimized (Linear Scaling)"))
    by (vm_compute; reflexivity).
  rewrite E in H. destruct H as (fx & H1 & H2 & H3).
  exists (Float (dyadic 2714414208 (-30))), "Optimized (Linear Scaling)", fx.
  repeat split; assumption.
Defined.

(** C5, as stated: predicted_vram_gb would strictly increase with the
    height.  Heights 512 and 520 (width 512, prompt_length 20) give the same
    predicted_vram_gb, 2.53: the handler rounds to two decimals. *)
Lemma C5_rounding_hides_increase :
  exists p mode f s1 s2,
    valid_dimension 512 /\ valid_dimension 520 /\ 512 < 520 /\
    estimate_vram_endpoint (request 512 512 20 true)
      = Ok (Breakdown p mode f s1) /\
    estimate_vram_endpoint (request 520 512 20 true)
      = Ok (Breakdown p mode f s2) /\
    lt p p = false.
Proof.
  do 5 eexists. unfold valid_dimension.
  split; [split; [lia | reflexivity]|].
  split; [split; [lia | reflexivity]|].
  split; [lia|].
  split; [vm_compute; reflexivity|].
  split; [vm_compute; reflexivity|].
  vm_compute. reflexivity.
Qed.

(** C5 (amended): for fixed width, prompt_length and use_optimized and valid
    heights h1 < h2 (positive multiples of 8), the predicted_vram_gb of the
    response for h2 is greater than or equal to the predicted_vram_gb of the
    response for h1, and so is the unrounded estimate that f_estimate
    returns; when h2 * width <= 2^44 the unrounded estimate for h2 is
    strictly greater. *)
Theorem C5_estimate_increases_with_height h1 h2 w pl opt :
  valid_input h1 w pl -> valid_input h2 w pl -> h1 < h2 ->
  (forall p1 mode1 f1 s1 p2 mode2 f2 s2,
     estimate_vram_endpoint (request h1 w pl opt)
       = Ok (Breakdown p1 mode1 f1 s1) ->
     estimate_vram_endpoint (request h2 w pl opt)
       = Ok (Breakdown p2 mode2 f2 s2) ->
     le p1 p2 = true) /\
  (forall g1 g2 mode1 mode2,
     f_estimate h1 w pl opt = Ok (g1, mode1) ->
     f_estimate h2 w pl opt = Ok (g2, mode2) ->
     le g1 g2 = true) /\
  (h2 * w <= 2 ^ 44 ->
   exists g1 g2 mode,
     f_estimate h1 w pl opt = Ok (g1, mode) /\
     f_estimate h2 w pl opt = Ok (g2, mode) /\
     lt g1 g2 = true).
Proof.
  intros Hv1 Hv2 Hlt. split; [|split].
  - intros p1 mode1 f1 s1 p2 mode2 f2 s2 B1 B2.
    destruct Hv1 as (V1 & Vw & _). destruct Hv2 as (V2 & _ & _).
    apply (predicted_vram_gb_monotone h1 h2 w pl opt
             p1 mode1 f1 s1 p2 mode2 f2 s2); trivial. lia.
  - intros g1 g2 mode1 mode2 G1 G2.
    apply (f_estimate_monotone_height h1 h2 w pl opt g1 g2 mode1 mode2);
      trivial. lia.
  - intros Hr2.
    assert (Hr1 : h1 * w <= 2 ^ 44).
    { destruct Hv1 as ((? & _) & (? & _) & _). nia. }
    destruct (valid_input_exact h1 w pl Hv1 Hr1)
      as (a1 & b & Hh1 & Hw & Ha10 & Hb0 & Ha1 & Hb & Hrange1).
    destruct (valid_input_exact h2 w pl Hv2 Hr2)
      as (a2 & b' & Hh2 & Hw' & Ha20 & _ & Ha2 & _ & Hrange2).
    assert (b' = b) by lia. subst b'.
    destruct (f_estimate_exact h1 w pl opt a1 b Hh1 Hw Ha1 Hb Hrange1)
      as (g1 & Hg1 & Eg1).
    destruct (f_estimate_exact h2 w pl opt a2 b Hh2 Hw Ha2 Hb Hrange2)
      as (g2 & Hg2 & Eg2).
    exists g1, g2, (attention_mode_of opt).
    do 2 (split; [trivial|]).
    rewrite (lt_exact g1 g2 _ _ _ Eg1 Eg2). apply Z.ltb_lt.
    unfold total_bytes. destruct opt; nia.
Qed.

Lemma C5_estimate_increases_with_height_witness :
  (valid_input 512 512 20 /\ valid_input 520 512 20 /\ 512 < 520 /\
   520 * 512 <= 2 ^ 44) /\
  (exists p1 mode1 f1 s1 p2 mode2 f2 s2,
     estimate_vram_endpoint (request 512 512 20 true)
       = Ok (Breakdown p1 mode1 f1 s1) /\
     estimate_vram_endpoint (request 520 512 20 true)
       = Ok (Breakdown p2 mode2 f2 s2) /\
     le p1 p2 = true) /\
  (exists g1 g2 mode,
     f_estimate 512 512 20 true = Ok (g1, mode) /\
     f_estimate 520 512 20 true = Ok (g2, mode) /\
     le g1 g2 = true /\
     lt g1 g2 = true).
Proof.
  assert (Hv1 : valid_input 512 512 20).
  { unfold valid_input, valid_dimension. repeat split; try reflexivity; lia. }
  assert (Hv2 : valid_input 520 512 20).
  { unfold valid_input, valid_dimension. repeat split; try reflexivity; lia. }
  assert (Hlt : 512 < 520) by lia.
  assert (Hr : 520 * 512 <= 2 ^ 44) by (vm_compute; discriminate).
  split; [split; [exact Hv1 | split; [exact Hv2 | split; [exact Hlt | exact Hr]]]|].
  destruct (C5_estimate_increases_with_height 512 520 512 20 true Hv1 Hv2 Hlt)
    as (Hp & Hg & Hs).
  split.
  - do 8 eexists.
    assert (B1 : estimate_vram_endpoint (request 512 512 20 true) = Ok _)
      by (vm_compute; reflexivity).
    assert (B2 : estimate_vram_endpoint (request 520 512 20 true) = Ok _)
      by (vm_compute; reflexivity).
    split; [exact B1|]. split; [exact B2|].
    exact (Hp _ _ _ _ _ _ _ _ B1 B2).
  - destruct (Hs Hr) as (g1 & g2 & mode & G1 & G2 & L).
    exists g1, g2, mode. do 2 (split; [trivial|]).
    split; [exact (Hg _ _ _ _ G1 G2) | exact L].
Defined.

(** Beyond the range of exact arithmetic also the unrounded estimate can
    stay the same when the height grows: heights 2^60 and 2^60 + 8 have the
    same quotient by 8 as doubles. *)
Lemma height_increase_lost_beyond_2p53 :
  valid_input (2 ^ 60) 8 20 /\ valid_input (2 ^ 60 + 8) 8 20 /\
  f_estimate (2 ^ 60 + 8) 8 20 true = f_estimate (2 ^ 60) 8 20 true /\
  exists g, f_estimate (2 ^ 60) 8 20 true = Ok (Float g, "Optimized (Linear Scaling)").
Proof.
  split. { unfold valid_input, valid_dimension. repeat split; try reflexivity; lia. }
  split. { unfold valid_input, valid_dimension. repeat split; try reflexivity; lia. }
  split; [vm_compute; reflexivity|].
  eexists. vm_compute. reflexivity.
Qed.

(** C6, as stated: with use_optimized=true the estimate would be strictly
    lower than with use_optimized=false unless N is 0.  For the valid input
    height = width = 2^603 both estimates are the same infinity, and N is
    infinite, not 0. *)
Lemma C6_both_estimates_infinite :
  exists l,
    valid_input (2 ^ 603) (2 ^ 603) 20 /\
    f_estimate_locals (2 ^ 603) (2 ^ 603) 20 true = Ok (Some l) /\
    eq (N_latent_pixels l) (Int 0) = false /\
    f_estimate (2 ^ 603) (2 ^ 603) 20 true
      = Ok (Float (S754_infinity false), "Optimized (Linear Scaling)") /\
    f_estimate (2 ^ 603) (2 ^ 603) 20 false
      = Ok (Float (S754_infinity false), "Standard (Quadratic Overhead)") /\
    lt (Float (S754_infinity false)) (Float (S754_infinity false)) = false.
Proof.
  eexists.
  split. { unfold valid_input, valid_dimension. repeat split; try reflexivity; lia. }
  split; [vm_compute; reflexivity|].
  vm_compute. repeat split; reflexivity.
Qed.

(** C6 (amended): for every valid input for which the estimator returns,
    the estimate with use_optimized=true is strictly lower than the estimate
    with use_optimized=false, or both estimates are +inf; the estimator
    raises OverflowError (for both modes) only when height or width is at
    least 2^1026.  For height * width <= 2^44 both estimates are returned
    and the first is strictly lower. *)
Theorem C6_optimized_is_lower h w pl :
  valid_input h w pl ->
  ((exists g_opt g_std,
      f_estimate h w pl true = Ok (g_opt, "Optimized (Linear Scaling)") /\
      f_estimate h w pl false = Ok (g_std, "Standard (Quadratic Overhead)") /\
      (lt g_opt g_std = true \/
       g_opt = Float (S754_infinity false) /\
       g_std = Float (S754_infinity false)))
   \/ (f_estimate h w pl true = Raise OverflowError /\
       f_estimate h w pl false = Raise OverflowError /\
       (2 ^ 1026 <= h \/ 2 ^ 1026 <= w)))
  /\ (h * w <= 2 ^ 44 ->
      exists g_opt g_std,
        f_estimate h w pl true = Ok (g_opt, "Optimized (Linear Scaling)") /\
        f_estimate h w pl false = Ok (g_std, "Standard (Quadratic Overhead)") /\
        lt g_opt g_std = true).
Proof.
  intros Hv. split.
  - destruct (f_estimate_optimized_below h w pl Hv)
      as [(g1 & g2 & H1 & H2 & [Hlt | [-> ->]]) | Hraise].
    + left. exists (Float g1), (Float g2). repeat split; trivial.
      left. exact Hlt.
    + left. do 2 eexists. split; [exact H1|]. split; [exact H2|].
      right. split; reflexivity.
    + right. exact Hraise.
  - intros Hr.
    destruct (valid_input_exact h w pl Hv Hr)
      as (a & b & Hh & Hw & Ha0 & Hb0 & Ha & Hb & Hrange).
    destruct (f_estimate_exact h w pl true a b Hh Hw Ha Hb Hrange)
      as (g1 & Hg1 & Eg1).
    destruct (f_estimate_exact h w pl false a b Hh Hw Ha Hb Hrange)
      as (g2 & Hg2 & Eg2).
    exists g1, g2. repeat split; trivial.
    rewrite (lt_exact g1 g2 _ _ _ Eg1 Eg2). apply Z.ltb_lt.
    unfold total_bytes. nia.
Qed.

Lemma C6_optimized_is_lower_witness :
  (valid_input 1024 768 77 /\ 1024 * 768 <= 2 ^ 44) /\
  ((exists g_opt g_std,
      f_estimate 1024 768 77 true = Ok (g_opt, "Optimized (Linear Scaling)") /\
      f_estimate 1024 768 77 false = Ok (g_std, "Standard (Quadratic Overhead)") /\
      (lt g_opt g_std = true \/
       g_opt = Float (S754_infinity false) /\
       g_std = Float (S754_infinity false)))
   \/ (f_estimate 1024 768 77 true = Raise OverflowError /\
       f_estimate 1024 768 77 false = Raise OverflowError /\
       (2 ^ 1026 <= 1024 \/ 2 ^ 1026 <= 768)))
  /\ (exists g_opt g_std,
        f_estimate 1024 768 77 true = Ok (g_opt, "Optimized (Linear Scaling)") /\
        f_estimate 1024 768 77 false = Ok (g_std, "Standard (Quadratic Overhead)") /\
        lt g_opt g_std = true).
Proof.
  assert (Hv : valid_input 1024 768 77).
  { unfold valid_input, valid_dimension. repeat split; try reflexivity; lia. }
  assert (Hr : 1024 * 768 <= 2 ^ 44) by (vm_compute; discriminate).
  split; [split; [exact Hv | exact Hr]|].
  destruct (C6_optimized_is_lower 1024 768 77 Hv) as [Hall Hsmall].
  split; [exact Hall | exact (Hsmall Hr)].
Defined.

(** * The rounded fields of a successful response *)

(** C9, as stated: spatial_cost_gb would differ by at most 0.01 from
    predicted_vram_gb minus fixed_cost_gb in every successful response.  For
    height = width = 2^40 the subtraction of line 155 absorbs the fixed cost:
    spatial_cost_gb equals predicted_vram_gb although fixed_cost_gb is 2.45,
    and the hundredths are off by 245. *)
Lemma C9_spatial_off_by_fixed_cost :
  exists p mode f s g fx d,
    estimate_vram_endpoint (request (2 ^ 40) (2 ^ 40) 20 true)
      = Ok (Breakdown p mode f s) /\
    f_estimate (2 ^ 40) (2 ^ 40) 20 true = Ok (g, mode) /\
    fixed_cost_gb = Ok fx /\ sub g fx = Ok d /\
    round g 2 = Ok p /\ round fx 2 = Ok f /\ round d 2 = Ok s /\
    decimal2 245 = Ok f /\ s = p /\
    hundredths d - (hundredths g - hundredths fx) = 245.
Proof.
  do 7 eexists.
  split; [vm_compute; reflexivity|].
  split; [vm_compute; reflexivity|].
  split; [vm_compute; reflexivity|].
  split; [vm_compute; reflexivity|].
  vm_compute. repeat split; reflexivity.
Qed.

(** C9 (amended): in every successful response predicted_vram_gb,
    fixed_cost_gb and spatial_cost_gb are round(., 2) of the unrounded
    estimate, of the unrounded fixed cost and of their difference (each
    rounded independently); when height * width <= 2^44 each field is
    [c / 100] for its integer number [c] of hundredths, and the hundredths
    of spatial_cost_gb differ by at most one from the hundredths of
    predicted_vram_gb minus those of fixed_cost_gb. *)
Theorem C9_fields_rounded_independently r p mode f s :
  estimate_vram_endpoint r = Ok (Breakdown p mode f s) ->
  exists g fx d,
    f_estimate (height r) (width r) (prompt_length r) (optimization r)
      = Ok (g, mode) /\
    fixed_cost_gb = Ok fx /\
    sub g fx = Ok d /\
    round g 2 = Ok p /\ round fx 2 = Ok f /\ round d 2 = Ok s /\
    (height r * width r <= 2 ^ 44 ->
     decimal2 (hundredths g) = Ok p /\
     decimal2 (hundredths fx) = Ok f /\
     decimal2 (hundredths d) = Ok s /\
     -1 <= hundredths d - (hundredths g - hundredths fx) <= 1).
Proof.
  intros H. unfold estimate_vram_endpoint in H.
  destruct (Z.leb_spec (height r) 0) as [|Hh]; [discriminate H|].
  destruct (Z.leb_spec (width r) 0) as [|Hw]; [discriminate H|]. cbn [orb] in H.
  destruct (Z.ltb_spec (prompt_length r) 1) as [|Hp1]; [discriminate H|].
  destruct (Z.ltb_spec 77 (prompt_length r)) as [|Hp2]; [discriminate H|].
  cbn [orb] in H.
  destruct (f_estimate (height r) (width r) (prompt_length r) (optimization r))
    as [[g mode'] | e] eqn:Hf; cbn [bind] in H; [|discriminate H].
  destruct (lt g (Int 0)) eqn:Hlt; [discriminate H|].
  fold fixed_cost_gb in H.
  destruct fixed_cost_gb as [fx | e] eqn:Hfx; cbn [bind] in H; [|discriminate H].
  destruct (round g 2) as [p' | e] eqn:Hp; cbn [bind] in H; [|discriminate H].
  destruct (round fx 2) as [f' | e] eqn:Hf'; cbn [bind] in H; [|discriminate H].
  destruct (sub g fx) as [d | e] eqn:Hd; cbn [bind] in H; [|discriminate H].
  destruct (round d 2) as [s' | e] eqn:Hs; cbn [bind] in H; [|discriminate H].
  injection H as <- <- <- <-.
  exists g, fx, d. do 6 (split; [trivial|]). intros Hr.
  (* a successful response within the range comes from a valid input *)
  assert (Hv : valid_input (height r) (width r) (prompt_length r)).
  { assert (Hsmall : Z.abs (height r) < 2 ^ 53 /\ Z.abs (width r) < 2 ^ 53).
    { change (2 ^ 44) with 17592186044416 in Hr.
      change (2 ^ 53) with 9007199254740992. nia. }
    destruct Hsmall as [Hsh Hsw].
    destruct (Z.eq_dec (height r mod 8) 0) as [Eh | Eh];
      [destruct (Z.eq_dec (width r mod 8) 0) as [Ew | Ew]|].
    - repeat split; trivial; lia.
    - rewrite (f_estimate_sentinel _ _ (prompt_length r) (optimization r) Hsh Hsw)
        in Hf by (right; trivial).
      injection Hf as <- <-. discriminate Hlt.
    - rewrite (f_estimate_sentinel _ _ (prompt_length r) (optimization r) Hsh Hsw)
        in Hf by (left; trivial).
      injection Hf as <- <-. discriminate Hlt. }
  destruct (valid_input_exact _ _ _ Hv Hr)
    as (a & b & Ea & Eb & Ha0 & Hb0 & Ha & Hb & Hrange).
  destruct (f_estimate_exact _ _ (prompt_length r) (optimization r) a b Ea Eb Ha Hb Hrange)
    as (g0 & Hg0 & Eg).
  rewrite Hf in Hg0. injection Hg0 as <- _.
  destruct fixed_cost_gb_exact as (fx0 & Hfx0 & Efx).
  rewrite Hfx in Hfx0. injection Hfx0 as <-.
  set (T := total_bytes a b (prompt_length r) (optimization r)) in *.
  assert (HT : 2632400000 <= T < 2 ^ 53).
  { unfold T, total_bytes. revert Hrange.
    unfold C_WEIGHTS_BYTES, C_OVERHEAD_BYTES, C_L_FACTOR.
    change (2 ^ 53) with 9007199254740992.
    destruct (optimization r); nia. }
  change (2 ^ 53) with 9007199254740992 in HT.
  destruct (sub_exact g fx T 2632400000 (-30) Eg Efx) as (d0 & Hd0 & Ed);
    try (change (2 ^ 53) with 9007199254740992; lia).
  rewrite Hd in Hd0. injection Hd0 as <-.
  assert (HN : 1 <= a * b) by nia.
  assert (HTd : 0 < T - 2632400000).
  { unfold T, total_bytes, C_WEIGHTS_BYTES, C_OVERHEAD_BYTES, C_L_FACTOR.
    destruct Hv as (_ & _ & Hpl). destruct (optimization r); nia. }
  rewrite <- (round_exactly g T (-30) Eg) by lia.
  rewrite <- (round_exactly fx _ (-30) Efx) by reflexivity.
  rewrite <- (round_exactly d _ (-30) Ed) by lia.
  do 3 (split; [trivial|]).
  rewrite (hundredths_exact g T (-30) Eg), (hundredths_exact fx _ (-30) Efx),
    (hundredths_exact d _ (-30) Ed) by lia.
  change (2 ^ (- -30)) with 1073741824.
  pose proof (div_nearest_even_bounds (100 * T) 1073741824 ltac:(lia) ltac:(lia)).
  pose proof (div_nearest_even_bounds (100 * 2632400000) 1073741824 ltac:(lia) ltac:(lia)).
  pose proof (div_nearest_even_bounds (100 * (T - 2632400000)) 1073741824
                ltac:(lia) ltac:(lia)).
  lia.
Qed.

Lemma C9_fields_rounded_independently_witness :
  exists p mode f s,
    (estimate_vram_endpoint (request 512 512 20 true)
       = Ok (Breakdown p mode f s) /\
     512 * 512 <= 2 ^ 44) /\
    exists g fx d,
      f_estimate 512 512 20 true = Ok (g, mode) /\
      fixed_cost_gb = Ok fx /\
      sub g fx = Ok d /\
      round g 2 = Ok p /\ round fx 2 = Ok f /\ round d 2 = Ok s /\
      decimal2 (hundredths g) = Ok p /\
      decimal2 (hundredths fx) = Ok f /\
      decimal2 (hundredths d) = Ok s /\
      -1 <= hundredths d - (hundredths g - hundredths fx) <= 1.
Proof.
  do 4 eexists.
  assert (H : estimate_vram_endpoint (request 512 512 20 true) = Ok _)
    by (vm_compute; reflexivity).
  assert (Hr : 512 * 512 <= 2 ^ 44) by (vm_compute; discriminate).
  split; [split; [exact H | exact Hr]|].
  destruct (C9_fields_rounded_independently (request 512 512 20 true) _ _ _ _ H)
    as (g & fx & d & H1 & H2 & H3 & H4 & H5 & H6 & H7).
  exists g, fx, d. do 6 (split; [assumption|]). exact (H7 Hr).
Defined.

(** * The divisibility test of the estimator *)

(** Below [2^53] the estimator returns the sentinel exactly for the
    dimensions that are not multiples of 8: 512 passes, 513 does not. *)
Theorem multiple_of_8_check_below_2p53 h w pl opt :
  Z.abs h < 2 ^ 53 -> Z.abs w < 2 ^ 53 ->
  Z.abs (C_WEIGHTS_BYTES + C_OVERHEAD_BYTES + C_L_FACTOR * pl) < 2 ^ 1023 ->
  (f_estimate h w pl opt = Ok (Float minus_one, multiple_of_8_message) <->
   h mod 8 <> 0 \/ w mod 8 <> 0).
Proof.
  intros Hsh Hsw Hpl. split.
  - intros Hf.
    destruct (Z.eq_dec (h mod 8) 0) as [Eh | Eh]; [|left; trivial].
    destruct (Z.eq_dec (w mod 8) 0) as [Ew | Ew]; [|right; trivial].
    exfalso.
    assert (Hb : 2 ^ 53 < 2 ^ 1026) by reflexivity.
    destruct (f_estimate_returns h w pl opt Eh Ew ltac:(lia) ltac:(lia) Hpl)
      as (g & Hg).
    rewrite Hf in Hg. destruct opt; discriminate Hg.
  - apply f_estimate_sentinel; trivial.
Qed.

(** C2: the estimator must fail with NonMultipleOf8 exactly when height or
    width is not divisible by 8, for every pair of positive integers.  The
    code tests [h / 8 != int(h / 8)] on doubles: height 9007199254740993
    (2^53 + 1, not a multiple of 8) divides to the same double as 2^53, so
    the estimator returns the estimate of height 2^53 and the handler
    answers with a breakdown instead of NonMultipleOf8.  Heights 512 and 513
    behave as the claim says. *)
Theorem C2_large_non_multiple_accepted :
  9007199254740993 mod 8 = 1 /\
  truediv (Int 9007199254740993) (Int 8) = truediv (Int 9007199254740992) (Int 8) /\
  f_estimate 9007199254740993 8 20 true = f_estimate 9007199254740992 8 20 true /\
  (exists g,
     f_estimate 9007199254740993 8 20 true = Ok (g, "Optimized (Linear Scaling)") /\
     lt g (Int 0) = false) /\
  (exists p f s,
     estimate_vram_endpoint (request 9007199254740993 8 20 true)
       = Ok (Breakdown p "Optimized (Linear Scaling)" f s)) /\
  (exists g,
     f_estimate 512 512 20 true = Ok (g, "Optimized (Linear Scaling)") /\
     lt g (Int 0) = false) /\
  f_estimate 513 512 20 true = Ok (Float minus_one, multiple_of_8_message) /\
  estimate_vram_endpoint (request 513 512 20 true)
    = Ok (NonMultipleOf8 multiple_of_8_message).
Proof.
  split; [reflexivity|].
  split; [vm_compute; reflexivity|].
  split; [vm_compute; reflexivity|].
  split; [eexists; split; vm_compute; reflexivity|].
  split; [do 3 eexists; vm_compute; reflexivity|].
  split; [eexists; split; vm_compute; reflexivity|].
  split; vm_compute; reflexivity.
Qed.

(** * The estimator has no range validation *)

(** C10, as stated: the estimator would return a computed result for every
    pair of integers divisible by 8 and every integer prompt_length.  For
    height 2^1027, or for prompt_length 2^1030, it raises OverflowError. *)
Lemma C10_overflow_for_huge_arguments :
  ~ (forall h w pl opt, h mod 8 = 0 -> w mod 8 = 0 ->
       exists g mode, f_estimate h w pl opt = Ok (g, mode))
  /\ f_estimate (2 ^ 1027) 8 20 true = Raise OverflowError
  /\ f_estimate 8 8 (2 ^ 1030) true = Raise OverflowError.
Proof.
  assert (H1 : f_estimate (2 ^ 1027) 8 20 true = Raise OverflowError)
    by (vm_compute; reflexivity).
  assert (H2 : f_estimate 8 8 (2 ^ 1030) true = Raise OverflowError)
    by (vm_compute; reflexivity).
  repeat split; trivial. intros H.
  destruct (H (2 ^ 1027) 8 20 true) as (g & mode & Hg); try reflexivity.
  rewrite H1 in Hg. discriminate Hg.
Qed.

(** C10 (amended): the estimator enforces no precondition other than
    divisibility by 8.  For all integers height and width divisible by 8
    (zero and negative ones too) and every integer prompt_length (outside
    1..77 too) that fit a double (|height|, |width| < 2^1026 and
    |2,632,400,000 + 3072 * prompt_length| < 2^1023) it returns a computed
    estimate with the attention mode, never the sentinel; the handler is
    what rejects such a request when a dimension is not positive or the
    prompt length is out of range. *)
Theorem C10_estimator_checks_only_divisibility h w pl opt :
  h mod 8 = 0 -> w mod 8 = 0 ->
  Z.abs h < 2 ^ 1026 -> Z.abs w < 2 ^ 1026 ->
  Z.abs (C_WEIGHTS_BYTES + C_OVERHEAD_BYTES + C_L_FACTOR * pl) < 2 ^ 1023 ->
  (exists g,
     f_estimate h w pl opt = Ok (Float g, attention_mode_of opt) /\
     (Float g, attention_mode_of opt) <> (Float minus_one, multiple_of_8_message)) /\
  (h <= 0 \/ w <= 0 \/ pl < 1 \/ 77 < pl ->
   exists error details,
     estimate_vram_endpoint (request h w pl opt)
       = Ok (ErrorResponse error details)).
Proof.
  intros Hh Hw Hsh Hsw Hpl. split.
  - destruct (f_estimate_returns h w pl opt Hh Hw Hsh Hsw Hpl) as (g & Hg).
    exists g. split; trivial. destruct opt; discriminate.
  - intros Hbad. unfold estimate_vram_endpoint. cbn [height width prompt_length request].
    destruct (Z.leb_spec h 0); [do 2 eexists; reflexivity|].
    destruct (Z.leb_spec w 0); [do 2 eexists; reflexivity|]. cbn [orb].
    destruct (Z.ltb_spec pl 1); [do 2 eexists; reflexivity|].
    destruct (Z.ltb_spec 77 pl); [do 2 eexists; reflexivity|]. lia.
Qed.

Lemma C10_estimator_checks_only_divisibility_witness :
  (0 mod 8 = 0 /\ (-16) mod 8 = 0 /\
   Z.abs 0 < 2 ^ 1026 /\ Z.abs (-16) < 2 ^ 1026 /\
   Z.abs (C_WEIGHTS_BYTES + C_OVERHEAD_BYTES + C_L_FACTOR * 100) < 2 ^ 1023) /\
  (exists g,
     f_estimate 0 (-16) 100 false = Ok (Float g, attention_mode_of false) /\
     (Float g, attention_mode_of false) <> (Float minus_one, multiple_of_8_message)) /\
  (0 <= 0 \/ -16 <= 0 \/ 100 < 1 \/ 77 < 100 ->
   exists error details,
     estimate_vram_endpoint (request 0 (-16) 100 false)
       = Ok (ErrorResponse error details)).
Proof.
  assert (H1 : 0 mod 8 = 0) by reflexivity.
  assert (H2 : (-16) mod 8 = 0) by reflexivity.
  assert (H3 : Z.abs 0 < 2 ^ 1026) by reflexivity.
  assert (H4 : Z.abs (-16) < 2 ^ 1026) by reflexivity.
  assert (H5 : Z.abs (C_WEIGHTS_BYTES + C_OVERHEAD_BYTES + C_L_FACTOR * 100)
               < 2 ^ 1023) by reflexivity.
  split; [repeat split; assumption|].
  exact (C10_estimator_checks_only_divisibility 0 (-16) 100 false H1 H2 H3 H4 H5).
Defined.

(** * Every outcome of the estimator and of the handler *)

(** The sign of [binary_round_aux] is the sign it is given. *)
Lemma bra_sign m e l :
  binary_round_aux prec emax true m e l
  = SFopp (binary_round_aux prec emax false m e l).
Proof.
  unfold binary_round_aux.
  destruct (shr_fexp prec emax m e l) as [mrs' e'].
  destruct (shr_fexp prec emax _ e' loc_Exact) as [mrs'' e''].
  destruct (shr_m mrs'') as [| p | p]; try reflexivity.
  destruct (e'' <=? emax - prec); reflexivity.
Qed.

(** Division of two integer mantissas by an even divisor: the quotient of
    the shifted numerator with the location of its remainder. *)
Lemma SFdiv_int_bra s c D :
  Z.even (Zpos D) = true -> dg D <= 1022 ->
  let sh := Z.max (dg D + 53 - dg c) 0 in
  let N := Zpos c * 2 ^ sh in
  exists q,
    Zpos q = N / Zpos D /\ 53 <= dg q /\
    dg c + sh - dg D <= dg q <= dg c + sh - dg D + 1 /\
    SFdiv prec emax (S754_finite s c 0) (S754_finite false D 0)
    = binary_round_aux prec emax s (Zpos q) (- sh)
        (loc_of_rem (N mod Zpos D) (Zpos D)).
Proof.
  intros HD HDb sh N.
  pose proof (dg_pos c) as Hdc. pose proof (dg_pos D) as HdD.
  pose proof (dg_bounds c) as [Blc Buc]. pose proof (dg_bounds D) as [BlD BuD].
  pose proof (pow2_pos sh ltac:(unfold sh; lia)) as HP.
  assert (HdN : 2 ^ (dg c + sh - 1) <= N < 2 ^ (dg c + sh)).
  { unfold N. replace (dg c + sh - 1) with (dg c - 1 + sh) by lia.
    rewrite !Z.pow_add_r by (unfold sh; lia). nia. }
  assert (Hsh : dg D + 53 <= dg c + sh) by (unfold sh; lia).
  (* the quotient lies between 2^(dN - dD - 1) and 2^(dN - dD + 1) *)
  set (t := dg c + sh - dg D) in *.
  assert (Ht : 53 <= t) by (unfold t; lia).
  assert (E1 : 2 ^ (dg c + sh - 1) = 2 ^ (t - 1) * 2 ^ dg D).
  { rewrite <- Z.pow_add_r by lia. f_equal. unfold t. lia. }
  assert (E2 : 2 ^ (dg c + sh) = 2 ^ (t + 1) * 2 ^ (dg D - 1)).
  { rewrite <- Z.pow_add_r by lia. f_equal. unfold t. lia. }
  pose proof (pow2_pos (t - 1) ltac:(lia)) as HPt.
  pose proof (pow2_pos (t + 1) ltac:(lia)) as HPt1.
  assert (Hq1 : 2 ^ (t - 1) <= N / Zpos D).
  { apply Z.div_le_lower_bound; [lia|]. nia. }
  assert (Hq2 : N / Zpos D < 2 ^ (t + 1)).
  { apply Z.div_lt_upper_bound; [lia|]. nia. }
  exists (Z.to_pos (N / Zpos D)).
  assert (Hid : Zpos (Z.to_pos (N / Zpos D)) = N / Zpos D)
    by (apply Z2Pos.id; lia).
  split; [exact Hid|].
  assert (Hdq : t <= dg (Z.to_pos (N / Zpos D)) <= t + 1).
  { split.
    - replace t with (t - 1 + 1) by lia. apply dg_ge; [lia|]. rewrite Hid. exact Hq1.
    - apply dg_le. rewrite Hid. exact Hq2. }
  split; [lia|]. split; [exact Hdq|].
  cbn [SFdiv xorb]. rewrite xorb_false_r. unfold SFdiv_core_binary.
  cbn [Zdigits2]. fold (dg c). fold (dg D).
  rewrite fexp_normal by lia.
  assert (Em : match 0 - 0 - Z.min (dg c + 0 - (dg D + 0) - 53) (0 - 0) with
               | 0 => Zpos c
               | Zpos _ => Z.shiftl (Zpos c)
                             (0 - 0 - Z.min (dg c + 0 - (dg D + 0) - 53) (0 - 0))
               | Zneg _ => 0
               end = N).
  { unfold N, sh. destruct (Z_lt_ge_dec (dg c) (dg D + 53)).
    - replace (0 - 0 - Z.min (dg c + 0 - (dg D + 0) - 53) (0 - 0))
        with (dg D + 53 - dg c) by lia.
      replace (Z.max (dg D + 53 - dg c) 0) with (dg D + 53 - dg c) by lia.
      destruct (dg D + 53 - dg c) as [| p | p] eqn:E; try lia.
      rewrite Z.shiftl_mul_pow2 by lia. reflexivity.
    - replace (0 - 0 - Z.min (dg c + 0 - (dg D + 0) - 53) (0 - 0)) with 0 by lia.
      replace (Z.max (dg D + 53 - dg c) 0) with 0 by lia. cbv iota.
      rewrite Z.pow_0_r. lia. }
  rewrite Em.
  replace (Z.min (dg c + 0 - (dg D + 0) - 53) (0 - 0)) with (- sh)
    by (unfold sh; lia).
  unfold Z.div, Z.modulo in *.
  destruct (Z.div_eucl N (Zpos D)) as [q r]. cbn [fst snd] in *.
  rewrite Hid. unfold new_location. rewrite HD. reflexivity.
Qed.

(** [p / 8] for every positive integer [p]: a normal double, or an overflow;
    the exponent follows the number of digits of [p]. *)
Lemma int_truediv_8_shape s p :
  exists M E,
    dg M = 53 /\ dg p - 56 <= E <= dg p - 55 /\
    SFdiv prec emax (S754_finite s p 0) (S754_finite false 8 0)
    = if E <=? 971 then S754_finite s M E else S754_infinity s.
Proof.
  destruct (SFdiv_int_bra s p 8 eq_refl ltac:(cbv; discriminate))
    as (q & Hq & Hd & Hdq & ->).
  change (dg 8) with 4 in *.
  set (sh := Z.max (4 + 53 - dg p) 0) in *.
  set (N := Zpos p * 2 ^ sh) in *.
  pose proof (dg_pos p) as Hdp.
  (* the divisor is a power of two: the quotient has exactly three digits
     less *)
  assert (Hdq' : dg q = dg p + sh - 3).
  { pose proof (dg_bounds p) as [Blp _].
    pose proof (pow2_pos sh ltac:(unfold sh; lia)) as HP.
    assert (HN : 2 ^ (dg p + sh - 4) * 8 <= N).
    { unfold N. change 8 with (2 ^ 3).
      rewrite <- Z.pow_add_r by (unfold sh; lia).
      replace (dg p + sh - 4 + 3) with (dg p - 1 + sh) by lia.
      rewrite Z.pow_add_r by (unfold sh; lia). nia. }
    assert (2 ^ (dg p + sh - 4) <= Zpos q).
    { rewrite Hq. apply Z.div_le_lower_bound; lia. }
    pose proof (dg_ge q (dg p + sh - 4) ltac:(unfold sh; lia) H). lia. }
  destruct (bra_nearest_div N 8 q (- sh) ltac:(lia) Hq Hd ltac:(unfold sh; lia))
    as [HR HB].
  set (R := div_nearest_even N (8 * 2 ^ (dg q - 53))) in *.
  assert (Hs : binary_round_aux prec emax s (Zpos q) (- sh)
                 (loc_of_rem (N mod 8) 8)
               = if s then SFopp (binary_round_aux prec emax false (Zpos q) (- sh)
                                    (loc_of_rem (N mod 8) 8))
                 else binary_round_aux prec emax false (Zpos q) (- sh)
                        (loc_of_rem (N mod 8) 8)).
  { destruct s; [apply bra_sign | reflexivity]. }
  rewrite Hs, HB.
  change (2 ^ 52) with 4503599627370496 in *.
  change (2 ^ 53) with 9007199254740992 in *.
  destruct (Z.eqb_spec R 9007199254740992) as [C | C].
  - exists 4503599627370496%positive, (- sh + (dg q - 53) + 1).
    split; [reflexivity|]. split; [unfold sh; lia|].
    unfold clamp. destruct s; destruct (_ <=? 971); reflexivity.
  - exists (Z.to_pos R), (- sh + (dg q - 53)).
    split.
    { apply dg_unique. rewrite Z2Pos.id by lia.
      change (2 ^ (53 - 1)) with 4503599627370496.
      change (2 ^ 53) with 9007199254740992. lia. }
    split; [unfold sh; lia|].
    unfold clamp. destruct s; destruct (_ <=? 971); reflexivity.
Qed.

(** The quotient [h / 8] of line 42, for every integer [h]. *)
Lemma truediv_8_outcome h :
  match truediv (Int h) (Int 8) with
  | Ok (Float (S754_zero false)) => h = 0
  | Ok (Float (S754_finite s M E)) =>
      h <> 0 /\ s = (h <? 0) /\ dg M = 53 /\
      dg (Z.to_pos (Z.abs h)) - 56 <= E <= dg (Z.to_pos (Z.abs h)) - 55 /\
      E <= 971
  | Raise OverflowError => 2 ^ 1026 <= Z.abs h
  | _ => False
  end.
Proof.
  cbn [truediv]. unfold int_truediv. cbn [Z.eqb].
  change (exact_int 8) with (S754_finite false 8 0).
  assert (Hbig : forall p, 971 < dg p - 55 -> 2 ^ 1026 <= Zpos p).
  { intros p Hp. pose proof (dg_bounds p) as [Bl _].
    assert (2 ^ 1026 <= 2 ^ (dg p - 1)) by (apply Z.pow_le_mono_r; lia). lia. }
  destruct h as [| p | p]; cbn [exact_int].
  - reflexivity.
  - destruct (int_truediv_8_shape false p) as (M & E & HdM & HE & ->).
    cbn [Z.abs Z.to_pos].
    destruct (Z.leb_spec E 971); cbn [overflow_check bind].
    + repeat split; trivial; lia.
    + apply Hbig. lia.
  - destruct (int_truediv_8_shape true p) as (M & E & HdM & HE & ->).
    cbn [Z.abs Z.to_pos].
    destruct (Z.leb_spec E 971); cbn [overflow_check bind].
    + repeat split; trivial; lia.
    + apply Hbig. lia.
Qed.

(** The test [x != int(x)] of line 45 on a normal double. *)
Lemma integral_test s M E :
  dg M = 53 -> -1074 <= E <= 971 ->
  exists i,
    int (Float (S754_finite s M E)) = Ok i /\
    (0 <= E -> ne (Float (S754_finite s M E)) (Int i) = false) /\
    (ne (Float (S754_finite s M E)) (Int i) = false -> -52 <= E).
Proof.
  intros Hd He.
  destruct (Z_le_gt_dec 0 E) as [Hpos | Hneg].
  - destruct (integral_check_nonneg s M E Hpos) as (i & Hi & Hne).
    exists i. repeat split; trivial. lia.
  - assert (Hr : repr (S754_finite s M E) (cond_Zopp s (Zpos M)) E).
    { cbn [repr]. repeat split; trivial; try lia.
      rewrite Z.sub_diag, Z.pow_0_r. lia. }
    destruct (integral_check _ _ _ Hr ltac:(lia)) as (i & Hi & Hne).
    exists i. split; [exact Hi|]. split; [lia|].
    rewrite Hne. intros Hz. apply negb_false_iff, Z.eqb_eq in Hz.
    destruct (Z_le_gt_dec (-52) E) as [|Hsmall]; trivial. exfalso.
    pose proof (pow2_pos (- E) ltac:(lia)) as HP.
    apply (mod_abs_zero _ _ HP) in Hz.
    assert (Ha : Z.abs (cond_Zopp s (Zpos M)) = Zpos M) by (destruct s; reflexivity).
    rewrite Ha in Hz.
    pose proof (dg_bounds M) as [_ Bu]. rewrite Hd in Bu.
    assert (2 ^ 53 <= 2 ^ (- E)) by (apply Z.pow_le_mono_r; lia).
    rewrite Z.mod_small in Hz by lia. lia.
Qed.

(** [f_estimate] once both quotients are known: the test of line 45, the
    conversion of the integer part of the sum, and the value returned. *)
Lemma f_estimate_by_cases h w pl opt lh ih lw iw :
  truediv (Int h) (Int 8) = Ok (Float lh) ->
  truediv (Int w) (Int 8) = Ok (Float lw) ->
  int (Float lh) = Ok ih -> int (Float lw) = Ok iw ->
  f_estimate h w pl opt
  = if ne (Float lh) (Int ih) || ne (Float lw) (Int iw)
    then Ok (Float minus_one, multiple_of_8_message)
    else
      xA <- float_of_int (C_WEIGHTS_BYTES + C_OVERHEAD_BYTES + C_L_FACTOR * pl) ;;
      Ok (Float (SFdiv prec emax (peak_bytes xA lh lw opt) (dyadic (1024 ^ 3) 0)),
          attention_mode_of opt).
Proof.
  intros Hlh Hlw Hih Hiw.
  unfold f_estimate, f_estimate_locals.
  change (add (Int C_WEIGHTS_BYTES) (Int C_OVERHEAD_BYTES))
    with (Ok (Int (C_WEIGHTS_BYTES + C_OVERHEAD_BYTES))).
  change (mul (Int C_L_FACTOR) (Int pl)) with (Ok (Int (C_L_FACTOR * pl))).
  cbn [bind]. rewrite Hlh. cbn [bind]. rewrite Hlw. cbn [bind].
  rewrite Hih. cbn [bind].
  destruct (ne (Float lh) (Int ih)); cbn [orb bind]; [reflexivity|].
  rewrite Hiw. cbn [bind].
  destruct (ne (Float lw) (Int iw)); cbn [orb bind]; [reflexivity|].
  cbn [mul to_float bind].
  change (float_of_int 4) with (Ok (dyadic 4 0)). cbn [bind].
  change (float_of_int 2) with (Ok (dyadic 2 0)). cbn [bind].
  change (float_of_int K_ITER_BASE) with (Ok (dyadic 20000 0)). cbn [bind].
  destruct opt; cbn [mul add to_float bind];
    destruct (float_of_int (C_WEIGHTS_BYTES + C_OVERHEAD_BYTES + C_L_FACTOR * pl))
      as [xA | e]; cbn [bind]; try reflexivity;
    unfold bytes_to_gb; cbn [M_peak_bytes mode_str truediv to_float bind];
    change (float_of_int (1024 ^ 3)) with (Ok (dyadic (1024 ^ 3) 0));
    cbn [bind]; reflexivity.
Qed.

Lemma SFmul_comm x y : SFmul prec emax x y = SFmul prec emax y x.
Proof.
  destruct x as [sx | sx | | sx mx ex], y as [sy | sy | | sy my ey];
    cbn [SFmul]; try rewrite (xorb_comm sx sy); try reflexivity.
  rewrite (Pos.mul_comm mx my), (Z.add_comm ex ey). reflexivity.
Qed.

Lemma peak_bytes_comm xA lh lw opt :
  peak_bytes xA lh lw opt = peak_bytes xA lw lh opt.
Proof. unfold peak_bytes. rewrite (SFmul_comm lh lw). reflexivity. Qed.

(** [round(x, 2)] returns on every positive normal double: zero or a
    positive normal double. *)
Lemma round_float_total m e :
  dg m = 53 -> e <= 971 ->
  exists r,
    round_float (S754_finite false m e) 2 = Ok r /\
    (r = S754_zero false \/ exists M E, r = S754_finite false M E /\ dg M = 53).
Proof.
  intros Hd He. unfold round_float.
  change (exact_int (10 ^ 2)) with (S754_finite false 100 0).
  pose proof (dg_bounds m) as [Bl Bu]. rewrite Hd in Bl, Bu.
  change (2 ^ (53 - 1)) with 4503599627370496 in Bl.
  change (2 ^ 53) with 9007199254740992 in Bu.
  destruct (scaled_digits 2 (S754_finite false m e)) as [| c | c] eqn:Ec.
  - eexists. split; [reflexivity | left; reflexivity].
  - destruct (SFdiv_int_bra false c 100 eq_refl ltac:(cbv; discriminate))
      as (q & Hq & Hdq & Hdq' & ->).
    change (dg 100) with 7 in *.
    set (sh := Z.max (7 + 53 - dg c) 0) in *.
    set (N := Zpos c * 2 ^ sh) in *.
    pose proof (dg_pos c) as Hdc.
    destruct (bra_nearest_div N 100 q (- sh) ltac:(lia) Hq Hdq
                ltac:(unfold sh; lia)) as [HR ->].
    set (k := dg q - 53) in *.
    set (R := div_nearest_even N (100 * 2 ^ k)) in *.
    assert (Hfin : - sh + k <= 971 /\ (R = 2 ^ 53 -> False) \/
                   - sh + k + 1 <= 971).
    { cbn [scaled_digits] in Ec. change (10 ^ 2) with 100 in Ec.
      destruct (Z.leb_spec 0 e) as [Hpos | Hneg].
      - (* the digits are exact: the quotient is the mantissa *)
        left. rewrite Z.shiftl_mul_pow2 in Ec by lia.
        pose proof (pow2_pos e Hpos) as HPe.
        pose proof (pow2_pos sh ltac:(unfold sh; lia)) as HPs.
        assert (EN : N = Zpos m * 2 ^ (e + sh) * 100).
        { unfold N. rewrite <- Ec, Z.pow_add_r by (unfold sh; lia). ring. }
        assert (Eq' : Zpos q = Zpos m * 2 ^ (e + sh)).
        { rewrite Hq, EN. apply Z.div_mul. lia. }
        assert (Edq : dg q = 53 + (e + sh)).
        { rewrite <- Hd. apply dg_shift; [unfold sh; lia | exact Eq']. }
        assert (ER : R = Zpos m).
        { unfold R, k. rewrite Edq, EN.
          replace (53 + (e + sh) - 53) with (e + sh) by lia.
          replace (Zpos m * 2 ^ (e + sh) * 100)
            with (Zpos m * (100 * 2 ^ (e + sh))) by ring.
          rewrite <- (Z.mul_1_l (100 * 2 ^ (e + sh))) at 2.
          pose proof (pow2_pos (e + sh) ltac:(unfold sh; lia)).
          rewrite div_nearest_even_scale by lia.
          apply div_nearest_even_1. }
        split; [|change (2 ^ 53) with 9007199254740992; lia].
        unfold k. lia.
      - right.
        pose proof (pow2_pos (- e) ltac:(lia)) as HPe.
        pose proof (div_nearest_even_bounds (Zpos m * 100) (2 ^ (- e))
                      ltac:(lia) HPe) as B.
        rewrite Ec in B.
        assert (2 <= 2 ^ (- e)).
        { change 2 with (2 ^ 1) at 1. apply Z.pow_le_mono_r; lia. }
        assert (Hc : Zpos c < 2 ^ 60).
        { change (2 ^ 60) with 1152921504606846976. nia. }
        pose proof (dg_le c 60 Hc). unfold k, sh. lia. }
    change (2 ^ 52) with 4503599627370496 in *.
    change (2 ^ 53) with 9007199254740992 in *.
    destruct (Z.eqb_spec R 9007199254740992) as [C | C]; unfold clamp.
    + destruct Hfin as [[_ Hf] | Hf]; [contradiction|].
      destruct (Z.leb_spec (- sh + k + 1) 971); [|lia].
      cbn [overflow_check]. eexists. split; [reflexivity|].
      right. do 2 eexists. split; reflexivity.
    + assert (Hk : - sh + k <= 971) by (destruct Hfin as [[? _] | ?]; lia).
      destruct (Z.leb_spec (- sh + k) 971); [|lia].
      cbn [overflow_check]. eexists. split; [reflexivity|].
      right. do 2 eexists. split; [reflexivity|].
      apply dg_unique. rewrite Z2Pos.id by lia.
      change (2 ^ (53 - 1)) with 4503599627370496.
      change (2 ^ 53) with 9007199254740992. lia.
  - exfalso. cbn [scaled_digits] in Ec. change (10 ^ 2) with 100 in Ec.
    destruct (Z.leb_spec 0 e).
    + rewrite Z.shiftl_mul_pow2 in Ec by lia.
      pose proof (pow2_pos e ltac:(lia)). nia.
    + pose proof (pow2_pos (- e) ltac:(lia)) as HPe.
      pose proof (div_nearest_even_bounds (Zpos m * 100) (2 ^ (- e))
                    ltac:(lia) HPe) as B.
      rewrite Ec in B. nia.
Qed.

(** The difference of two positive normal doubles, the larger first: zero
    or a positive normal double. *)
Lemma SFsub_shape mg eg mf ef :
  dg mg = 53 -> dg mf = 53 -> -1000 <= eg <= 971 -> -1000 <= ef <= 971 ->
  SFleb (S754_finite false mf ef) (S754_finite false mg eg) = true ->
  SFsub prec emax (S754_finite false mg eg) (S754_finite false mf ef)
    = S754_zero false
  \/ exists M E,
       SFsub prec emax (S754_finite false mg eg) (S754_finite false mf ef)
         = S754_finite false M E /\ dg M = 53 /\ E <= 971.
Proof.
  intros Hdg Hdf Heg Hef Hle. apply SFleb_finite in Hle.
  cbn [SFsub cond_Zopp]. set (ez := Z.min eg ef).
  rewrite !shl_align_fst by (unfold ez; lia).
  pose proof (pow2_pos (eg - ez) ltac:(unfold ez; lia)) as HPg.
  pose proof (pow2_pos (ef - ez) ltac:(unfold ez; lia)) as HPf.
  pose proof (dg_bounds mg) as [Blg Bug]. rewrite Hdg in Blg, Bug.
  pose proof (dg_bounds mf) as [Blf Buf]. rewrite Hdf in Blf, Buf.
  change (2 ^ (53 - 1)) with 4503599627370496 in *.
  change (2 ^ 53) with 9007199254740992 in *.
  assert (Hord : Zpos mf * 2 ^ (ef - ez) <= Zpos mg * 2 ^ (eg - ez)).
  { destruct Hle as [Hlt | [-> Hm]].
    - replace (ef - ez) with 0 by (unfold ez; lia). rewrite Z.pow_0_r.
      assert (2 <= 2 ^ (eg - ez)).
      { change 2 with (2 ^ 1) at 1. apply Z.pow_le_mono_r; unfold ez; lia. }
      nia.
    - nia. }
  destruct (Zpos mg * 2 ^ (eg - ez) - Zpos mf * 2 ^ (ef - ez))
    as [| p | p] eqn:Ep; try lia.
  { left. reflexivity. }
  right. cbn [binary_normalize].
  destruct (Z_le_gt_dec (dg p) 53) as [Hs | Hl].
  - pose proof (dg_bounds p) as [_ Bup]. pose proof (dg_pos p).
    assert (Zpos p < 2 ^ 53).
    { assert (2 ^ dg p <= 2 ^ 53) by (apply Z.pow_le_mono_r; lia). lia. }
    destruct (binary_round_dyadic false p (Zpos p) 0 ez)
      as (M & E & HR & HdM & HE & HE' & _); try lia;
      try (unfold ez; lia).
    exists M, E. repeat split; trivial; lia.
  - unfold binary_round. fold (dg p).
    rewrite fexp_normal by (unfold ez; lia).
    rewrite shl_align_id by lia.
    destruct (bra_general false p ez) as (M & E & HdM & HE & HR);
      try (unfold ez; lia).
    pose proof (bra_mono p ez mg eg ltac:(lia) ltac:(unfold ez; lia)
                  ltac:(lia) ltac:(lia)) as Hm.
    match type of Hm with ?P -> _ => assert (HV : P) end.
    { assert (Hp : Zpos p <= Zpos mg * 2 ^ (eg - ez)) by lia.
      apply IZR_le in Hp. rewrite mult_IZR, <- p2_IZR in Hp by (unfold ez; lia).
      replace (p2 eg) with (p2 ((eg - ez) + ez)) by (f_equal; lia).
      rewrite p2_add, <- Rmult_assoc.
      apply Rmult_le_compat_r; [pose proof (p2_pos ez); lra | exact Hp]. }
    specialize (Hm HV). rewrite HR in Hm.
    rewrite (bra_exact false mg mg 0 eg) in Hm; try lia.
    exists M, E. rewrite HR.
    destruct (Z.leb_spec E 971); [|discriminate Hm].
    repeat split; trivial.
Qed.

(** The unrounded fixed cost of line 148 as a double. *)
Lemma fixed_cost_gb_value :
  fixed_cost_gb = Ok (Float (S754_finite false 5520542924800000 (-51))).
Proof. reflexivity. Qed.

(** [f_estimate] on positive dimensions, whether multiples of 8 or not. *)
Lemma f_estimate_positive h w pl opt :
  0 < h -> 0 < w -> 1 <= pl <= 77 ->
  f_estimate h w pl opt = Ok (Float minus_one, multiple_of_8_message)
  \/ (exists g,
        f_estimate h w pl opt = Ok (Float g, attention_mode_of opt) /\
        SFleb (S754_finite false 5520542924800000 (-51)) g = true /\
        (g = S754_infinity false \/
         exists m e, g = S754_finite false m e /\ dg m = 53 /\ -82 <= e <= 971))
  \/ (f_estimate h w pl opt = Raise OverflowError /\
      (2 ^ 1026 <= h \/ 2 ^ 1026 <= w)).
Proof.
  intros Hh Hw Hpl.
  pose proof (truediv_8_outcome h) as Oh. pose proof (truediv_8_outcome w) as Ow.
  destruct (truediv (Int h) (Int 8)) as [[zh | lh] | eh] eqn:Th;
    try contradiction.
  2:{ destruct eh; try contradiction.
      right. right. split; [apply f_estimate_raise_h; exact Th | left; lia]. }
  destruct (truediv (Int w) (Int 8)) as [[zw | lw] | ew] eqn:Tw;
    try contradiction.
  2:{ destruct ew; try contradiction.
      right. right.
      split; [apply (f_estimate_raise_w h w pl opt (Float lh)); trivial
             | right; lia]. }
  destruct lh as [[|] | | | sh Mh Eh]; try contradiction; try lia.
  destruct lw as [[|] | | | sw Mw Ew]; try contradiction; try lia.
  destruct Oh as (_ & Hsh & Hdh & HEh & HEh').
  destruct Ow as (_ & Hsw & Hdw & HEw & HEw').
  assert (Hfh : (h <? 0) = false) by (apply Z.ltb_ge; lia).
  assert (Hfw : (w <? 0) = false) by (apply Z.ltb_ge; lia).
  rewrite Hfh in Hsh. rewrite Hfw in Hsw. subst sh sw.
  pose proof (dg_pos (Z.to_pos (Z.abs h))). pose proof (dg_pos (Z.to_pos (Z.abs w))).
  destruct (integral_test false Mh Eh Hdh ltac:(lia)) as (ih & Hih & _ & Nh).
  destruct (integral_test false Mw Ew Hdw ltac:(lia)) as (iw & Hiw & _ & Nw).
  rewrite (f_estimate_by_cases h w pl opt _ ih _ iw Th Tw Hih Hiw).
  destruct (ne (Float (S754_finite false Mh Eh)) (Int ih)); cbn [orb];
    [left; reflexivity|].
  destruct (ne (Float (S754_finite false Mw Ew)) (Int iw)); cbn [orb];
    [left; reflexivity|].
  right. left.
  assert (Ah : at_least_one (S754_finite false Mh Eh))
    by (cbn; specialize (Nh eq_refl); split; trivial; lia).
  assert (Aw : at_least_one (S754_finite false Mw Ew))
    by (cbn; specialize (Nw eq_refl); split; trivial; lia).
  destruct (cost_at_least_fixed _ _ pl opt Ah Aw Hpl) as (xA & HxA & Hle).
  rewrite HxA. cbn [bind]. eexists. split; [reflexivity|]. split; [exact Hle|].
  assert (AxA : at_least_one xA).
  { unfold float_of_int in HxA.
    destruct (float_of_int_exact (C_WEIGHTS_BYTES + C_OVERHEAD_BYTES + C_L_FACTOR * pl))
      as (x' & Hx' & Rx').
    { unfold C_WEIGHTS_BYTES, C_OVERHEAD_BYTES, C_L_FACTOR.
      change (2 ^ 53) with 9007199254740992. lia. }
    unfold float_of_int in Hx'. rewrite HxA in Hx'. injection Hx' as <-.
    apply (repr_at_least_one xA _ 0 Rx');
      unfold C_WEIGHTS_BYTES, C_OVERHEAD_BYTES, C_L_FACTOR; lia. }
  pose proof (peak_bytes_at_least_one xA _ _ opt AxA Ah Aw) as AP.
  change (dyadic (1024 ^ 3) 0) with (S754_finite false 4503599627370496 (-22)).
  destruct (peak_bytes xA _ _ opt) as [s | [|] | | [|] m e]; try contradiction.
  - left. reflexivity.
  - destruct AP as [Hd He]. rewrite div_2p30_finite by trivial.
    right. exists m, (e - 30). repeat split; trivial; lia.
Qed.

Lemma round_fixed_cost :
  round_float (S754_finite false 5520542924800000 (-51)) 2
  = Ok (S754_finite false 5516909543528858 (-51)) /\
  decimal2 245 = Ok (Float (S754_finite false 5516909543528858 (-51))).
Proof. split; vm_compute; reflexivity. Qed.

(** Every outcome of the handler. *)
Lemma handler_outcome r :
  match estimate_vram_endpoint r with
  | Ok resp =>
      (resp = InvalidDimensions /\ (height r <= 0 \/ width r <= 0))
      \/ (resp = InvalidPromptLength /\ 0 < height r /\ 0 < width r /\
          (prompt_length r < 1 \/ 77 < prompt_length r))
      \/ (resp = NonMultipleOf8 multiple_of_8_message /\
          f_estimate (height r) (width r) (prompt_length r) (optimization r)
          = Ok (Float minus_one, multiple_of_8_message))
      \/ (exists g p f s,
            f_estimate (height r) (width r) (prompt_length r) (optimization r)
            = Ok (Float g, attention_mode_of (optimization r)) /\
            resp = Breakdown (Float p) (attention_mode_of (optimization r))
                             (Float f) (Float s) /\
            round_float g 2 = Ok p /\
            decimal2 245 = Ok (Float f) /\
            round_float (SFsub prec emax g
                           (S754_finite false 5520542924800000 (-51))) 2 = Ok s /\
            SFleb f p = true /\
            SFleb (S754_zero false) s = true /\
            ((exists c, 245 <= c /\ decimal2 c = Ok (Float p))
             \/ p = S754_infinity false) /\
            ((exists c, 0 <= c /\ decimal2 c = Ok (Float s))
             \/ s = S754_infinity false))
  | Raise e =>
      e = OverflowError /\ (2 ^ 1026 <= height r \/ 2 ^ 1026 <= width r)
  end.
Proof.
  unfold estimate_vram_endpoint.
  destruct (Z.leb_spec (height r) 0) as [|Hh]; [left; split; [reflexivity | lia]|].
  destruct (Z.leb_spec (width r) 0) as [|Hw]; [left; split; [reflexivity | lia]|].
  cbn [orb].
  destruct (Z.ltb_spec (prompt_length r) 1) as [|Hp1];
    [right; left; repeat split; trivial; lia|].
  destruct (Z.ltb_spec 77 (prompt_length r)) as [|Hp2];
    [right; left; repeat split; trivial; lia|].
  cbn [orb].
  destruct (f_estimate_positive (height r) (width r) (prompt_length r)
              (optimization r) Hh Hw ltac:(lia))
    as [Hs | [(g & Hg & Hle & Hn) | (Hr & Hb)]].
  - rewrite Hs. cbn [bind]. change (lt (Float minus_one) (Int 0)) with true.
    cbv iota. right. right. left. split; reflexivity.
  - rewrite Hg. cbn [bind].
    assert (Hlt : lt (Float g) (Int 0) = false).
    { destruct Hn as [-> | (m & e & -> & _)]; [reflexivity|].
      unfold lt. cbn [compare compare_float_int cond_Zopp].
      destruct (Z.leb_spec 0 e).
      - rewrite Z.shiftl_mul_pow2 by lia.
        pose proof (pow2_pos e ltac:(lia)).
        destruct (Z.compare_spec (Zpos m * 2 ^ e) 0); trivial; nia.
      - rewrite Z.shiftl_0_l. reflexivity. }
    rewrite Hlt. cbv iota.
    change (bytes_to_gb (Int (C_WEIGHTS_BYTES + C_OVERHEAD_BYTES)))
      with fixed_cost_gb.
    rewrite fixed_cost_gb_value. cbn [bind].
    destruct round_fixed_cost as [Rf Df].
    (* the three rounded fields *)
    assert (Hp : exists p, round_float g 2 = Ok p /\
                           SFleb (S754_finite false 5516909543528858 (-51)) p = true /\
                           ((exists c, 245 <= c /\ decimal2 c = Ok (Float p))
                            \/ p = S754_infinity false)).
    { destruct Hn as [-> | (m & e & -> & Hd & He)].
      - eexists. split; [reflexivity|]. split; [reflexivity|].
        right. reflexivity.
      - destruct (round_float_total m e Hd ltac:(lia)) as (p & Hp & _).
        exists p. split; [exact Hp|].
        split; [apply (round_float_mono 5520542924800000 (-51) m e); trivial|].
        left. exists (hundredths (Float (S754_finite false m e))). split.
        + pose proof (scaled_digits_mono 5520542924800000 (-51) m e
                        eq_refl Hd Hle) as [_ Hc].
          change (scaled_digits 2 (S754_finite false 5520542924800000 (-51)))
            with 245 in Hc.
          exact Hc.
        + rewrite <- round_is_decimal. cbn [round]. rewrite Hp. reflexivity. }
    assert (Hs : exists s,
               round_float (SFsub prec emax g
                              (S754_finite false 5520542924800000 (-51))) 2 = Ok s /\
               SFleb (S754_zero false) s = true /\
               ((exists c, 0 <= c /\ decimal2 c = Ok (Float s))
                \/ s = S754_infinity false)).
    { destruct Hn as [-> | (m & e & -> & Hd & He)].
      - eexists. split; [reflexivity|]. split; [reflexivity|].
        right. reflexivity.
      - destruct (SFsub_shape m e 5520542924800000 (-51) Hd eq_refl
                    ltac:(lia) ltac:(lia) Hle) as [-> | (M & E & -> & HdM & HE)].
        + eexists. split; [reflexivity|]. split; [reflexivity|].
          left. exists 0. split; [lia | reflexivity].
        + destruct (round_float_total M E HdM HE) as (s & Hs & Hshape).
          exists s. split; [exact Hs|].
          split; [destruct Hshape as [-> | (M' & E' & -> & _)]; reflexivity|].
          left. exists (hundredths (Float (S754_finite false M E))). split.
          * pose proof (scaled_digits_mono M E M E HdM HdM) as Hc.
            cbn [hundredths cond_Zopp]. apply Hc.
            apply SFleb_finite. right. split; lia.
          * rewrite <- round_is_decimal. cbn [round]. rewrite Hs. reflexivity. }
    destruct Hp as (p & Hp & Hfp & Hpc). destruct Hs as (s & Hs & Hs0 & Hsc).
    cbn [round]. rewrite Hp. cbn [bind]. rewrite Rf. cbn [bind sub to_float round].
    rewrite Hs. cbn [bind].
    right. right. right.
    exists g, p, (S754_finite false 5516909543528858 (-51)), s.
    repeat split; trivial.
  - rewrite Hr. cbn [bind]. split; trivial.
Qed.

(** The byte count is monotone in the fixed part and in both latent
    dimensions. *)
Lemma peak_bytes_mono_all xA xA' lh lh' lw lw' opt :
  at_least_one xA -> at_least_one xA' ->
  at_least_one lh -> at_least_one lh' -> at_least_one lw -> at_least_one lw' ->
  SFleb xA xA' = true -> SFleb lh lh' = true -> SFleb lw lw' = true ->
  SFleb (peak_bytes xA lh lw opt) (peak_bytes xA' lh' lw' opt) = true.
Proof.
  intros AxA AxA' Ah Ah' Aw Aw' HA Hh Hw. unfold peak_bytes.
  assert (A4 : at_least_one (dyadic 4 0))
    by (apply at_least_one_int; change (2 ^ 53) with 9007199254740992; lia).
  assert (A2 : at_least_one (dyadic 2 0))
    by (apply at_least_one_int; change (2 ^ 53) with 9007199254740992; lia).
  assert (AK : at_least_one (dyadic 20000 0))
    by (apply at_least_one_int; change (2 ^ 53) with 9007199254740992; lia).
  pose proof (at_least_one_multiplier opt) as AM.
  assert (HN : SFleb (SFmul prec emax lh lw) (SFmul prec emax lh' lw') = true)
    by (apply mul_mono; trivial).
  pose proof (at_least_one_mul lh lw Ah Aw) as AN.
  pose proof (at_least_one_mul lh' lw' Ah' Aw') as AN'.
  apply add_mono; trivial;
    try (apply at_least_one_add; repeat apply at_least_one_mul; trivial).
  apply add_mono; repeat apply at_least_one_mul; trivial;
    repeat (apply mul_mono; trivial;
            try (repeat apply at_least_one_mul; trivial);
            try (apply SFleb_refl; trivial)).
Qed.

(** What [f_estimate] computes on a valid input for which it returns. *)
Lemma f_estimate_valid_value h w pl opt g mode :
  valid_input h w pl -> f_estimate h w pl opt = Ok (g, mode) ->
  exists xA lh lw,
    float_of_int (C_WEIGHTS_BYTES + C_OVERHEAD_BYTES + C_L_FACTOR * pl) = Ok xA /\
    repr xA (C_WEIGHTS_BYTES + C_OVERHEAD_BYTES + C_L_FACTOR * pl) 0 /\
    truediv (Int h) (Int 8) = Ok (Float lh) /\
    truediv (Int w) (Int 8) = Ok (Float lw) /\
    at_least_one xA /\ at_least_one lh /\ at_least_one lw /\
    g = Float (SFdiv prec emax (peak_bytes xA lh lw opt)
                 (S754_finite false 4503599627370496 (-22))) /\
    mode = attention_mode_of opt.
Proof.
  intros (Hh & Hw & Hpl) H.
  destruct (truediv_8_cases h Hh) as [(lh & ih & Hlh & Ah & Hih & Hnh) | [R _]];
    [|rewrite (f_estimate_raise_h _ _ _ _ _ R) in H; discriminate H].
  destruct (truediv_8_cases w Hw) as [(lw & iw & Hlw & Aw & Hiw & Hnw) | [R _]];
    [|rewrite (f_estimate_raise_w _ _ _ _ _ _ Hlh R) in H; discriminate H].
  set (A := C_WEIGHTS_BYTES + C_OVERHEAD_BYTES + C_L_FACTOR * pl).
  assert (HA : 0 < A < 2 ^ 53).
  { unfold A, C_WEIGHTS_BYTES, C_OVERHEAD_BYTES, C_L_FACTOR.
    change (2 ^ 53) with 9007199254740992. lia. }
  destruct (float_of_int_exact A) as (xA & HxA & RxA); [lia|].
  assert (AxA : at_least_one xA)
    by (apply (repr_at_least_one xA A 0); trivial; lia).
  rewrite (f_estimate_unfold h w pl opt lh ih lw iw xA
             Hlh Hih Hnh Hlw Hiw Hnw HxA) in H.
  injection H as <- <-.
  exists xA, lh, lw. repeat split; trivial.
Qed.

(** The unrounded estimate is monotone in height, width and prompt length
    together. *)
Lemma f_estimate_monotone h1 w1 pl1 h2 w2 pl2 opt g1 g2 mode1 mode2 :
  valid_input h1 w1 pl1 -> valid_input h2 w2 pl2 ->
  h1 <= h2 -> w1 <= w2 -> pl1 <= pl2 ->
  f_estimate h1 w1 pl1 opt = Ok (g1, mode1) ->
  f_estimate h2 w2 pl2 opt = Ok (g2, mode2) ->
  le g1 g2 = true.
Proof.
  intros V1 V2 Hh Hw Hpl G1 G2.
  destruct (f_estimate_valid_value _ _ _ _ _ _ V1 G1)
    as (xA1 & lh1 & lw1 & _ & RA1 & Th1 & Tw1 & AA1 & Ah1 & Aw1 & -> & _).
  destruct (f_estimate_valid_value _ _ _ _ _ _ V2 G2)
    as (xA2 & lh2 & lw2 & _ & RA2 & Th2 & Tw2 & AA2 & Ah2 & Aw2 & -> & _).
  destruct V1 as (Vh1 & Vw1 & _). destruct V2 as (Vh2 & Vw2 & _).
  change (SFleb
            (SFdiv prec emax (peak_bytes xA1 lh1 lw1 opt)
               (S754_finite false 4503599627370496 (-22)))
            (SFdiv prec emax (peak_bytes xA2 lh2 lw2 opt)
               (S754_finite false 4503599627370496 (-22))) = true).
  apply div_2p30_mono; try (apply peak_bytes_at_least_one; trivial).
  apply peak_bytes_mono_all; trivial.
  - unfold SFleb. rewrite (repr_compare xA1 xA2 _ _ 0 RA1 RA2).
    unfold C_L_FACTOR.
    destruct (Z.compare_spec (C_WEIGHTS_BYTES + C_OVERHEAD_BYTES + 3072 * pl1)
                (C_WEIGHTS_BYTES + C_OVERHEAD_BYTES + 3072 * pl2)); trivial; lia.
  - apply (latent_mono h1 h2); trivial.
  - apply (latent_mono w1 w2); trivial.
Qed.

(** [round(., 2)] keeps the order of two estimates. *)
Lemma rounded_le h1 w1 pl1 opt1 h2 w2 pl2 opt2 g1 g2 mode1 mode2 p1 p2' :
  valid_input h1 w1 pl1 -> valid_input h2 w2 pl2 ->
  f_estimate h1 w1 pl1 opt1 = Ok (g1, mode1) ->
  f_estimate h2 w2 pl2 opt2 = Ok (g2, mode2) ->
  le g1 g2 = true ->
  round g1 2 = Ok p1 -> round g2 2 = Ok p2' ->
  le p1 p2' = true.
Proof.
  intros I1 I2 G1 G2 Hg R1 R2.
  destruct (f_estimate_normal _ _ _ _ _ _ I1 G1) as (x1 & -> & N1).
  destruct (f_estimate_normal _ _ _ _ _ _ I2 G2) as (x2 & -> & N2).
  change (SFleb x1 x2 = true) in Hg.
  cbn [round] in R1, R2.
  destruct (round_float x1 2) as [r1 | e] eqn:E1; cbn [bind] in R1;
    [|discriminate R1].
  destruct (round_float x2 2) as [r2 | e] eqn:E2; cbn [bind] in R2;
    [|discriminate R2].
  injection R1 as <-. injection R2 as <-.
  change (SFleb r1 r2 = true).
  assert (Hr1 : SFleb r1 r1 = true).
  { destruct N1 as [-> | (m1 & e1 & -> & D1)].
    - cbn in E1. injection E1 as <-. reflexivity.
    - apply (round_float_mono m1 e1 m1 e1); trivial.
      apply SFleb_finite. right. split; lia. }
  destruct N2 as [-> | (m2 & e2 & -> & D2)].
  - cbn in E2. injection E2 as <-.
    destruct r1 as [s | [|] | | [|] m e]; try discriminate Hr1; reflexivity.
  - destruct N1 as [-> | (m1 & e1 & -> & D1)]; [discriminate Hg|].
    apply (round_float_mono m1 e1 m2 e2); trivial.
Qed.

(** * Further properties of the estimator and of the handler *)

Lemma truediv_8_int h v :
  truediv (Int h) (Int 8) = Ok v ->
  exists x i, v = Float x /\ int (Float x) = Ok i.
Proof.
  intros H. pose proof (truediv_8_outcome h) as O. rewrite H in O.
  destruct v as [z | x]; try contradiction.
  destruct x as [[|] | | | s M E]; try contradiction.
  - exists (S754_zero false), 0. split; reflexivity.
  - destruct O as (_ & _ & Hd & HE & HE').
    pose proof (dg_pos (Z.to_pos (Z.abs h))).
    destruct (integral_test s M E Hd ltac:(lia)) as (i & Hi & _).
    exists (S754_finite s M E), i. split; trivial.
Qed.

Lemma truediv_8_raise h e :
  truediv (Int h) (Int 8) = Raise e ->
  e = OverflowError /\ 2 ^ 1026 <= Z.abs h.
Proof.
  intros H. pose proof (truediv_8_outcome h) as O. rewrite H in O.
  destruct e; try contradiction. split; trivial.
Qed.

(** X1: swapping height and width never changes what the estimator
    returns or raises, for all integers. *)
Theorem f_estimate_symmetric h w pl opt :
  f_estimate h w pl opt = f_estimate w h pl opt.
Proof.
  destruct (truediv (Int h) (Int 8)) as [vh | eh] eqn:Th;
    destruct (truediv (Int w) (Int 8)) as [vw | ew] eqn:Tw.
  - destruct (truediv_8_int h vh Th) as (lh & ih & -> & Hih).
    destruct (truediv_8_int w vw Tw) as (lw & iw & -> & Hiw).
    rewrite (f_estimate_by_cases h w pl opt lh ih lw iw Th Tw Hih Hiw).
    rewrite (f_estimate_by_cases w h pl opt lw iw lh ih Tw Th Hiw Hih).
    rewrite orb_comm.
    destruct (ne (Float lw) (Int iw) || ne (Float lh) (Int ih)); [reflexivity|].
    destruct (float_of_int _) as [xA | e]; cbn [bind]; [|reflexivity].
    rewrite (peak_bytes_comm xA lh lw). reflexivity.
  - rewrite (f_estimate_raise_w h w pl opt vh ew Th Tw).
    rewrite (f_estimate_raise_h w h pl opt ew Tw). reflexivity.
  - rewrite (f_estimate_raise_h h w pl opt eh Th).
    rewrite (f_estimate_raise_w w h pl opt vw eh Tw Th). reflexivity.
  - rewrite (f_estimate_raise_h h w pl opt eh Th).
    rewrite (f_estimate_raise_h w h pl opt ew Tw).
    destruct (truediv_8_raise h eh Th) as [-> _].
    destruct (truediv_8_raise w ew Tw) as [-> _]. reflexivity.
Qed.

(** X2: for all integers the estimator returns the sentinel, or an estimate
    with the description of the attention mode, or raises OverflowError;
    it raises only when a dimension is [2^1026] or more in absolute value,
    or the fixed and prompt costs are [2^1023] or more. *)
Theorem f_estimate_outcomes h w pl opt :
  f_estimate h w pl opt = Ok (Float minus_one, multiple_of_8_message)
  \/ (exists g, f_estimate h w pl opt = Ok (Float g, attention_mode_of opt))
  \/ (f_estimate h w pl opt = Raise OverflowError /\
      (2 ^ 1026 <= Z.abs h \/ 2 ^ 1026 <= Z.abs w \/
       2 ^ 1023 <= Z.abs (C_WEIGHTS_BYTES + C_OVERHEAD_BYTES + C_L_FACTOR * pl))).
Proof.
  destruct (truediv (Int h) (Int 8)) as [vh | eh] eqn:Th.
  2:{ destruct (truediv_8_raise h eh Th) as [-> Hb].
      right. right. split; [apply f_estimate_raise_h; exact Th | left; exact Hb]. }
  destruct (truediv (Int w) (Int 8)) as [vw | ew] eqn:Tw.
  2:{ destruct (truediv_8_raise w ew Tw) as [-> Hb].
      right. right.
      split; [apply (f_estimate_raise_w h w pl opt vh); trivial
             | right; left; exact Hb]. }
  destruct (truediv_8_int h vh Th) as (lh & ih & -> & Hih).
  destruct (truediv_8_int w vw Tw) as (lw & iw & -> & Hiw).
  rewrite (f_estimate_by_cases h w pl opt lh ih lw iw Th Tw Hih Hiw).
  destruct (ne (Float lh) (Int ih) || ne (Float lw) (Int iw));
    [left; reflexivity|].
  right.
  set (A := C_WEIGHTS_BYTES + C_OVERHEAD_BYTES + C_L_FACTOR * pl).
  destruct (Z_lt_ge_dec (Z.abs A) (2 ^ 1023)) as [Hs | Hl].
  - destruct (float_of_int_ok A Hs) as (xA & ->). cbn [bind].
    left. eexists. reflexivity.
  - unfold float_of_int.
    destruct (dyadic A 0); cbn [overflow_check bind];
      try (left; eexists; reflexivity).
    right. split; [reflexivity|]. right. right. lia.
Qed.

(** X3: on multiples of 8 (of any sign, zero included) whose byte counts
    stay below [2^53], the estimate is exactly the integer byte count
    [2,632,400,000 + 3072 * prompt_length + (h/8) * (w/8) * 20008] (25008
    without the optimization) divided by [2^30], with no rounding. *)
Theorem f_estimate_closed_form a b pl opt :
  Z.abs a < 2 ^ 53 -> Z.abs b < 2 ^ 53 ->
  Z.abs (a * b) * 25008
    + Z.abs (C_WEIGHTS_BYTES + C_OVERHEAD_BYTES + C_L_FACTOR * pl) < 2 ^ 53 ->
  exists g,
    f_estimate (8 * a) (8 * b) pl opt = Ok (g, attention_mode_of opt) /\
    exactly g (2632400000 + 3072 * pl
               + a * b * (if opt then 20008 else 25008)) (-30).
Proof.
  intros Ha Hb Hr.
  apply (f_estimate_exact (8 * a) (8 * b) pl opt a b); trivial.
Qed.

Lemma f_estimate_closed_form_witness :
  (Z.abs 64 < 2 ^ 53 /\ Z.abs 96 < 2 ^ 53 /\
   Z.abs (64 * 96) * 25008
     + Z.abs (C_WEIGHTS_BYTES + C_OVERHEAD_BYTES + C_L_FACTOR * 77) < 2 ^ 53) /\
  exists g,
    f_estimate (8 * 64) (8 * 96) 77 false = Ok (g, attention_mode_of false) /\
    exactly g (2632400000 + 3072 * 77 + 64 * 96 * 25008) (-30).
Proof.
  assert (H1 : Z.abs 64 < 2 ^ 53) by reflexivity.
  assert (H2 : Z.abs 96 < 2 ^ 53) by reflexivity.
  assert (H3 : Z.abs (64 * 96) * 25008
               + Z.abs (C_WEIGHTS_BYTES + C_OVERHEAD_BYTES + C_L_FACTOR * 77)
               < 2 ^ 53) by reflexivity.
  split; [split; [exact H1 | split; [exact H2 | exact H3]]|].
  exact (f_estimate_closed_form 64 96 77 false H1 H2 H3).
Defined.

(** X4: the test of line 45 lets every dimension of [2^55] or more pass,
    multiple of 8 or not: for such a height and width (below the overflow
    threshold [2^1026]) the estimator returns an estimate with the
    description of the attention mode, at least the fixed cost, never the
    sentinel, and the handler answers with a breakdown. *)
Theorem f_estimate_accepts_large_dimensions h w pl opt :
  2 ^ 55 <= h < 2 ^ 1026 -> 2 ^ 55 <= w < 2 ^ 1026 -> 1 <= pl <= 77 ->
  (exists g fx,
     f_estimate h w pl opt = Ok (g, attention_mode_of opt) /\
     fixed_cost_gb = Ok fx /\
     le fx g = true) /\
  (exists p f s,
     estimate_vram_endpoint (request h w pl opt)
     = Ok (Breakdown p (attention_mode_of opt) f s)).
Proof.
  intros Hh Hw Hpl.
  assert (H55 : 0 < 2 ^ 55) by reflexivity.
  assert (Hint : forall d, 2 ^ 55 <= d < 2 ^ 1026 ->
            exists x i, truediv (Int d) (Int 8) = Ok (Float x) /\
                        int (Float x) = Ok i /\ ne (Float x) (Int i) = false).
  { intros d Hd. pose proof (truediv_8_outcome d) as O.
    destruct (truediv (Int d) (Int 8)) as [[z | x] | e]; try contradiction.
    - destruct x as [[|] | | | s M E]; try contradiction; try lia.
      destruct O as (_ & _ & HdM & HE & HE').
      assert (56 <= dg (Z.to_pos (Z.abs d))).
      { apply (dg_ge _ 55); [lia|]. rewrite Z2Pos.id by lia. lia. }
      destruct (integral_test s M E HdM ltac:(lia)) as (i & Hi & Hne & _).
      exists (S754_finite s M E), i. repeat split; trivial. apply Hne. lia.
    - destruct e; try contradiction. lia. }
  destruct (Hint h Hh) as (lh & ih & Th & Hih & Nh).
  destruct (Hint w Hw) as (lw & iw & Tw & Hiw & Nw).
  pose proof (f_estimate_by_cases h w pl opt lh ih lw iw Th Tw Hih Hiw) as E.
  rewrite Nh, Nw in E. cbn [orb] in E.
  assert (Hnot : f_estimate h w pl opt
                 <> Ok (Float minus_one, multiple_of_8_message)).
  { intros Hs. rewrite Hs in E.
    destruct (float_of_int _); cbn [bind] in E; [|discriminate E].
    injection E as _ E. destruct opt; discriminate E. }
  destruct (f_estimate_positive h w pl opt ltac:(lia) ltac:(lia) Hpl)
    as [Hs | [(g & Hg & Hle & _) | (Hr & Hb)]]; [contradiction | | lia].
  split.
  - exists (Float g), (Float (S754_finite false 5520542924800000 (-51))).
    split; [exact Hg|]. split; [reflexivity | exact Hle].
  - pose proof (handler_outcome (request h w pl opt)) as O.
    cbn [height width prompt_length optimization request] in O.
    destruct (estimate_vram_endpoint (request h w pl opt)) as [resp | e].
    + destruct O as [[_ Hd] | [(_ & _ & _ & Hp) | [[_ Hs] | (g' & p & f & s & _ & -> & _)]]];
        try lia; [contradiction|].
      do 3 eexists. reflexivity.
    + destruct O as [_ Hb]. lia.
Qed.

Lemma f_estimate_accepts_large_dimensions_witness :
  (2 ^ 55 <= 2 ^ 55 + 1 < 2 ^ 1026 /\ 2 ^ 55 <= 2 ^ 55 + 3 < 2 ^ 1026 /\
   1 <= 20 <= 77) /\
  (exists g fx,
     f_estimate (2 ^ 55 + 1) (2 ^ 55 + 3) 20 true
     = Ok (g, attention_mode_of true) /\
     fixed_cost_gb = Ok fx /\
     le fx g = true) /\
  (exists p f s,
     estimate_vram_endpoint (request (2 ^ 55 + 1) (2 ^ 55 + 3) 20 true)
     = Ok (Breakdown p (attention_mode_of true) f s)).
Proof.
  assert (H1 : 2 ^ 55 <= 2 ^ 55 + 1 < 2 ^ 1026) by (split; [lia | reflexivity]).
  assert (H2 : 2 ^ 55 <= 2 ^ 55 + 3 < 2 ^ 1026) by (split; [lia | reflexivity]).
  assert (H3 : 1 <= 20 <= 77) by lia.
  split; [split; [exact H1 | split; [exact H2 | exact H3]]|].
  exact (f_estimate_accepts_large_dimensions (2 ^ 55 + 1) (2 ^ 55 + 3) 20 true
           H1 H2 H3).
Defined.

(** X5: the handler raises nothing but OverflowError, and that only when
    height or width is [2^1026] or more; every other request is answered. *)
Theorem handler_raises_only_overflow r :
  (exists resp, estimate_vram_endpoint r = Ok resp)
  \/ (estimate_vram_endpoint r = Raise OverflowError /\
      (2 ^ 1026 <= height r \/ 2 ^ 1026 <= width r)).
Proof.
  pose proof (handler_outcome r) as O.
  destruct (estimate_vram_endpoint r) as [resp | e].
  - left. exists resp. reflexivity.
  - right. destruct O as [-> Hb]. split; trivial.
Qed.

(** X6: an error response is one of three fixed dictionaries; the "error"
    of the third is always the message of the estimator's sentinel, never
    the description of an attention mode. *)
Theorem handler_error_responses r error details :
  estimate_vram_endpoint r = Ok (ErrorResponse error details) ->
  (error = "Invalid dimensions" /\
   details = "Height and width must be positive integers." /\
   (height r <= 0 \/ width r <= 0))
  \/ (error = "Invalid prompt length" /\
      details = "Prompt length must be between 1 and 77 tokens." /\
      (prompt_length r < 1 \/ 77 < prompt_length r))
  \/ (error = "Input dimensions must be multiples of 8." /\
      details = "Please use dimensions divisible by 8 (e.g., 512, 768, 1024)." /\
      f_estimate (height r) (width r) (prompt_length r) (optimization r)
      = Ok (Float minus_one, multiple_of_8_message)).
Proof.
  intros H. pose proof (handler_outcome r) as O. rewrite H in O.
  destruct O as [[E Hd] | [(E & _ & _ & Hp) | [[E Hs] | (g & p & f & s & _ & E & _)]]].
  - injection E as -> ->. left. repeat split; trivial.
  - injection E as -> ->. right. left. repeat split; trivial.
  - injection E as -> ->. right. right. repeat split; trivial.
  - discriminate E.
Qed.

Lemma handler_error_responses_witness :
  estimate_vram_endpoint (request 513 512 20 true)
  = Ok (ErrorResponse "Input dimensions must be multiples of 8."
          "Please use dimensions divisible by 8 (e.g., 512, 768, 1024).") /\
  (("Input dimensions must be multiples of 8." = "Invalid dimensions" /\
    "Please use dimensions divisible by 8 (e.g., 512, 768, 1024)."
    = "Height and width must be positive integers." /\
    (height (request 513 512 20 true) <= 0 \/
     width (request 513 512 20 true) <= 0))
   \/ ("Input dimensions must be multiples of 8." = "Invalid prompt length" /\
       "Please use dimensions divisible by 8 (e.g., 512, 768, 1024)."
       = "Prompt length must be between 1 and 77 tokens." /\
       (prompt_length (request 513 512 20 true) < 1 \/
        77 < prompt_length (request 513 512 20 true)))
   \/ ("Input dimensions must be multiples of 8."
       = "Input dimensions must be multiples of 8." /\
       "Please use dimensions divisible by 8 (e.g., 512, 768, 1024)."
       = "Please use dimensions divisible by 8 (e.g., 512, 768, 1024)." /\
       f_estimate (height (request 513 512 20 true))
         (width (request 513 512 20 true))
         (prompt_length (request 513 512 20 true))
         (optimization (request 513 512 20 true))
       = Ok (Float minus_one, multiple_of_8_message))).
Proof.
  assert (H : estimate_vram_endpoint (request 513 512 20 true)
              = Ok (ErrorResponse "Input dimensions must be multiples of 8."
                      "Please use dimensions divisible by 8 (e.g., 512, 768, 1024)."))
    by (vm_compute; reflexivity).
  split; [exact H|].
  exact (handler_error_responses (request 513 512 20 true) _ _ H).
Defined.

Lemma le_zero_positive m e :
  le (Int 0) (Float (S754_finite false m e)) = true.
Proof.
  unfold le. cbn [compare compare_float_int cond_Zopp option_map].
  destruct (Z.leb_spec 0 e).
  - rewrite Z.shiftl_mul_pow2 by lia.
    pose proof (pow2_pos e ltac:(lia)).
    destruct (Z.compare_spec (Zpos m * 2 ^ e) 0); trivial; nia.
  - rewrite Z.shiftl_0_l. reflexivity.
Qed.

(** X7: in every breakdown the attention mode is the description of the
    request's flag, fixed_cost_gb is 2.45, predicted_vram_gb is at least
    fixed_cost_gb and spatial_cost_gb is not negative. *)
Theorem handler_breakdown_invariants r p mode f s :
  estimate_vram_endpoint r = Ok (Breakdown p mode f s) ->
  mode = attention_mode_of (optimization r) /\
  decimal2 245 = Ok f /\
  le f p = true /\
  le (Int 0) s = true.
Proof.
  intros H. pose proof (handler_outcome r) as O. rewrite H in O.
  destruct O as [[E _] | [(E & _) | [[E _] | (g & p' & f' & s' & _ & E & _ & Hf & _ & Hfp & Hs & _)]]];
    try discriminate E.
  injection E as -> -> -> ->. repeat split; trivial.
  destruct s' as [[|] | [|] | | [|] m e]; try discriminate Hs;
    try reflexivity. apply le_zero_positive.
Qed.

Lemma handler_breakdown_invariants_witness :
  exists p mode f s,
    estimate_vram_endpoint (request 8 8 1 true) = Ok (Breakdown p mode f s) /\
    mode = attention_mode_of (optimization (request 8 8 1 true)) /\
    decimal2 245 = Ok f /\
    le f p = true /\
    le (Int 0) s = true.
Proof.
  do 4 eexists.
  assert (H : estimate_vram_endpoint (request 8 8 1 true) = Ok _)
    by (vm_compute; reflexivity).
  split; [exact H|].
  exact (handler_breakdown_invariants (request 8 8 1 true) _ _ _ _ H).
Defined.

(** X8: for a valid request with height * width <= 2^44 the handler answers
    with a breakdown whose fields are the decimals [c / 100] of the integer
    byte counts: with [T] the total of the cost model, predicted_vram_gb has
    [c] the nearest integer (ties to even) to [100 * T / 2^30],
    fixed_cost_gb is 2.45 and spatial_cost_gb has [c] nearest to
    [100 * (T - 2,632,400,000) / 2^30]. *)
Theorem handler_closed_form h w pl opt :
  valid_input h w pl -> h * w <= 2 ^ 44 ->
  exists p f s,
    estimate_vram_endpoint (request h w pl opt)
    = Ok (Breakdown p (attention_mode_of opt) f s) /\
    decimal2 (div_nearest_even
                (100 * total_bytes (h / 8) (w / 8) pl opt) (2 ^ 30)) = Ok p /\
    decimal2 245 = Ok f /\
    decimal2 (div_nearest_even
                (100 * (total_bytes (h / 8) (w / 8) pl opt - 2632400000))
                (2 ^ 30)) = Ok s.
Proof.
  intros Hv Hr.
  destruct (valid_input_exact h w pl Hv Hr)
    as (a & b & Ea & Eb & Ha0 & Hb0 & Ha & Hb & Hrange).
  assert (Eha : h / 8 = a) by (subst h; rewrite Z.mul_comm; apply Z.div_mul; lia).
  assert (Ewb : w / 8 = b) by (subst w; rewrite Z.mul_comm; apply Z.div_mul; lia).
  rewrite Eha, Ewb.
  destruct (f_estimate_exact h w pl opt a b Ea Eb Ha Hb Hrange) as (g & Hg & Eg).
  set (T := total_bytes a b pl opt) in *.
  assert (HT : 2632400000 < T < 2 ^ 53).
  { unfold T, total_bytes. revert Hrange.
    unfold C_WEIGHTS_BYTES, C_OVERHEAD_BYTES, C_L_FACTOR.
    change (2 ^ 53) with 9007199254740992.
    destruct Hv as (_ & _ & Hpl). destruct opt; nia. }
  change (2 ^ 53) with 9007199254740992 in HT.
  pose proof (handler_outcome (request h w pl opt)) as O.
  cbn [height width prompt_length optimization request] in O.
  destruct (estimate_vram_endpoint (request h w pl opt)) as [resp | e].
  2:{ exfalso. destruct O as [_ Hbig]. destruct Hv as ((? & _) & (? & _) & _).
      assert (2 ^ 44 < 2 ^ 1026) by reflexivity. nia. }
  destruct Hv as ((Hhpos & _) & (Hwpos & _) & Hpl).
  destruct O as [[_ Hd] | [(_ & _ & _ & Hp) | [[_ Hs] | (g' & p & f & s & Hg' & -> & Rp & Df & Rs & _)]]];
    try lia.
  { exfalso. rewrite Hg in Hs. injection Hs as _ Hs. destruct opt; discriminate Hs. }
  rewrite Hg in Hg'. injection Hg' as ->.
  exists (Float p), (Float f), (Float s). split; [reflexivity|].
  destruct fixed_cost_gb_exact as (fx & Hfx & Efx).
  rewrite fixed_cost_gb_value in Hfx. injection Hfx as <-.
  destruct (sub_exact (Float g') _ T 2632400000 (-30) Eg Efx) as (d & Hd & Ed);
    try (change (2 ^ 53) with 9007199254740992; lia).
  cbn [sub to_float bind] in Hd. injection Hd as <-.
  pose proof (hundredths_exact (Float g') T (-30) Eg ltac:(lia) ltac:(lia)) as H1.
  pose proof (hundredths_exact _ (T - 2632400000) (-30) Ed ltac:(lia) ltac:(lia))
    as H2.
  change (2 ^ (- -30)) with (2 ^ 30) in H1, H2. rewrite <- H1, <- H2.
  rewrite <- (round_exactly (Float g') T (-30) Eg) by lia.
  rewrite <- (round_exactly _ (T - 2632400000) (-30) Ed) by lia.
  cbn [round]. rewrite Rp, Rs. cbn [bind]. repeat split; trivial.
Qed.

Lemma handler_closed_form_witness :
  (valid_input 768 512 40 /\ 768 * 512 <= 2 ^ 44) /\
  exists p f s,
    estimate_vram_endpoint (request 768 512 40 false)
    = Ok (Breakdown p (attention_mode_of false) f s) /\
    decimal2 (div_nearest_even
                (100 * total_bytes (768 / 8) (512 / 8) 40 false) (2 ^ 30)) = Ok p /\
    decimal2 245 = Ok f /\
    decimal2 (div_nearest_even
                (100 * (total_bytes (768 / 8) (512 / 8) 40 false - 2632400000))
                (2 ^ 30)) = Ok s.
Proof.
  assert (Hv : valid_input 768 512 40).
  { unfold valid_input, valid_dimension. repeat split; try reflexivity; lia. }
  assert (Hr : 768 * 512 <= 2 ^ 44) by (vm_compute; discriminate).
  split; [split; [exact Hv | exact Hr]|].
  exact (handler_closed_form 768 512 40 false Hv Hr).
Defined.

(** X9: for positive dimensions below [2^53] and a prompt length in 1..77
    the handler answers with the multiples-of-8 error exactly when height
    or width is not a multiple of 8. *)
Theorem handler_rejects_non_multiples h w pl opt :
  0 < h < 2 ^ 53 -> 0 < w < 2 ^ 53 -> 1 <= pl <= 77 ->
  (estimate_vram_endpoint (request h w pl opt)
   = Ok (NonMultipleOf8 multiple_of_8_message)
   <-> h mod 8 <> 0 \/ w mod 8 <> 0).
Proof.
  intros Hh Hw Hpl.
  pose proof (handler_outcome (request h w pl opt)) as O.
  cbn [height width prompt_length optimization request] in O.
  assert (H53 : 2 ^ 53 < 2 ^ 1026) by reflexivity.
  split.
  - intros H. rewrite H in O.
    destruct O as [[E _] | [(E & _) | [[_ Hs] | (g & p & f & s & _ & E & _)]]];
      try discriminate E.
    destruct (Z.eq_dec (h mod 8) 0) as [Eh | Eh]; [|left; trivial].
    destruct (Z.eq_dec (w mod 8) 0) as [Ew | Ew]; [|right; trivial].
    exfalso.
    destruct (f_estimate_returns h w pl opt Eh Ew ltac:(lia) ltac:(lia))
      as (g & Hg).
    { unfold C_WEIGHTS_BYTES, C_OVERHEAD_BYTES, C_L_FACTOR.
      assert (2 ^ 53 < 2 ^ 1023) by reflexivity.
      change (2 ^ 53) with 9007199254740992 in *. lia. }
    rewrite Hs in Hg. destruct opt; discriminate Hg.
  - intros Hnot.
    pose proof (f_estimate_sentinel h w pl opt ltac:(lia) ltac:(lia) Hnot) as Hs.
    destruct (estimate_vram_endpoint (request h w pl opt)) as [resp | e].
    + destruct O as [[_ Hd] | [(_ & _ & _ & Hp) | [[-> _] | (g & p & f & s & Hg & _)]]];
        try lia; trivial.
      rewrite Hs in Hg. destruct opt; discriminate Hg.
    + destruct O as [_ Hb]. lia.
Qed.

Lemma handler_rejects_non_multiples_witness :
  (0 < 516 < 2 ^ 53 /\ 0 < 512 < 2 ^ 53 /\ 1 <= 20 <= 77) /\
  (estimate_vram_endpoint (request 516 512 20 true)
   = Ok (NonMultipleOf8 multiple_of_8_message)
   <-> 516 mod 8 <> 0 \/ 512 mod 8 <> 0).
Proof.
  assert (H1 : 0 < 516 < 2 ^ 53) by (split; reflexivity).
  assert (H2 : 0 < 512 < 2 ^ 53) by (split; reflexivity).
  assert (H3 : 1 <= 20 <= 77) by lia.
  split; [split; [exact H1 | split; [exact H2 | exact H3]]|].
  exact (handler_rejects_non_multiples 516 512 20 true H1 H2 H3).
Defined.

(** X10: predicted_vram_gb is monotone in height, width and prompt length
    together: a valid request that is at least another one in all three
    (same flag) never gets a smaller predicted_vram_gb. *)
Theorem predicted_vram_gb_monotone_all
    h1 w1 pl1 h2 w2 pl2 opt p1 mode1 f1 s1 p2' mode2 f2 s2 :
  valid_input h1 w1 pl1 -> valid_input h2 w2 pl2 ->
  h1 <= h2 -> w1 <= w2 -> pl1 <= pl2 ->
  estimate_vram_endpoint (request h1 w1 pl1 opt)
    = Ok (Breakdown p1 mode1 f1 s1) ->
  estimate_vram_endpoint (request h2 w2 pl2 opt)
    = Ok (Breakdown p2' mode2 f2 s2) ->
  le p1 p2' = true.
Proof.
  intros V1 V2 Hh Hw Hpl B1 B2.
  destruct (breakdown_inv _ _ _ _ _ B1) as (_ & _ & _ & g1 & G1 & R1).
  destruct (breakdown_inv _ _ _ _ _ B2) as (_ & _ & _ & g2 & G2 & R2).
  cbn [height width prompt_length optimization request] in *.
  apply (rounded_le h1 w1 pl1 opt h2 w2 pl2 opt g1 g2 mode1 mode2); trivial.
  apply (f_estimate_monotone h1 w1 pl1 h2 w2 pl2 opt g1 g2 mode1 mode2); trivial.
Qed.

Lemma predicted_vram_gb_monotone_all_witness :
  exists p1 mode1 f1 s1 p2' mode2 f2 s2,
    (valid_input 512 512 20 /\ valid_input 512 768 77 /\
     512 <= 512 /\ 512 <= 768 /\ 20 <= 77 /\
     estimate_vram_endpoint (request 512 512 20 true)
       = Ok (Breakdown p1 mode1 f1 s1) /\
     estimate_vram_endpoint (request 512 768 77 true)
       = Ok (Breakdown p2' mode2 f2 s2)) /\
    le p1 p2' = true.
Proof.
  do 8 eexists.
  assert (V1 : valid_input 512 512 20).
  { unfold valid_input, valid_dimension. repeat split; try reflexivity; lia. }
  assert (V2 : valid_input 512 768 77).
  { unfold valid_input, valid_dimension. repeat split; try reflexivity; lia. }
  assert (H1 : 512 <= 512) by lia.
  assert (H2 : 512 <= 768) by lia.
  assert (H3 : 20 <= 77) by lia.
  assert (B1 : estimate_vram_endpoint (request 512 512 20 true) = Ok _)
    by (vm_compute; reflexivity).
  assert (B2 : estimate_vram_endpoint (request 512 768 77 true) = Ok _)
    by (vm_compute; reflexivity).
  split; [split; [exact V1 | split; [exact V2 | split; [exact H1 |
          split; [exact H2 | split; [exact H3 | split; [exact B1 | exact B2]]]]]]|].
  exact (predicted_vram_gb_monotone_all 512 512 20 512 768 77 true
           _ _ _ _ _ _ _ _ V1 V2 H1 H2 H3 B1 B2).
Defined.

(** X11: for the same valid height, width and prompt length the
    predicted_vram_gb with the optimization is never above the one
    without it. *)
Theorem predicted_optimized_le_standard
    h w pl p_opt mode_opt f_opt s_opt p_std mode_std f_std s_std :
  valid_input h w pl ->
  estimate_vram_endpoint (request h w pl true)
    = Ok (Breakdown p_opt mode_opt f_opt s_opt) ->
  estimate_vram_endpoint (request h w pl false)
    = Ok (Breakdown p_std mode_std f_std s_std) ->
  le p_opt p_std = true.
Proof.
  intros V B1 B2.
  destruct (breakdown_inv _ _ _ _ _ B1) as (_ & _ & _ & g1 & G1 & R1).
  destruct (breakdown_inv _ _ _ _ _ B2) as (_ & _ & _ & g2 & G2 & R2).
  cbn [height width prompt_length optimization request] in *.
  apply (rounded_le h w pl true h w pl false g1 g2 mode_opt mode_std); trivial.
  destruct (f_estimate_optimized_below h w pl V)
    as [(x1 & x2 & H1 & H2 & Hb) | (Hr & _)];
    [|rewrite Hr in G1; discriminate G1].
  rewrite H1 in G1. injection G1 as <- _.
  rewrite H2 in G2. injection G2 as <- _.
  change (SFleb x1 x2 = true).
  destruct Hb as [Hlt | [-> ->]]; [|reflexivity].
  unfold SFltb in Hlt. unfold SFleb.
  destruct (SFcompare x1 x2) as [[| |]|]; try discriminate Hlt; reflexivity.
Qed.

Lemma predicted_optimized_le_standard_witness :
  exists p_opt mode_opt f_opt s_opt p_std mode_std f_std s_std,
    (valid_input 1024 1024 77 /\
     estimate_vram_endpoint (request 1024 1024 77 true)
       = Ok (Breakdown p_opt mode_opt f_opt s_opt) /\
     estimate_vram_endpoint (request 1024 1024 77 false)
       = Ok (Breakdown p_std mode_std f_std s_std)) /\
    le p_opt p_std = true.
Proof.
  do 8 eexists.
  assert (V : valid_input 1024 1024 77).
  { unfold valid_input, valid_dimension. repeat split; try reflexivity; lia. }
  assert (B1 : estimate_vram_endpoint (request 1024 1024 77 true) = Ok _)
    by (vm_compute; reflexivity).
  assert (B2 : estimate_vram_endpoint (request 1024 1024 77 false) = Ok _)
    by (vm_compute; reflexivity).
  split; [split; [exact V | split; [exact B1 | exact B2]]|].
  exact (predicted_optimized_le_standard 1024 1024 77 _ _ _ _ _ _ _ _ V B1 B2).
Defined.

(** X12: bytes_to_gb is exact on every integer byte count below [2^53] in
    absolute value: the result is the double [b / 2^30] with no rounding, so
    it keeps the order of the byte counts strictly. *)
Theorem bytes_to_gb_exact_and_ordered b1 b2 :
  Z.abs b1 < 2 ^ 53 -> Z.abs b2 < 2 ^ 53 ->
  exists g1 g2,
    bytes_to_gb (Int b1) = Ok g1 /\ bytes_to_gb (Int b2) = Ok g2 /\
    exactly g1 b1 (-30) /\ exactly g2 b2 (-30) /\
    lt g1 g2 = (b1 <? b2) /\ eq g1 g2 = (b1 =? b2).
Proof.
  intros H1 H2.
  destruct (bytes_to_gb_int_exact b1 H1) as (g1 & Hg1 & E1).
  destruct (bytes_to_gb_int_exact b2 H2) as (g2 & Hg2 & E2).
  exists g1, g2. repeat split; trivial.
  - apply (lt_exact g1 g2 b1 b2 (-30)); trivial.
  - unfold eq. rewrite (compare_exact g1 g2 b1 b2 (-30) E1 E2).
    destruct (Z.compare_spec b1 b2); symmetry;
      [apply Z.eqb_eq | apply Z.eqb_neq | apply Z.eqb_neq]; lia.
Qed.

Lemma bytes_to_gb_exact_and_ordered_witness :
  (Z.abs 2632400000 < 2 ^ 53 /\ Z.abs 2714414208 < 2 ^ 53) /\
  exists g1 g2,
    bytes_to_gb (Int 2632400000) = Ok g1 /\
    bytes_to_gb (Int 2714414208) = Ok g2 /\
    exactly g1 2632400000 (-30) /\ exactly g2 2714414208 (-30) /\
    lt g1 g2 = (2632400000 <? 2714414208) /\
    eq g1 g2 = (2632400000 =? 2714414208).
Proof.
  assert (H1 : Z.abs 2632400000 < 2 ^ 53) by reflexivity.
  assert (H2 : Z.abs 2714414208 < 2 ^ 53) by reflexivity.
  split; [split; [exact H1 | exact H2]|].
  exact (bytes_to_gb_exact_and_ordered 2632400000 2714414208 H1 H2).
Defined.

(** X13: a height or width of [2^1027] or more makes the estimator raise
    OverflowError whatever the other arguments are, and the handler with
    it when the request passes its two range checks. *)
Theorem overflow_above_2p1027 h w pl opt :
  2 ^ 1027 <= h \/ 2 ^ 1027 <= w ->
  f_estimate h w pl opt = Raise OverflowError /\
  (0 < h -> 0 < w -> 1 <= pl <= 77 ->
   estimate_vram_endpoint (request h w pl opt) = Raise OverflowError).
Proof.
  intros Hbig.
  assert (Hraise : forall d, 2 ^ 1027 <= d ->
            truediv (Int d) (Int 8) = Raise OverflowError).
  { intros d Hd. pose proof (truediv_8_outcome d) as O.
    assert (H0 : 0 < 2 ^ 1027) by reflexivity.
    destruct (truediv (Int d) (Int 8)) as [[z | x] | e]; try contradiction.
    - destruct x as [[|] | | | s M E]; try contradiction; try lia.
      destruct O as (_ & _ & _ & HE & HE').
      assert (1028 <= dg (Z.to_pos (Z.abs d))).
      { apply (dg_ge _ 1027); [lia|]. rewrite Z2Pos.id by lia. lia. }
      lia.
    - destruct e; try contradiction. reflexivity. }
  assert (Hf : f_estimate h w pl opt = Raise OverflowError).
  { destruct Hbig as [Hh | Hw].
    - apply f_estimate_raise_h, Hraise, Hh.
    - destruct (truediv (Int h) (Int 8)) as [vh | eh] eqn:Th.
      + apply (f_estimate_raise_w h w pl opt vh); trivial. apply Hraise, Hw.
      + destruct (truediv_8_raise h eh Th) as [-> _].
        apply f_estimate_raise_h, Th. }
  split; [exact Hf|].
  intros Hh Hw Hpl. unfold estimate_vram_endpoint.
  cbn [height width prompt_length optimization request].
  destruct (Z.leb_spec h 0); [lia|]. destruct (Z.leb_spec w 0); [lia|].
  cbn [orb].
  destruct (Z.ltb_spec pl 1); [lia|]. destruct (Z.ltb_spec 77 pl); [lia|].
  cbn [orb]. rewrite Hf. reflexivity.
Qed.

Lemma overflow_above_2p1027_witness :
  ((2 ^ 1027 <= 512 \/ 2 ^ 1027 <= 2 ^ 1027 + 5) /\
   0 < 512 /\ 0 < 2 ^ 1027 + 5 /\ 1 <= 20 <= 77) /\
  f_estimate 512 (2 ^ 1027 + 5) 20 false = Raise OverflowError /\
  estimate_vram_endpoint (request 512 (2 ^ 1027 + 5) 20 false)
  = Raise OverflowError.
Proof.
  assert (H : 2 ^ 1027 <= 512 \/ 2 ^ 1027 <= 2 ^ 1027 + 5) by (right; lia).
  assert (H1 : 0 < 512) by lia.
  assert (H2 : 0 < 2 ^ 1027 + 5) by reflexivity.
  assert (H3 : 1 <= 20 <= 77) by lia.
  split; [split; [exact H | split; [exact H1 | split; [exact H2 | exact H3]]]|].
  destruct (overflow_above_2p1027 512 (2 ^ 1027 + 5) 20 false H) as [Hf Hh].
  split; [exact Hf | exact (Hh H1 H2 H3)].
Defined.

(** X14: every valid request (height and width positive multiples of 8,
    prompt length in 1..77) with both dimensions below [2^1026] is answered
    with a breakdown carrying the description of its attention mode. *)
Theorem valid_request_gets_breakdown h w pl opt :
  valid_input h w pl -> h < 2 ^ 1026 -> w < 2 ^ 1026 ->
  exists p f s,
    estimate_vram_endpoint (request h w pl opt)
    = Ok (Breakdown p (attention_mode_of opt) f s).
Proof.
  intros ((Hh & Hh8) & (Hw & Hw8) & Hpl) Bh Bw.
  pose proof (handler_outcome (request h w pl opt)) as O.
  cbn [height width prompt_length optimization request] in O.
  destruct (f_estimate_returns h w pl opt Hh8 Hw8 ltac:(lia) ltac:(lia))
    as (g & Hg).
  { unfold C_WEIGHTS_BYTES, C_OVERHEAD_BYTES, C_L_FACTOR.
    assert (2 ^ 53 < 2 ^ 1023) by reflexivity.
    change (2 ^ 53) with 9007199254740992 in *. lia. }
  destruct (estimate_vram_endpoint (request h w pl opt)) as [resp | e].
  - destruct O as [[_ Hd] | [(_ & _ & _ & Hp) | [[_ Hs] | (g' & p & f & s & _ & -> & _)]]];
      try lia.
    + rewrite Hs in Hg. destruct opt; discriminate Hg.
    + do 3 eexists. reflexivity.
  - destruct O as [_ Hb]. lia.
Qed.

Lemma valid_request_gets_breakdown_witness :
  (valid_input (2 ^ 600) (2 ^ 500) 77 /\ 2 ^ 600 < 2 ^ 1026 /\
   2 ^ 500 < 2 ^ 1026) /\
  exists p f s,
    estimate_vram_endpoint (request (2 ^ 600) (2 ^ 500) 77 false)
    = Ok (Breakdown p (attention_mode_of false) f s).
Proof.
  assert (V : valid_input (2 ^ 600) (2 ^ 500) 77).
  { unfold valid_input, valid_dimension. repeat split; try reflexivity; lia. }
  assert (H1 : 2 ^ 600 < 2 ^ 1026) by reflexivity.
  assert (H2 : 2 ^ 500 < 2 ^ 1026) by reflexivity.
  split; [split; [exact V | split; [exact H1 | exact H2]]|].
  exact (valid_request_gets_breakdown (2 ^ 600) (2 ^ 500) 77 false V H1 H2).
Defined.

(** X15: the numeric fields of a breakdown have two decimals: each of
    predicted_vram_gb and spatial_cost_gb is [+inf] or the double nearest to
    [c / 100] for an integer [c], with [c >= 245] for predicted_vram_gb and
    [c >= 0] for spatial_cost_gb. *)
Theorem breakdown_fields_have_two_decimals r p mode f s :
  estimate_vram_endpoint r = Ok (Breakdown p mode f s) ->
  ((exists c, 245 <= c /\ decimal2 c = Ok p) \/ p = Float (S754_infinity false)) /\
  ((exists c, 0 <= c /\ decimal2 c = Ok s) \/ s = Float (S754_infinity false)).
Proof.
  intros H. pose proof (handler_outcome r) as O. rewrite H in O.
  destruct O as [[E _] | [(E & _) | [[E _] | (g & p' & f' & s' & _ & E & _ & _ & _ & _ & _ & Hp & Hs)]]];
    try discriminate E.
  injection E as -> _ _ ->. split.
  - destruct Hp as [(c & Hc & Hd) | ->]; [left; exists c; split; trivial | right; reflexivity].
  - destruct Hs as [(c & Hc & Hd) | ->]; [left; exists c; split; trivial | right; reflexivity].
Qed.

Lemma breakdown_fields_have_two_decimals_witness :
  exists p mode f s,
    estimate_vram_endpoint (request 512 512 20 true) = Ok (Breakdown p mode f s) /\
    ((exists c, 245 <= c /\ decimal2 c = Ok p) \/ p = Float (S754_infinity false)) /\
    ((exists c, 0 <= c /\ decimal2 c = Ok s) \/ s = Float (S754_infinity false)).
Proof.
  do 4 eexists.
  assert (H : estimate_vram_endpoint (request 512 512 20 true) = Ok _)
    by (vm_compute; reflexivity).
  split; [exact H|].
  exact (breakdown_fields_have_two_decimals (request 512 512 20 true) _ _ _ _ H).
Defined.

Lemma lt_zero_exactly g z k :
  exactly g z k -> lt g (Int 0) = (z <? 0).
Proof.
  intros (x & -> & Hx). destruct x as [s | s | | s m e]; try contradiction.
  - cbn [repr] in Hx. subst. reflexivity.
  - apply repr_finite_inv in Hx.
    destruct Hx as (_ & _ & _ & _ & _ & Hs & _). rewrite <- Hs.
    unfold lt. cbn [compare compare_float_int].
    destruct (Z.leb_spec 0 e).
    + rewrite Z.shiftl_mul_pow2 by lia. pose proof (pow2_pos e ltac:(lia)).
      destruct s; cbn [cond_Zopp];
        [destruct (Z.compare_spec (- (Zpos m * 2 ^ e)) 0)
        | destruct (Z.compare_spec (Zpos m * 2 ^ e) 0)]; trivial; nia.
    + rewrite Z.shiftl_0_l. destruct s; reflexivity.
Qed.

(** X16: a negative result of the estimator is not always the sentinel:
    for multiples of 8 of opposite signs whose byte count
    [2,632,400,000 + 3072 * prompt_length + (h/8)(w/8) * 20008] (25008
    without the optimization) is negative, it returns that negative
    estimate with the description of the attention mode, which the test
    [result_gb < 0] would take for the sentinel. *)
Theorem f_estimate_negative_estimate a b pl (opt : bool) :
  Z.abs a < 2 ^ 53 -> Z.abs b < 2 ^ 53 ->
  Z.abs (a * b) * 25008
    + Z.abs (C_WEIGHTS_BYTES + C_OVERHEAD_BYTES + C_L_FACTOR * pl) < 2 ^ 53 ->
  2632400000 + 3072 * pl + a * b * (if opt then 20008 else 25008) < 0 ->
  exists g,
    f_estimate (8 * a) (8 * b) pl opt = Ok (g, attention_mode_of opt) /\
    lt g (Int 0) = true /\
    (g, attention_mode_of opt) <> (Float minus_one, multiple_of_8_message).
Proof.
  intros Ha Hb Hr Hneg.
  destruct (f_estimate_exact (8 * a) (8 * b) pl opt a b eq_refl eq_refl Ha Hb Hr)
    as (g & Hg & Eg).
  exists g. split; [exact Hg|]. split.
  - rewrite (lt_zero_exactly g _ _ Eg). apply Z.ltb_lt.
    unfold total_bytes, C_WEIGHTS_BYTES, C_OVERHEAD_BYTES, C_L_FACTOR. lia.
  - destruct opt; intros E; discriminate E.
Qed.

Lemma f_estimate_negative_estimate_witness :
  (Z.abs (-1000) < 2 ^ 53 /\ Z.abs 1000 < 2 ^ 53 /\
   Z.abs (-1000 * 1000) * 25008
     + Z.abs (C_WEIGHTS_BYTES + C_OVERHEAD_BYTES + C_L_FACTOR * 20) < 2 ^ 53 /\
   2632400000 + 3072 * 20 + -1000 * 1000 * 20008 < 0) /\
  exists g,
    f_estimate (8 * -1000) (8 * 1000) 20 true = Ok (g, attention_mode_of true) /\
    lt g (Int 0) = true /\
    (g, attention_mode_of true) <> (Float minus_one, multiple_of_8_message).
Proof.
  assert (H1 : Z.abs (-1000) < 2 ^ 53) by reflexivity.
  assert (H2 : Z.abs 1000 < 2 ^ 53) by reflexivity.
  assert (H3 : Z.abs (-1000 * 1000) * 25008
               + Z.abs (C_WEIGHTS_BYTES + C_OVERHEAD_BYTES + C_L_FACTOR * 20)
               < 2 ^ 53) by reflexivity.
  assert (H4 : 2632400000 + 3072 * 20 + -1000 * 1000 * 20008 < 0) by reflexivity.
  split; [split; [exact H1 | split; [exact H2 | split; [exact H3 | exact H4]]]|].
  exact (f_estimate_negative_estimate (-1000) 1000 20 true H1 H2 H3 H4).
Defined.

Lemma SFltb_leb_trans x y z :
  at_least_one x -> at_least_one y -> at_least_one z ->
  SFltb x y = true -> SFleb y z = true -> SFltb x z = true.
Proof.
  intros Hx Hy Hz.
  destruct x as [sx | [|] | | [|] mx ex]; try contradiction;
  destruct y as [sy | [|] | | [|] my ey]; try contradiction;
  destruct z as [sz | [|] | | [|] mz ez]; try contradiction;
  intros H1 H2; try discriminate H1; try discriminate H2; try reflexivity.
  apply SFltb_finite. apply SFltb_finite in H1. apply SFleb_finite in H2. lia.
Qed.

(** X17: for every valid input the unrounded estimate is strictly above
    fixed_cost_gb, also where the arithmetic rounds or saturates: the
    spatial cost is positive before it is rounded. *)
Theorem estimate_strictly_above_fixed h w pl opt g mode :
  valid_input h w pl -> f_estimate h w pl opt = Ok (g, mode) ->
  exists fx, fixed_cost_gb = Ok fx /\ lt fx g = true.
Proof.
  intros V G.
  destruct (f_estimate_valid_value _ _ _ _ _ _ V G)
    as (xA & lh & lw & _ & RA & _ & _ & AA & Ah & Aw & -> & _).
  destruct V as (_ & _ & Hpl).
  exists (Float (S754_finite false 5520542924800000 (-51))).
  split; [reflexivity|].
  change (SFltb (S754_finite false 5520542924800000 (-51))
            (SFdiv prec emax (peak_bytes xA lh lw opt)
               (S754_finite false 4503599627370496 (-22))) = true).
  set (xF := S754_finite false 5520542924800000 (-21)).
  assert (RF : repr xF 2632400000 0).
  { apply (repr_dyadic 2632400000 0); change (2 ^ 53) with 9007199254740992; lia. }
  assert (AF : at_least_one xF) by (cbn; split; [reflexivity | lia]).
  assert (HFA : SFltb xF xA = true).
  { unfold SFltb. rewrite (repr_compare xF xA _ _ 0 RF RA).
    unfold C_WEIGHTS_BYTES, C_OVERHEAD_BYTES, C_L_FACTOR.
    destruct (Z.compare_spec 2632400000 (2132400000 + 500000000 + 3072 * pl));
      trivial; lia. }
  pose proof (peak_bytes_at_least_one xA lh lw opt AA Ah Aw) as AP.
  assert (HAP : SFleb xA (peak_bytes xA lh lw opt) = true).
  { unfold peak_bytes. apply at_least_one_add; trivial.
    pose proof (at_least_one_multiplier opt).
    assert (at_least_one (dyadic 4 0))
      by (apply at_least_one_int; change (2 ^ 53) with 9007199254740992; lia).
    assert (at_least_one (dyadic 2 0))
      by (apply at_least_one_int; change (2 ^ 53) with 9007199254740992; lia).
    assert (at_least_one (dyadic 20000 0))
      by (apply at_least_one_int; change (2 ^ 53) with 9007199254740992; lia).
    apply at_least_one_add; repeat apply at_least_one_mul; trivial. }
  pose proof (SFltb_leb_trans xF xA _ AF AA AP HFA HAP) as HFP.
  destruct (peak_bytes xA lh lw opt) as [s | [|] | | [|] m e];
    try contradiction.
  - reflexivity.
  - destruct AP as [Hd He]. rewrite div_2p30_finite by trivial.
    apply SFltb_finite. unfold xF in HFP. apply SFltb_finite in HFP. lia.
Qed.

Lemma estimate_strictly_above_fixed_witness :
  exists g mode,
    (valid_input 8 8 1 /\ f_estimate 8 8 1 true = Ok (g, mode)) /\
    exists fx, fixed_cost_gb = Ok fx /\ lt fx g = true.
Proof.
  do 2 eexists.
  assert (V : valid_input 8 8 1).
  { unfold valid_input, valid_dimension. repeat split; try reflexivity; lia. }
  assert (G : f_estimate 8 8 1 true = Ok _) by (vm_compute; reflexivity).
  split; [split; [exact V | exact G]|].
  exact (estimate_strictly_above_fixed 8 8 1 true _ _ V G).
Defined.
